(** * Kamui standalone VRF server: fulfillment oracle

    A shallow embedding of [standalone-vrf-server.js]: the Node [Buffer]
    operations the server uses, the request-account decoder, the map of
    recently processed requests, the fulfillment instruction encoder and
    the polling loop, followed by the properties proved about them. *)

From Stdlib Require Import ZArith Lia List Ascii String.
From Stdlib.Strings Require Byte.
From stdpp Require Import base option list strings gmap.

Local Open Scope Z_scope.

(** ** Node Buffers *)

(** A Buffer is a sequence of octets. *)
Abbreviation byte := Init.Byte.byte.
Abbreviation Buffer := (list byte).

Definition byteVal (b : byte) : Z := Z.of_N (Byte.to_N b).

(** The octet holding [v mod 256]. *)
Definition octet (v : Z) : byte :=
  match Byte.of_N (Z.to_N (v mod 256)) with
  | Some b => b
  | None => Init.Byte.x00
  end.

Definition bufLen (data : Buffer) : Z := Z.of_nat (length data).

(** Errors a JavaScript call can raise in this program. *)
Inductive Error : Type :=
  | RangeError            (* Buffer read or write out of range *)
  | CliError              (* the Mangekyou CLI process failed *)
  | RpcError              (* a Solana RPC call rejected *)
  | SerializeError        (* Transaction.serialize refused the transaction *)
  | DeriveError.          (* findProgramAddress found no bump *)

(** Result of a call that either returns or throws. *)
Inductive outcome (A : Type) : Type :=
  | Ret (a : A)
  | Throw (e : Error).
Arguments Ret {A} a.
Arguments Throw {A} e.

(** [buf.slice(start, end)] with non-negative indices: both are clamped to
    the buffer length and the call never throws. *)
Definition slice (data : Buffer) (start stop : Z) : Buffer :=
  let len := bufLen data in
  let s := Z.min (Z.max start 0) len in
  let e := Z.min (Z.max stop 0) len in
  if s <? e then take (Z.to_nat (e - s)) (drop (Z.to_nat s) data) else [].

(** [buf[offset]] for an offset already known to be in range. *)
Definition byteAt (data : Buffer) (offset : Z) : Z :=
  match data !! Z.to_nat offset with
  | Some b => byteVal b
  | None => 0
  end.

(** [buf.readUInt8(offset)]: throws a RangeError outside [0, length - 1]. *)
Definition readUInt8 (data : Buffer) (offset : Z) : outcome Z :=
  if (0 <=? offset) && (offset + 1 <=? bufLen data)
  then Ret (byteAt data offset)
  else Throw RangeError.

(** [buf.readUInt32LE(offset)]: throws outside [0, length - 4]. *)
Definition readUInt32LE (data : Buffer) (offset : Z) : outcome Z :=
  if (0 <=? offset) && (offset + 4 <=? bufLen data)
  then Ret (byteAt data offset
            + byteAt data (offset + 1) * 2 ^ 8
            + byteAt data (offset + 2) * 2 ^ 16
            + byteAt data (offset + 3) * 2 ^ 24)
  else Throw RangeError.

(** [Buffer.alloc(size)]: zero filled. *)
Definition alloc (size : Z) : Buffer := replicate (Z.to_nat size) Init.Byte.x00.

(** [source.copy(target, targetStart)]: overwrites [target] from
    [targetStart] with as many octets of [source] as fit; the target
    keeps its length. *)
Definition copy (source target : Buffer) (targetStart : Z) : Buffer :=
  let t := Z.to_nat targetStart in
  let n := Nat.min (length source) (length target - t) in
  take t target ++ take n source ++ drop (t + n) target.

(** The four octets of a u32, least significant first. *)
Definition le32 (v : Z) : Buffer :=
  [octet v; octet (v / 2 ^ 8); octet (v / 2 ^ 16); octet (v / 2 ^ 24)].

(** [buf.writeUInt8(value, offset)]. *)
Definition writeUInt8 (target : Buffer) (value offset : Z) : outcome Buffer :=
  if (0 <=? value) && (value <=? 255)
  then if (0 <=? offset) && (offset + 1 <=? bufLen target)
       then Ret (copy [octet value] target offset)
       else Throw RangeError
  else Throw RangeError.

(** [buf.writeUInt32LE(value, offset)]. *)
Definition writeUInt32LE (target : Buffer) (value offset : Z) : outcome Buffer :=
  if (0 <=? value) && (value <=? 4294967295)
  then if (0 <=? offset) && (offset + 4 <=? bufLen target)
       then Ret (copy (le32 value) target offset)
       else Throw RangeError
  else Throw RangeError.

(** *** Hexadecimal text *)

Definition hexDigit (n : Z) : ascii :=
  if n <? 10 then ascii_of_N (Z.to_N (48 + n)) else ascii_of_N (Z.to_N (87 + n)).

Definition byteToHex (b : byte) : string :=
  String (hexDigit (byteVal b / 16)) (String (hexDigit (byteVal b mod 16)) EmptyString).

(** [buf.toString('hex')]. *)
Fixpoint toHex (data : Buffer) : string :=
  match data with
  | [] => EmptyString
  | b :: rest => byteToHex b +:+ toHex rest
  end.

Definition hexVal (c : ascii) : option Z :=
  let n := Z.of_N (N_of_ascii c) in
  if (48 <=? n) && (n <=? 57) then Some (n - 48)
  else if (97 <=? n) && (n <=? 102) then Some (n - 87)
  else if (65 <=? n) && (n <=? 70) then Some (n - 55)
  else None.

(** [Buffer.from(text, 'hex')]: decoding stops at the first pair that is
    not two hexadecimal digits. *)
Fixpoint fromHex (text : string) : Buffer :=
  match text with
  | String hi (String lo rest) =>
      match hexVal hi, hexVal lo with
      | Some h, Some l => octet (16 * h + l) :: fromHex rest
      | _, _ => []
      end
  | _ => []
  end.

(** [Buffer.from(text)]: the octets of the text. *)
Fixpoint fromText (text : string) : Buffer :=
  match text with
  | EmptyString => []
  | String c rest => byte_of_ascii c :: fromText rest
  end.

(** ** Solana values *)

(** A web3.js [PublicKey] is built from its base58 text or from 32 raw
    octets. [key.toString()] followed by [new PublicKey(text)] gives the
    same key back, so a key handed over as text is kept as the key. *)
Inductive PublicKey : Type :=
  | KeyOfText (text : string)
  | KeyOfBytes (bytes : Buffer).

(** A seed of a program-derived address: raw octets or [key.toBuffer()]. *)
Inductive Seed : Type :=
  | SeedBytes (bytes : Buffer)
  | SeedKey (key : PublicKey).

(** An entry of [getProgramAccounts]: [pubkey] is [account.pubkey.toString()],
    [data] is [account.account.data]. *)
Record Account : Type := { pubkey : string; data : Buffer }.

Module AccountMeta.
Record t : Type := { pubkey : PublicKey; isSigner : bool; isWritable : bool }.
End AccountMeta.

Record Instruction : Type := {
  keys : list AccountMeta.t;
  programId : PublicKey;
  instructionData : Buffer
}.

Record Transaction : Type := {
  instruction : Instruction;
  recentBlockhash : string;
  feePayer : PublicKey
}.

Definition VRF_PROGRAM_ID : string := "6k1Lmt37b5QQAhPz5YXbTPoHCSCDbSEeNAC96nWZn85a".
Definition vrfProgramId : PublicKey := KeyOfText VRF_PROGRAM_ID.

(** [SystemProgram.programId]. *)
Definition systemProgramId : PublicKey := KeyOfText "11111111111111111111111111111111".

(** Anchor discriminator of a RandomnessRequest account, as hex text. *)
Definition requestDiscriminatorHex : string := "f4e7e4a0941c11b8".

(** The same discriminator as octets. *)
Definition requestDiscriminator : Buffer :=
  Eval cbv in fromHex requestDiscriminatorHex.

(** Discriminator of the [fulfill_randomness] instruction:
    [235, 105, 140, 46, 40, 88, 117, 2]. *)
Definition fulfillDiscriminator : Buffer :=
  [octet 235; octet 105; octet 140; octet 46; octet 40; octet 88; octet 117; octet 2].

(** ** Server state *)

Module ProofResult.
Record t : Type := { proof : string; output : string }.
End ProofResult.

(** The value stored in [processedRequests]. *)
Module ProcessedInfo.
Record t : Type := {
  timestamp : Z;
  proof : string;
  output : string;
  seed : string;
  requestId : string;
  poolId : Z;
  requestIndex : Z
}.
End ProcessedInfo.

Record Stats : Type := {
  startTime : Z;
  requestsProcessed : Z;
  requestsFulfilled : Z;
  errors : Z
}.

(** What the server does to the outside world, oldest first. *)
Inductive Event : Type :=
  | EvSend (tx : Transaction)     (* connection.sendRawTransaction *)
  | EvSleep (ms : Z).             (* this.sleep(ms) *)

(** The mutable fields of [StandaloneVRFServer], the number of external
    calls made so far and the events emitted so far. *)
Record World : Type := {
  processedRequests : gmap string ProcessedInfo.t;
  isRunning : bool;
  stats : Stats;
  calls : nat;
  events : list Event
}.

Definition setProcessedRequests (m : gmap string ProcessedInfo.t) (w : World) : World :=
  {| processedRequests := m; isRunning := isRunning w; stats := stats w;
     calls := calls w; events := events w |}.

Definition setIsRunning (b : bool) (w : World) : World :=
  {| processedRequests := processedRequests w; isRunning := b; stats := stats w;
     calls := calls w; events := events w |}.

Definition setStats (s : Stats) (w : World) : World :=
  {| processedRequests := processedRequests w; isRunning := isRunning w; stats := s;
     calls := calls w; events := events w |}.

Definition setCalls (n : nat) (w : World) : World :=
  {| processedRequests := processedRequests w; isRunning := isRunning w; stats := stats w;
     calls := n; events := events w |}.

(** The world after [n] more external calls that changed nothing else. *)
Definition advance (n : nat) (w : World) : World := setCalls (n + calls w) w.

Definition emit (e : Event) (w : World) : World :=
  {| processedRequests := processedRequests w; isRunning := isRunning w; stats := stats w;
     calls := calls w; events := events w ++ [e] |}.

Definition incRequestsProcessed (s : Stats) : Stats :=
  {| startTime := startTime s; requestsProcessed := requestsProcessed s + 1;
     requestsFulfilled := requestsFulfilled s; errors := errors s |}.

Definition incRequestsFulfilled (s : Stats) : Stats :=
  {| startTime := startTime s; requestsProcessed := requestsProcessed s;
     requestsFulfilled := requestsFulfilled s + 1; errors := errors s |}.

Definition incErrors (s : Stats) : Stats :=
  {| startTime := startTime s; requestsProcessed := requestsProcessed s;
     requestsFulfilled := requestsFulfilled s; errors := errors s + 1 |}.

Definition setStartTime (t : Z) (s : Stats) : Stats :=
  {| startTime := t; requestsProcessed := requestsProcessed s;
     requestsFulfilled := requestsFulfilled s; errors := errors s |}.

(** Number of [sendRawTransaction] calls among the events. *)
Definition isSend (e : Event) : bool :=
  match e with EvSend _ => true | EvSleep _ => false end.

Definition submissions (w : World) : nat := length (List.filter isSend (events w)).

(** ** The environment *)

(** How a child process started by [execAsync] ends. *)
Inductive ExecResult : Type :=
  | ExecOk (stdout stderr : string)   (* exit code 0 *)
  | ExecExit (code : Z)               (* non-zero exit code *)
  | ExecTimeout                       (* killed after the 30 s timeout *)
  | ExecSpawnError.                   (* the binary could not be started *)

(** The answers of the outside world. The [n]-th external call of a run
    (clock read, child process, RPC) is answered by the field for its
    kind at index [n]; [None] stands for a rejected promise.
    [serializable] tells whether [transaction.serialize()] accepts a
    signed transaction (it throws when the transaction is too large) and
    [findProgramAddress] is the address derivation of web3.js. *)
Record Env : Type := {
  dateNow : nat -> Z;
  cliProve : nat -> string -> option ProofResult.t;
  cliExec : nat -> string -> ExecResult;
  rpcGetProgramAccounts : nat -> option (list Account);
  rpcGetLatestBlockhash : nat -> option string;
  rpcSendRawTransaction : nat -> Transaction -> option string;
  rpcConfirmTransaction : nat -> string -> option (option string);
  serializable : Transaction -> bool;
  findProgramAddress : list Seed -> PublicKey -> option PublicKey
}.

(** Values fixed by [initialize] and by [CONFIG]. [pollingIntervalEnv] is
    [parseInt(process.env.POLLING_INTERVAL)], [None] when it is NaN. *)
Record Config : Type := {
  pollingIntervalEnv : option Z;
  cliPath : string;
  vrfPublicKey : string;
  oraclePublicKey : PublicKey
}.

(** [parseInt(process.env.POLLING_INTERVAL) || 3000]. *)
Definition POLLING_INTERVAL (cfg : Config) : Z :=
  match pollingIntervalEnv cfg with
  | Some n => if n =? 0 then 3000 else n
  | None => 3000
  end.

(** ** Computations that read and change the world and may throw *)

Definition M (A : Type) : Type := World -> outcome A * World.

Definition ret {A} (a : A) : M A := fun w => (Ret a, w).

Definition throw {A} (e : Error) : M A := fun w => (Throw e, w).

Definition bind {A B} (m : M A) (k : A -> M B) : M B :=
  fun w => match m w with
           | (Ret a, w') => k a w'
           | (Throw e, w') => (Throw e, w')
           end.

(** [try { m } catch (error) { handler }]: what [m] changed before it
    threw stays changed. *)
Definition tryCatch {A} (m : M A) (handler : Error -> M A) : M A :=
  fun w => match m w with
           | (Ret a, w') => (Ret a, w')
           | (Throw e, w') => handler e w'
           end.

Definition get : M World := fun w => (Ret w, w).

Definition modify (f : World -> World) : M unit := fun w => (Ret tt, f w).

Definition lift {A} (o : outcome A) : M A := fun w => (o, w).

Definition obind {A B} (o : outcome A) (k : A -> outcome B) : outcome B :=
  match o with
  | Ret a => k a
  | Throw e => Throw e
  end.

Declare Scope js_scope.
Delimit Scope js_scope with js.
Notation "x <- m ;; k" := (bind m (fun x => k))
  (at level 100, m at next level, right associativity) : js_scope.
Notation "m ;;; k" := (bind m (fun _ => k))
  (at level 100, right associativity) : js_scope.
Notation "x <-? o ;; k" := (obind o (fun x => k))
  (at level 100, o at next level, right associativity) : js_scope.

(** ** Decoding a RandomnessRequest account *)

(** The fields [processRequestAccount] reads from the account data. *)
Module Request.
Record t : Type := {
  subscription : Buffer;
  seed : Buffer;
  requester : Buffer;
  callbackDataLength : Z;
  poolId : Z;
  requestIndex : Z;
  requestId : Buffer
}.
End Request.

(** The [try] block of [isRequestPending]: discriminator, then the status
    octet behind the callback data. *)
Definition statusIsPending (data : Buffer) : outcome bool :=
  let discriminatorHex := toHex (slice data 0 8) in
  if negb (String.eqb discriminatorHex requestDiscriminatorHex) then Ret false else
  let offset := 8 in          (* Skip discriminator *)
  let offset := offset + 32 in  (* Skip subscription *)
  let offset := offset + 32 in  (* Skip seed *)
  let offset := offset + 32 in  (* Skip requester *)
  if bufLen data <=? offset + 4 then Ret false else
  (callbackDataLength <-? readUInt32LE data offset ;;
   let offset := offset + (4 + callbackDataLength) in
   let offset := offset + 8 in  (* Skip request_slot *)
   if bufLen data <=? offset then Ret false else
   (status <-? readUInt8 data offset ;;
    if negb (status =? 0) then Ret false else Ret true))%js.

(** The field reads of [processRequestAccount], after its discriminator
    check. *)
Definition parseRequest (data : Buffer) : outcome Request.t :=
  let offset := 8 in
  let subscription := slice data offset (offset + 32) in
  let offset := offset + 32 in
  let seed := slice data offset (offset + 32) in
  let offset := offset + 32 in
  let requester := slice data offset (offset + 32) in
  let offset := offset + 32 in
  (callbackDataLength <-? readUInt32LE data offset ;;
   let offset := offset + (4 + callbackDataLength) in
   let offset := offset + 8 in   (* request_slot *)
   let offset := offset + 1 in   (* status *)
   let offset := offset + 4 in   (* num_words *)
   let offset := offset + 8 in   (* callback_gas_limit *)
   poolId <-? readUInt8 data offset ;;
   let offset := offset + 1 in
   requestIndex <-? readUInt32LE data offset ;;
   let offset := offset + 4 in
   let requestId := slice data offset (offset + 32) in
   Ret {| Request.subscription := subscription;
          Request.seed := seed;
          Request.requester := requester;
          Request.callbackDataLength := callbackDataLength;
          Request.poolId := poolId;
          Request.requestIndex := requestIndex;
          Request.requestId := requestId |})%js.

(** ** Encoding the fulfillment instruction data *)

(** Lines 750-780 of [createFulfillmentInstruction]: allocate the buffer
    and write the fields one after the other. *)
Definition encodeFulfillData (proofBuffer publicKeyBuffer requestId : Buffer)
    (poolId requestIndex : Z) : outcome Buffer :=
  let fulfillTotalSize :=
    8 + 4 + bufLen proofBuffer + 4 + bufLen publicKeyBuffer + 32 + 1 + 4 in
  let fulfillData := alloc fulfillTotalSize in
  let fulfillOffset := 0 in
  let fulfillData := copy fulfillDiscriminator fulfillData fulfillOffset in
  let fulfillOffset := fulfillOffset + 8 in
  (fulfillData <-? writeUInt32LE fulfillData (bufLen proofBuffer) fulfillOffset ;;
   let fulfillOffset := fulfillOffset + 4 in
   let fulfillData := copy proofBuffer fulfillData fulfillOffset in
   let fulfillOffset := fulfillOffset + bufLen proofBuffer in
   fulfillData <-? writeUInt32LE fulfillData (bufLen publicKeyBuffer) fulfillOffset ;;
   let fulfillOffset := fulfillOffset + 4 in
   let fulfillData := copy publicKeyBuffer fulfillData fulfillOffset in
   let fulfillOffset := fulfillOffset + bufLen publicKeyBuffer in
   let fulfillData := copy requestId fulfillData fulfillOffset in
   let fulfillOffset := fulfillOffset + 32 in
   fulfillData <-? writeUInt8 fulfillData poolId fulfillOffset ;;
   let fulfillOffset := fulfillOffset + 1 in
   writeUInt32LE fulfillData requestIndex fulfillOffset)%js.

(** ** The server *)

Section Server.

Context (cfg : Config) (env : Env).

Local Open Scope js_scope.

(** Index of the next external call; every external call takes one. *)
Definition nextCall : M nat :=
  fun w => (Ret (calls w), setCalls (S (calls w)) w).

(** [Date.now()]. *)
Definition DateNow : M Z :=
  n <- nextCall ;; ret (dateNow env n).

(** [this.sleep(ms)]. *)
Definition sleep (ms : Z) : M unit := modify (emit (EvSleep ms)).

(** [execAsync(command, { timeout: 30000 })]: resolves with the output on
    exit code 0 and rejects otherwise. *)
Definition execAsync (command : string) : M (string * string) :=
  n <- nextCall ;;
  match cliExec env n command with
  | ExecOk stdout stderr => ret (stdout, stderr)
  | ExecExit _ | ExecTimeout | ExecSpawnError => throw CliError
  end.

(** *** MangekyouCLIInterface *)

(** The argument of [generateProof] and [verifyProof]: the seed octets in
    the server, a text in [testCLI]. *)
Inductive Input : Type :=
  | InBuffer (bytes : Buffer)
  | InText (text : string).

(** [Buffer.from(input)]. *)
Definition bufferFrom (input : Input) : Buffer :=
  match input with
  | InBuffer bytes => bytes
  | InText text => fromText text
  end.

Definition getPublicKey : string := vrfPublicKey cfg.

(** [generateProof]: runs [prove] on the hex input and reads the proof and
    the output from what the CLI prints; [cliProve] gives the two when the
    process succeeds and both lines are found, and the call throws
    otherwise. *)
Definition generateProof (input : Input) : M ProofResult.t :=
  let inputHex := toHex (bufferFrom input) in
  tryCatch
    (n <- nextCall ;;
     match cliProve env n inputHex with
     | Some proofResult => ret proofResult
     | None => throw CliError
     end)
    (fun error => throw error).

Definition verifyCommand (proof output publicKey inputHex : string) : string :=
  cliPath cfg +:+ " verify --proof " +:+ proof +:+ " --output " +:+ output
  +:+ " --public-key " +:+ publicKey +:+ " --input " +:+ inputHex.

Definition verifyProof (proof output publicKey : string) (input : Input) : M bool :=
  let inputHex := toHex (bufferFrom input) in
  tryCatch
    (_ <- execAsync (verifyCommand proof output publicKey inputHex) ;;
     (* CLI exits with code 0 for successful verification *)
     ret true)
    (fun error =>
     (* CLI exits with non-zero code for failed verification *)
     ret false).

(** *** StandaloneVRFServer *)

Definition modifyStats (f : Stats -> Stats) : M unit :=
  modify (fun w => setStats (f (stats w)) w).

(** The first part of [isRequestPending]: [true] when the request was
    processed less than 10 minutes ago; an older entry is removed. *)
Definition processedRecently (pubkeyStr : string) : M bool :=
  w <- get ;;
  match processedRequests w !! pubkeyStr with
  | Some processedInfo =>
      now <- DateNow ;;
      if now - ProcessedInfo.timestamp processedInfo <? 10 * 60 * 1000
      then ret true
      else
        (modify (fun w => setProcessedRequests (delete pubkeyStr (processedRequests w)) w) ;;;
         ret false)
  | None => ret false
  end.

Definition isRequestPending (account : Account) : M bool :=
  let pubkeyStr := pubkey account in
  recent <- processedRecently pubkeyStr ;;
  if recent then ret false else
  tryCatch (lift (statusIsPending (data account))) (fun error => ret false).

(** The body of the [for] loop of [getPendingRequestAccounts]. *)
Definition checkAccount (account : Account) (pendingRequests : list Account)
    : M (list Account) :=
  tryCatch
    (let data := data account in
     if bufLen data <? 32 then ret pendingRequests else
     let discriminatorHex := toHex (slice data 0 8) in
     if String.eqb discriminatorHex requestDiscriminatorHex
     then
       (pending <- isRequestPending account ;;
        if pending then ret (pendingRequests ++ [account]) else ret pendingRequests)
     else ret pendingRequests)
    (fun error => ret pendingRequests).

Fixpoint scanAccounts (accounts pendingRequests : list Account) : M (list Account) :=
  match accounts with
  | [] => ret pendingRequests
  | account :: rest =>
      pendingRequests <- checkAccount account pendingRequests ;;
      scanAccounts rest pendingRequests
  end.

Definition getProgramAccounts : M (list Account) :=
  n <- nextCall ;;
  match rpcGetProgramAccounts env n with
  | Some accounts => ret accounts
  | None => throw RpcError
  end.

Definition getPendingRequestAccounts : M (list Account) :=
  accounts <- getProgramAccounts ;;
  scanAccounts accounts [].

Definition getLatestBlockhash : M string :=
  n <- nextCall ;;
  match rpcGetLatestBlockhash env n with
  | Some blockhash => ret blockhash
  | None => throw RpcError
  end.

Definition sendRawTransaction (transaction : Transaction) : M string :=
  n <- nextCall ;;
  modify (emit (EvSend transaction)) ;;;
  match rpcSendRawTransaction env n transaction with
  | Some signature => ret signature
  | None => throw RpcError
  end.

(** [transaction.sign(this.oracleKeypair)] and [transaction.serialize()]. *)
Definition signAndSerialize (transaction : Transaction) : M unit :=
  if serializable env transaction then ret tt else throw SerializeError.

(** [confirmTransaction]: rejects, or resolves with [value.err]. *)
Definition confirmTransaction (signature : string) : M (option string) :=
  n <- nextCall ;;
  match rpcConfirmTransaction env n signature with
  | Some err => ret err
  | None => throw RpcError
  end.

(** [PublicKey.findProgramAddress(seeds, programId)]. *)
Definition findProgramAddressM (seeds : list Seed) (program : PublicKey) : M PublicKey :=
  match findProgramAddress env seeds program with
  | Some address => ret address
  | None => throw DeriveError
  end.

Definition metaOf (key : PublicKey) (signer writable : bool) : AccountMeta.t :=
  {| AccountMeta.pubkey := key; AccountMeta.isSigner := signer;
     AccountMeta.isWritable := writable |}.

Definition createFulfillmentInstruction (requestAccountPubkey : string)
    (proofResult : ProofResult.t) (seed requestId : Buffer) (poolId requestIndex : Z)
    (subscriptionPDA : PublicKey) : M Instruction :=
  let requestAccount := KeyOfText requestAccountPubkey in
  let proofBuffer := fromHex (ProofResult.proof proofResult) in
  let publicKeyBuffer := fromHex getPublicKey in
  requestPoolPDA <-
    findProgramAddressM
      [SeedBytes (fromText "request_pool"); SeedKey subscriptionPDA; SeedBytes [octet poolId]]
      vrfProgramId ;;
  vrfResultPDA <-
    findProgramAddressM [SeedBytes (fromText "vrf_result"); SeedKey requestAccount]
      vrfProgramId ;;
  fulfillData <-
    lift (encodeFulfillData proofBuffer publicKeyBuffer requestId poolId requestIndex) ;;
  ret {| keys :=
           [ metaOf (oraclePublicKey cfg) true true;   (* oracle *)
             metaOf requestAccount false true;          (* request_account *)
             metaOf vrfResultPDA false true;            (* vrf_result_account *)
             metaOf requestPoolPDA false true;          (* request_pool_account *)
             metaOf subscriptionPDA false true;         (* subscription_account *)
             metaOf systemProgramId false false ];      (* system_program *)
         programId := vrfProgramId;
         instructionData := fulfillData |}.

(** What [submitFulfillment] resolves with. *)
Inductive FulfillmentResult : Type :=
  | Success (signature : string)
  | Failure.

Definition submitFulfillment (requestAccountPubkey : string)
    (proofResult : ProofResult.t) (seed requestId : Buffer) (poolId requestIndex : Z)
    (subscriptionPDA : PublicKey) : M FulfillmentResult :=
  tryCatch
    (instruction <-
       createFulfillmentInstruction requestAccountPubkey proofResult seed requestId
         poolId requestIndex subscriptionPDA ;;
     blockhash <- getLatestBlockhash ;;
     let transaction :=
       {| instruction := instruction; recentBlockhash := blockhash;
          feePayer := oraclePublicKey cfg |} in
     _ <- signAndSerialize transaction ;;
     signature <- sendRawTransaction transaction ;;
     _ <- getLatestBlockhash ;;    (* lastValidBlockHeight *)
     err <- confirmTransaction signature ;;
     match err with
     | Some _ => ret Failure
     | None => ret (Success signature)
     end)
    (fun error => ret Failure).

Definition processRequestAccount (account : Account) : M bool :=
  let pubkeyStr := pubkey account in
  w <- get ;;
  (* Skip if already processed *)
  match processedRequests w !! pubkeyStr with
  | Some _ => ret false
  | None =>
    tryCatch
      (let data := data account in
       if bufLen data <? 8 then ret false else
       let discriminatorHex := toHex (slice data 0 8) in
       if negb (String.eqb discriminatorHex requestDiscriminatorHex) then ret false else
       request <- lift (parseRequest data) ;;
       let seed := Request.seed request in
       let requestId := Request.requestId request in
       let poolId := Request.poolId request in
       let requestIndex := Request.requestIndex request in
       proofResult <- generateProof (InBuffer seed) ;;
       isValid <-
         verifyProof (ProofResult.proof proofResult) (ProofResult.output proofResult)
           getPublicKey (InBuffer seed) ;;
       if negb isValid then ret false else
       (* Mark as processed *)
       now <- DateNow ;;
       modify (fun w =>
         setProcessedRequests
           (<[pubkeyStr :=
               {| ProcessedInfo.timestamp := now;
                  ProcessedInfo.proof := ProofResult.proof proofResult;
                  ProcessedInfo.output := ProofResult.output proofResult;
                  ProcessedInfo.seed := toHex seed;
                  ProcessedInfo.requestId := toHex requestId;
                  ProcessedInfo.poolId := poolId;
                  ProcessedInfo.requestIndex := requestIndex |}]>
            (processedRequests w)) w) ;;;
       modifyStats incRequestsProcessed ;;;
       fulfillmentResult <-
         submitFulfillment pubkeyStr proofResult seed requestId poolId requestIndex
           (KeyOfBytes (Request.subscription request)) ;;
       match fulfillmentResult with
       | Success _ => modifyStats incRequestsFulfilled ;;; ret true
       | Failure => ret false
       end)
      (fun error => throw error)
  end.

(** [logProcessingStats] reads the clock for the uptime and logs. *)
Definition logProcessingStats : M unit :=
  _ <- DateNow ;; ret tt.

(** The [for] loop of [monitorAndProcess]. *)
Fixpoint processAccounts (accounts : list Account) (processedCount : Z) : M Z :=
  match accounts with
  | [] => ret processedCount
  | account :: rest =>
      processedCount <-
        tryCatch
          (processed <- processRequestAccount account ;;
           if processed
           then sleep 1000 ;;; ret (processedCount + 1)
           else ret processedCount)
          (fun error => modifyStats incErrors ;;; ret processedCount) ;;
      processAccounts rest processedCount
  end.

Definition monitorAndProcess : M unit :=
  startTime <- DateNow ;;
  tryCatch
    (accounts <- getPendingRequestAccounts ;;
     match accounts with [] => ret tt | _ :: _ =>
     processedCount <- processAccounts accounts 0 ;;
     _ <- DateNow ;;       (* duration *)
     if 0 <? processedCount then logProcessingStats else ret tt
     end)
    (fun error => throw error).

(** One turn of the [while] loop of [start]. *)
Definition loopBody : M unit :=
  tryCatch
    (monitorAndProcess ;;; sleep (POLLING_INTERVAL cfg))
    (fun error =>
     modifyStats incErrors ;;;
     sleep 5000).   (* Wait longer on error *)

(** The [while (this.isRunning)] loop, cut after [turns] turns. *)
Fixpoint mainLoop (turns : nat) : M unit :=
  match turns with
  | O => ret tt
  | S turns =>
      w <- get ;;
      if isRunning w then loopBody ;;; mainLoop turns else ret tt
  end.

Definition start (turns : nat) : M unit :=
  modify (setIsRunning true) ;;;
  now <- DateNow ;;
  modifyStats (setStartTime now) ;;;
  mainLoop turns.

End Server.

(** What [isRequestPending] answers once the entry check has passed. *)
Definition pendingByData (data : Buffer) : bool :=
  match statusIsPending data with
  | Ret pending => pending
  | Throw _ => false
  end.

(** The six account references of a fulfillment, in the order the program
    expects them. *)
Definition fulfillmentKeys (cfg : Config) (requestAccountPubkey : string)
    (vrfResultPDA requestPoolPDA subscriptionPDA : PublicKey) : list AccountMeta.t :=
  [ {| AccountMeta.pubkey := oraclePublicKey cfg;
       AccountMeta.isSigner := true; AccountMeta.isWritable := true |};
    {| AccountMeta.pubkey := KeyOfText requestAccountPubkey;
       AccountMeta.isSigner := false; AccountMeta.isWritable := true |};
    {| AccountMeta.pubkey := vrfResultPDA;
       AccountMeta.isSigner := false; AccountMeta.isWritable := true |};
    {| AccountMeta.pubkey := requestPoolPDA;
       AccountMeta.isSigner := false; AccountMeta.isWritable := true |};
    {| AccountMeta.pubkey := subscriptionPDA;
       AccountMeta.isSigner := false; AccountMeta.isWritable := true |};
    {| AccountMeta.pubkey := systemProgramId;
       AccountMeta.isSigner := false; AccountMeta.isWritable := false |} ].

(** The entry [processRequestAccount] stores for a request. *)
Definition processedEntry (request : Request.t) (proofResult : ProofResult.t) (now : Z)
    : ProcessedInfo.t :=
  {| ProcessedInfo.timestamp := now;
     ProcessedInfo.proof := ProofResult.proof proofResult;
     ProcessedInfo.output := ProofResult.output proofResult;
     ProcessedInfo.seed := toHex (Request.seed request);
     ProcessedInfo.requestId := toHex (Request.requestId request);
     ProcessedInfo.poolId := Request.poolId request;
     ProcessedInfo.requestIndex := Request.requestIndex request |}.

(** The world in which [processRequestAccount] calls [submitFulfillment]:
    three external calls later (prove, verify, clock), with the entry
    stored and [requestsProcessed] counted. *)
Definition markedProcessed (env : Env) (account : Account) (request : Request.t)
    (proofResult : ProofResult.t) (w : World) : World :=
  setStats (incRequestsProcessed (stats w))
    (setProcessedRequests
       (<[pubkey account := processedEntry request proofResult (dateNow env (2 + calls w))]>
        (processedRequests w))
       (advance 3 w)).

(** What every step of the server preserves: the running flag is only
    changed by [start] and by the shutdown handler, events are only
    added, and the counters never decrease. *)
Definition evolves (w w' : World) : Prop :=
  isRunning w' = isRunning w
  /\ (exists more, events w' = events w ++ more)
  /\ errors (stats w) <= errors (stats w')
  /\ requestsProcessed (stats w) <= requestsProcessed (stats w')
  /\ requestsFulfilled (stats w) <= requestsFulfilled (stats w').

(** The field layout of a RandomnessRequest account: discriminator,
    subscription, seed, requester, length-prefixed callback data, request
    slot, status, number of words, callback gas limit, pool id, request
    index, request id. *)
Definition requestLayout (subscription seed requester callbackData requestSlot : Buffer)
    (status : byte) (numWords callbackGasLimit : Buffer) (poolId : byte)
    (requestIndex : Z) (requestId : Buffer) : Buffer :=
  requestDiscriminator ++ subscription ++ seed ++ requester
  ++ le32 (bufLen callbackData) ++ callbackData
  ++ requestSlot ++ [status] ++ numWords ++ callbackGasLimit
  ++ [poolId] ++ le32 requestIndex ++ requestId.

(** ** Sample inputs *)

(** A complete pending request: two octets of callback data, pool 5,
    request index 7. *)
Definition sampleRequestData : Buffer :=
  requestLayout
    (replicate 32 Init.Byte.x11)       (* subscription *)
    (replicate 32 Init.Byte.x22)       (* seed *)
    (replicate 32 Init.Byte.x33)       (* requester *)
    [Init.Byte.xaa; Init.Byte.xbb]     (* callback_data *)
    (replicate 8 Init.Byte.x00)        (* request_slot *)
    Init.Byte.x00                      (* status: Pending *)
    (le32 1)                           (* num_words *)
    (replicate 8 Init.Byte.x00)        (* callback_gas_limit *)
    Init.Byte.x05                      (* pool_id *)
    7                                  (* request_index *)
    (replicate 32 Init.Byte.x99).      (* request_id *)

(** A pending request that declares 16 octets of callback data and ends
    after 19 of the 32 octets of its request id. *)
Definition truncatedRequestData : Buffer :=
  requestLayout
    (replicate 32 Init.Byte.x11)
    (replicate 32 Init.Byte.x22)
    (replicate 32 Init.Byte.x33)
    (replicate 16 Init.Byte.xcc)
    (replicate 8 Init.Byte.x00)
    Init.Byte.x00
    (le32 1)
    (replicate 8 Init.Byte.x00)
    Init.Byte.x05
    7
    (replicate 19 Init.Byte.x99).

Definition sampleAccount : Account :=
  {| pubkey := "BqVRUSX8MH8bG2FpVso16rTnXeGj5EP8be9VzC229Eys"; data := sampleRequestData |}.

Definition truncatedAccount : Account :=
  {| pubkey := "DTzCPz22VkNnFSHAZY48iY5nkVZnH6w76RQpaVqL8EdK"; data := truncatedRequestData |}.

(** Twenty octets: shorter than any request. *)
Definition shortAccount : Account :=
  {| pubkey := "46SiBDPQWUK8noz5zoeU4ucNzct2BMKu59m7J44SzH3C";
     data := replicate 20 Init.Byte.x00 |}.

(** A verifier run that exits with code 0 and prints nothing. *)
Definition accepted : ExecResult := ExecOk EmptyString EmptyString.

Definition seedOctets (seed : Seed) : Buffer :=
  match seed with
  | SeedBytes bytes => bytes
  | SeedKey (KeyOfText text) => fromText text
  | SeedKey (KeyOfBytes bytes) => bytes
  end.

(** An environment whose clock advances one second per external call,
    whose CLI proves every seed and whose derived addresses are the
    concatenated seeds; the verifier's exit, the answer to
    [sendRawTransaction] and the account listing are given. *)
Definition sampleEnv (verify : ExecResult) (send : option string)
    (listing : option (list Account)) : Env :=
  {| dateNow := fun n => 1000 * Z.of_nat n;
     cliProve := fun _ _ => Some {| ProofResult.proof := "0a0b0c"; ProofResult.output := "0d0e" |};
     cliExec := fun _ _ => verify;
     rpcGetProgramAccounts := fun _ => listing;
     rpcGetLatestBlockhash := fun _ => Some "blockhash"%string;
     rpcSendRawTransaction := fun _ _ => send;
     rpcConfirmTransaction := fun _ _ => Some None;
     serializable := fun _ => true;
     findProgramAddress := fun seeds _ => Some (KeyOfBytes (concat (map seedOctets seeds))) |}.

(** The sample environment on a cluster that rejects
    [getLatestBlockhash]: the proof is generated and verified, and the
    submission fails before anything is sent. *)
Definition blockhashRejectedEnv (listing : option (list Account)) : Env :=
  {| dateNow := fun n => 1000 * Z.of_nat n;
     cliProve := fun _ _ => Some {| ProofResult.proof := "0a0b0c"; ProofResult.output := "0d0e" |};
     cliExec := fun _ _ => accepted;
     rpcGetProgramAccounts := fun _ => listing;
     rpcGetLatestBlockhash := fun _ => None;
     rpcSendRawTransaction := fun _ _ => Some "signature"%string;
     rpcConfirmTransaction := fun _ _ => Some None;
     serializable := fun _ => true;
     findProgramAddress := fun seeds _ => Some (KeyOfBytes (concat (map seedOctets seeds))) |}.

Definition sampleConfig (pollingIntervalEnv : option Z) : Config :=
  {| pollingIntervalEnv := pollingIntervalEnv;
     cliPath := "target/debug/ecvrf-cli";
     vrfPublicKey := "0102";
     oraclePublicKey := KeyOfText "46SiBDPQWUK8noz5zoeU4ucNzct2BMKu59m7J44SzH3C" |}.

Definition emptyStats : Stats :=
  {| startTime := 0; requestsProcessed := 0; requestsFulfilled := 0; errors := 0 |}.

(** The server right after construction, running. *)
Definition freshWorld : World :=
  {| processedRequests := ∅; isRunning := true; stats := emptyStats;
     calls := 0; events := [] |}.

(** A world whose map holds an entry for the sample account written at
    time [timestamp]. *)
Definition worldWithEntry (timestamp : Z) : World :=
  setProcessedRequests
    (<[pubkey sampleAccount :=
        {| ProcessedInfo.timestamp := timestamp;
           ProcessedInfo.proof := "0a0b0c"; ProcessedInfo.output := "0d0e";
           ProcessedInfo.seed := toHex (replicate 32 Init.Byte.x22);
           ProcessedInfo.requestId := toHex (replicate 32 Init.Byte.x99);
           ProcessedInfo.poolId := 5; ProcessedInfo.requestIndex := 7 |}]> ∅)
    freshWorld.


(** How the counters follow the transactions sent between two worlds:
    every transaction sent is counted in [requestsProcessed] and every
    count of [requestsFulfilled] stands for a transaction sent. *)
Definition accounted (w w' : World) : Prop :=
  (submissions w <= submissions w')%nat
  /\ requestsFulfilled (stats w') - requestsFulfilled (stats w)
     <= Z.of_nat (submissions w' - submissions w)
  /\ Z.of_nat (submissions w' - submissions w)
     <= requestsProcessed (stats w') - requestsProcessed (stats w).

(** A pending request cut off right behind its status octet. *)
Definition cutRequestData : Buffer := take 127 sampleRequestData.

Definition cutAccount : Account :=
  {| pubkey := "7xKXtg2CW87d97TXJSDpbD5jBkheTqA83TZRuJosgAsU"; data := cutRequestData |}.

(** ** Reading what the CLI prints *)

(** A JavaScript string is the sequence of its code units; the texts the
    CLI prints are taken with code units below 256, one [ascii] each. *)

(** The code units below 256 that [trim] removes: tab, line feed,
    vertical tab, form feed, carriage return, space and no-break space. *)
Definition isWhiteSpace (c : ascii) : bool :=
  match N_of_ascii c with
  | 9%N | 10%N | 11%N | 12%N | 13%N | 32%N | 160%N => true
  | _ => false
  end.

Fixpoint trimStart (s : string) : string :=
  match s with
  | EmptyString => EmptyString
  | String c rest => if isWhiteSpace c then trimStart rest else s
  end.

Fixpoint trimEnd (s : string) : string :=
  match s with
  | EmptyString => EmptyString
  | String c rest =>
      match trimEnd rest with
      | EmptyString => if isWhiteSpace c then EmptyString else String c EmptyString
      | kept => String c kept
      end
  end.

(** [s.trim()]. *)
Definition trim (s : string) : string := trimEnd (trimStart s).

(** Whether [sub] is found at the start of [s]. *)
Fixpoint startsWith (sub s : string) : bool :=
  match sub, s with
  | EmptyString, _ => true
  | String _ _, EmptyString => false
  | String a sub', String b s' => Ascii.eqb a b && startsWith sub' s'
  end.

(** [s.includes(sub)]. *)
Fixpoint includes (sub s : string) : bool :=
  startsWith sub s
  || match s with
     | EmptyString => false
     | String _ rest => includes sub rest
     end.

Fixpoint dropChars (n : nat) (s : string) : string :=
  match n, s with
  | O, _ => s
  | S _, EmptyString => EmptyString
  | S n', String _ rest => dropChars n' rest
  end.

(** The text before and the text after the first occurrence of [sep]. *)
Fixpoint breakOn (sep s : string) : option (string * string) :=
  if startsWith sep s then Some (EmptyString, dropChars (String.length sep) s)
  else match s with
       | EmptyString => None
       | String c rest =>
           match breakOn sep rest with
           | Some (before, after) => Some (String c before, after)
           | None => None
           end
       end.

Fixpoint splitFuel (fuel : nat) (sep s : string) : list string :=
  match breakOn sep s with
  | None => [s]
  | Some (before, after) =>
      match fuel with
      | O => [before; after]
      | S fuel' => before :: splitFuel fuel' sep after
      end
  end.

(** [s.split(sep)] for a separator that is not empty: every occurrence
    of [sep], found from the left, ends a part. *)
Definition split (sep s : string) : list string := splitFuel (String.length s) sep s.

(** The line feed, ["\n"] in the source. *)
Definition LF : string := String (ascii_of_nat 10) EmptyString.

(** How reading the output of the CLI fails: a line is missing (the
    source throws its own [Error]), or [trim] is called on [undefined]
    (a [TypeError]). *)
Inductive ParseFailure : Type :=
  | LineMissing
  | TrimOfUndefined.

Inductive parsed (A : Type) : Type :=
  | Parsed (a : A)
  | NotParsed (e : ParseFailure).
Arguments Parsed {A} a.
Arguments NotParsed {A} e.

(** [line.split(marker)[1]]: [None] stands for [undefined]. *)
Definition partAfter (marker line : string) : option string :=
  nth_error (split marker line) 1.

(** Lines 195 to 211 of [generateProof]: the proof and the output are
    read from the lines that include ['Proof:'] and ['Output:']. *)
Definition parseProveOutput (stdout : string) : parsed ProofResult.t :=
  let lines := split LF (trim stdout) in
  let proofLine := List.find (includes "Proof:") lines in
  let outputLine := List.find (includes "Output:") lines in
  match proofLine, outputLine with
  | Some proofLine, Some outputLine =>
      match partAfter "Proof:" proofLine with
      | None => NotParsed TrimOfUndefined
      | Some proof =>
          match partAfter "Output:" outputLine with
          | None => NotParsed TrimOfUndefined
          | Some output =>
              Parsed {| ProofResult.proof := trim proof; ProofResult.output := trim output |}
          end
      end
  | _, _ => NotParsed LineMissing
  end.

(** [this.vrfKeypair]. *)
Record VRFKeypair : Type := { secretKey : string; publicKey : string }.

(** Lines 133 to 144 of [generateVRFKeypair]: the lines are found by
    ['Secret key:'] and ['Public key:'] and split at the same markers
    followed by a space. *)
Definition parseKeygenOutput (stdout : string) : parsed VRFKeypair :=
  let lines := split LF (trim stdout) in
  let secretKeyLine := List.find (includes "Secret key:") lines in
  let publicKeyLine := List.find (includes "Public key:") lines in
  match secretKeyLine, publicKeyLine with
  | Some secretKeyLine, Some publicKeyLine =>
      match partAfter "Secret key: " secretKeyLine with
      | None => NotParsed TrimOfUndefined
      | Some secretKey =>
          match partAfter "Public key: " publicKeyLine with
          | None => NotParsed TrimOfUndefined
          | Some publicKey =>
              Parsed {| secretKey := trim secretKey; publicKey := trim publicKey |}
          end
      end
  | _, _ => NotParsed LineMissing
  end.

(** What the CLI prints for a proof and an output. *)
Definition proveOutput (proof output : string) : string :=
  "Proof: " +:+ proof +:+ LF +:+ "Output: " +:+ output +:+ LF.

(** A text without white space and without a colon, as hexadecimal text
    is. *)
Definition plainChar (c : ascii) : bool :=
  negb (isWhiteSpace c) && negb (Ascii.eqb c ":").

Fixpoint plain (s : string) : bool :=
  match s with
  | EmptyString => true
  | String c rest => plainChar c && plain rest
  end.

(** Whether the code unit [c] does not occur in [s]. *)
Fixpoint avoids (c : ascii) (s : string) : bool :=
  match s with
  | EmptyString => true
  | String x rest => negb (Ascii.eqb x c) && avoids c rest
  end.

(** Whether the last code unit of [m] is not white space. *)
Fixpoint endsTight (m : string) : bool :=
  match m with
  | EmptyString => false
  | String x EmptyString => negb (isWhiteSpace x)
  | String _ rest => endsTight rest
  end.

(** Whether the first code unit of [m] is not white space. *)
Definition startsTight (m : string) : bool :=
  match m with
  | EmptyString => false
  | String x _ => negb (isWhiteSpace x)
  end.


(** What the CLI prints for a new key pair. *)
Definition keygenOutput (secretKey publicKey : string) : string :=
  "Secret key: " +:+ secretKey +:+ LF +:+ "Public key: " +:+ publicKey +:+ LF.

(** The shape the two readers share: two lines found by a label each,
    each cut at a marker. *)
Definition readTwoLines {A : Type} (label1 label2 cut1 cut2 : string)
    (make : string -> string -> A) (stdout : string) : parsed A :=
  let lines := split LF (trim stdout) in
  match List.find (includes label1) lines, List.find (includes label2) lines with
  | Some line1, Some line2 =>
      match partAfter cut1 line1 with
      | None => NotParsed TrimOfUndefined
      | Some value1 =>
          match partAfter cut2 line2 with
          | None => NotParsed TrimOfUndefined
          | Some value2 => Parsed (make (trim value1) (trim value2))
          end
      end
  | _, _ => NotParsed LineMissing
  end.
(** * Properties *)

(** ** Buffers and hexadecimal text *)

Example toHex_sample :
  toHex [Init.Byte.xf4; Init.Byte.xe7; Init.Byte.x00] = "f4e700"%string.
Proof. reflexivity. Qed.

Example fromHex_sample :
  fromHex "f4E7zz00" = [Init.Byte.xf4; Init.Byte.xe7].
Proof. reflexivity. Qed.

Example readUInt32LE_sample :
  readUInt32LE [Init.Byte.x01; Init.Byte.x02; Init.Byte.x00; Init.Byte.x00; Init.Byte.xff] 0
  = Ret 513.
Proof. reflexivity. Qed.

Example readUInt32LE_short :
  readUInt32LE [Init.Byte.x01; Init.Byte.x02; Init.Byte.x00] 0 = Throw RangeError.
Proof. reflexivity. Qed.

Lemma byte_hex_roundtrip (b : byte) :
  hexVal (hexDigit (byteVal b / 16)) = Some (byteVal b / 16)
  /\ hexVal (hexDigit (byteVal b mod 16)) = Some (byteVal b mod 16)
  /\ octet (16 * (byteVal b / 16) + byteVal b mod 16) = b.
Proof. destruct b; vm_compute; repeat split. Qed.

Lemma fromHex_toHex (data : Buffer) : fromHex (toHex data) = data.
Proof.
  induction data as [|b rest IH]; [reflexivity|].
  destruct (byte_hex_roundtrip b) as (Hhi & Hlo & Hb).
  change (toHex (b :: rest))
    with (String (hexDigit (byteVal b / 16))
            (String (hexDigit (byteVal b mod 16)) (toHex rest))).
  cbn [fromHex]. rewrite Hhi, Hlo, Hb, IH. reflexivity.
Qed.

Lemma toHex_inj (a b : Buffer) : toHex a = toHex b -> a = b.
Proof.
  intros H. rewrite <- (fromHex_toHex a), <- (fromHex_toHex b). now rewrite H.
Qed.

Lemma discriminator_eqb (d : Buffer) :
  String.eqb (toHex d) requestDiscriminatorHex = true <-> d = requestDiscriminator.
Proof.
  rewrite String.eqb_eq. split.
  - intros H. apply toHex_inj. rewrite H. reflexivity.
  - intros ->. reflexivity.
Qed.

(** ** Running computations *)

Lemma bind_Ret {A B} (m : M A) (k : A -> M B) w a w' :
  m w = (Ret a, w') -> bind m k w = k a w'.
Proof. unfold bind. now intros ->. Qed.

Lemma tryCatch_rethrow {A} (m : M A) w :
  tryCatch m (fun error => throw error) w = m w.
Proof. unfold tryCatch, throw. destruct (m w) as [[a|e] w']; reflexivity. Qed.

(** ** The CLI interface *)

Lemma verifyProof_run cfg env proof output publicKey input w :
  verifyProof cfg env proof output publicKey input w
  = (Ret match cliExec env (calls w)
                 (verifyCommand cfg proof output publicKey (toHex (bufferFrom input))) with
         | ExecOk _ _ => true
         | _ => false
         end,
     advance 1 w).
Proof.
  unfold verifyProof, tryCatch, execAsync, bind, nextCall, ret, throw.
  cbn. destruct (cliExec _ _ _); reflexivity.
Qed.

(** C10. [verifyProof] always returns a boolean and never throws: [true]
    when the verifier exits with code 0, [false] for a non-zero exit, a
    timeout and a failure to start the process alike. *)
Theorem verifyProof_total cfg env proof output publicKey input w :
  exists valid : bool,
    verifyProof cfg env proof output publicKey input w = (Ret valid, advance 1 w)
    /\ (valid = true <->
        exists stdout stderr,
          cliExec env (calls w)
            (verifyCommand cfg proof output publicKey (toHex (bufferFrom input)))
          = ExecOk stdout stderr)
    /\ (forall code,
          cliExec env (calls w)
            (verifyCommand cfg proof output publicKey (toHex (bufferFrom input)))
          = ExecExit code -> valid = false)
    /\ (cliExec env (calls w)
          (verifyCommand cfg proof output publicKey (toHex (bufferFrom input)))
        = ExecTimeout -> valid = false)
    /\ (cliExec env (calls w)
          (verifyCommand cfg proof output publicKey (toHex (bufferFrom input)))
        = ExecSpawnError -> valid = false).
Proof.
  rewrite verifyProof_run. eexists. split; [reflexivity|].
  destruct (cliExec _ _ _) as [o e|c| |]; repeat split; try congruence; eauto.
  all: try (intros (? & ? & ?); congruence).
Qed.

(** ** The map of processed requests *)

Lemma processedRecently_run env pubkeyStr w :
  processedRecently env pubkeyStr w
  = match processedRequests w !! pubkeyStr with
    | Some info =>
        if dateNow env (calls w) - ProcessedInfo.timestamp info <? 10 * 60 * 1000
        then (Ret true, advance 1 w)
        else (Ret false,
              setProcessedRequests (delete pubkeyStr (processedRequests w)) (advance 1 w))
    | None => (Ret false, w)
    end.
Proof.
  unfold processedRecently, bind, get, DateNow, nextCall, ret, modify.
  destruct (processedRequests w !! pubkeyStr) as [info|]; [|reflexivity].
  cbn. destruct (_ <? _); reflexivity.
Qed.

Lemma isRequestPending_run env account w :
  isRequestPending env account w
  = match processedRequests w !! pubkey account with
    | Some info =>
        if dateNow env (calls w) - ProcessedInfo.timestamp info <? 10 * 60 * 1000
        then (Ret false, advance 1 w)
        else (Ret (pendingByData (data account)),
              setProcessedRequests (delete (pubkey account) (processedRequests w))
                (advance 1 w))
    | None => (Ret (pendingByData (data account)), w)
    end.
Proof.
  unfold isRequestPending, bind. rewrite processedRecently_run.
  unfold pendingByData, tryCatch, lift, ret.
  destruct (processedRequests w !! pubkey account) as [info|].
  - destruct (_ <? _); [reflexivity|]. destruct (statusIsPending _); reflexivity.
  - destruct (statusIsPending _); reflexivity.
Qed.

(** C4. For an account holding a pending request, [isRequestPending]
    answers [false] exactly when [processedRequests] has an entry for the
    address whose age [now - timestamp] is below 10 minutes; an entry of
    10 minutes or more is deleted from the map and the answer is [true]
    again. *)
Theorem eligibility_window env account w :
  statusIsPending (data account) = Ret true ->
  (fst (isRequestPending env account w) = Ret false <->
   exists info,
     processedRequests w !! pubkey account = Some info
     /\ dateNow env (calls w) - ProcessedInfo.timestamp info < 10 * 60 * 1000)
  /\ (forall info,
        processedRequests w !! pubkey account = Some info ->
        dateNow env (calls w) - ProcessedInfo.timestamp info < 10 * 60 * 1000 ->
        isRequestPending env account w = (Ret false, advance 1 w))
  /\ (forall info,
        processedRequests w !! pubkey account = Some info ->
        10 * 60 * 1000 <= dateNow env (calls w) - ProcessedInfo.timestamp info ->
        isRequestPending env account w
        = (Ret true,
           setProcessedRequests (delete (pubkey account) (processedRequests w))
             (advance 1 w)))
  /\ (processedRequests w !! pubkey account = None ->
      isRequestPending env account w = (Ret true, w)).
Proof.
  intros Hdata. rewrite isRequestPending_run. unfold pendingByData. rewrite Hdata.
  destruct (processedRequests w !! pubkey account) as [info|] eqn:Hget.
  - destruct (Z.ltb_spec (dateNow env (calls w) - ProcessedInfo.timestamp info)
                (10 * 60 * 1000)) as [Hlt|Hge].
    + split; [split; [eauto|reflexivity]|].
      split; [reflexivity|]. split; [|discriminate].
      intros info' [= <-] ?. lia.
    + split.
      { split; [discriminate|]. intros (info' & [= <-] & ?). lia. }
      split; [intros info' [= <-] ?; lia|].
      split; [reflexivity|discriminate].
  - split.
    { split; [discriminate|]. intros (info' & ? & _). discriminate. }
    repeat split; try discriminate; reflexivity.
Qed.

(** ** Reading account data *)

Lemma byteVal_bounds (b : byte) : 0 <= byteVal b < 256.
Proof.
  unfold byteVal. pose proof (Byte.to_N_bounded b) as H.
  apply N.lt_succ_r in H. lia.
Qed.

Lemma byteVal_zero (b : byte) : byteVal b = 0 <-> b = Init.Byte.x00.
Proof.
  split; [|intros ->; reflexivity].
  intros H. apply (f_equal Z.to_N) in H. unfold byteVal in H.
  rewrite N2Z.id in H. apply (f_equal Byte.of_N) in H.
  rewrite Byte.of_to_N in H. now injection H.
Qed.

Lemma byteAt_bounds data offset : 0 <= byteAt data offset < 256.
Proof.
  unfold byteAt. destruct (data !! Z.to_nat offset); [apply byteVal_bounds|lia].
Qed.

Lemma readUInt8_Ret data offset v :
  readUInt8 data offset = Ret v <->
  0 <= offset /\ offset < bufLen data /\ v = byteAt data offset.
Proof.
  unfold readUInt8.
  destruct (Z.leb_spec 0 offset), (Z.leb_spec (offset + 1) (bufLen data)); cbn;
    (split; [intros [= <-]; repeat split; lia | intros (? & ? & ->); (reflexivity || lia)]).
Qed.

Lemma readUInt32LE_Ret data offset v :
  readUInt32LE data offset = Ret v ->
  0 <= offset /\ offset + 4 <= bufLen data /\ 0 <= v < 2 ^ 32.
Proof.
  unfold readUInt32LE.
  destruct (Z.leb_spec 0 offset), (Z.leb_spec (offset + 4) (bufLen data)); cbn;
    try discriminate.
  intros [= <-].
  pose proof (byteAt_bounds data offset).
  pose proof (byteAt_bounds data (offset + 1)).
  pose proof (byteAt_bounds data (offset + 2)).
  pose proof (byteAt_bounds data (offset + 3)).
  lia.
Qed.

Lemma readUInt32LE_in_range data offset :
  0 <= offset -> offset + 4 <= bufLen data ->
  exists v, readUInt32LE data offset = Ret v.
Proof.
  intros H1 H2. unfold readUInt32LE.
  destruct (Z.leb_spec 0 offset), (Z.leb_spec (offset + 4) (bufLen data)); try lia.
  cbn. eauto.
Qed.

Lemma readUInt8_zero data offset :
  readUInt8 data offset = Ret 0 <->
  0 <= offset /\ data !! Z.to_nat offset = Some Init.Byte.x00.
Proof.
  rewrite readUInt8_Ret. unfold byteAt, bufLen. split.
  - intros (H0 & Hlt & Hv). split; [lia|].
    destruct (data !! Z.to_nat offset) as [b|] eqn:Hb.
    + symmetry in Hv. apply byteVal_zero in Hv. now subst.
    + apply lookup_ge_None in Hb. lia.
  - intros (H0 & Hb). rewrite Hb. split; [lia|]. split; [|reflexivity].
    apply lookup_lt_Some in Hb. lia.
Qed.

(** [statusIsPending] never throws: each read is guarded by a length
    check. It answers [true] exactly for a request discriminator followed,
    behind the callback data and the slot, by a zero status octet. *)
Lemma statusIsPending_spec data :
  exists pending,
    statusIsPending data = Ret pending
    /\ (pending = true <->
        slice data 0 8 = requestDiscriminator
        /\ exists len,
             readUInt32LE data 104 = Ret len
             /\ readUInt8 data (8 + 32 + 32 + 32 + 4 + len + 8) = Ret 0).
Proof.
  unfold statusIsPending.
  change (8 + 32 + 32 + 32 + 4) with 108. change (8 + 32 + 32 + 32) with 104.
  destruct (String.eqb (toHex (slice data 0 8)) requestDiscriminatorHex) eqn:Htag; cbn.
  2:{ exists false. split; [reflexivity|]. split; [discriminate|].
      intros (Hd & _). apply discriminator_eqb in Hd. congruence. }
  apply discriminator_eqb in Htag.
  destruct (Z.leb_spec (bufLen data) 108) as [Hshort|Hlong].
  { exists false. split; [reflexivity|]. split; [discriminate|].
    intros (_ & len & Hlen & H8). apply readUInt32LE_Ret in Hlen.
    apply readUInt8_Ret in H8. lia. }
  destruct (readUInt32LE_in_range data 104) as [len Hlen]; [lia|lia|].
  pose proof (readUInt32LE_Ret _ _ _ Hlen) as (_ & _ & Hrange).
  rewrite Hlen. cbn.
  replace (104 + (4 + len) + 8) with (108 + len + 8) by lia.
  destruct (Z.leb_spec (bufLen data) (108 + len + 8)) as [Hs|Hs].
  { exists false. split; [reflexivity|]. split; [discriminate|].
    intros (_ & len' & [= <-] & H8). apply readUInt8_Ret in H8. lia. }
  destruct (readUInt8 data (108 + len + 8)) as [status|e] eqn:Hst.
  2:{ unfold readUInt8 in Hst.
      destruct (Z.leb_spec 0 (108 + len + 8)),
        (Z.leb_spec (108 + len + 8 + 1) (bufLen data));
        cbn in Hst; try discriminate; lia. }
  cbn. destruct (Z.eqb_spec status 0) as [->|Hne]; cbn.
  - exists true. split; [reflexivity|]. split; [|reflexivity].
    intros _. split; [assumption|]. exists len. split; [reflexivity|exact Hst].
  - exists false. split; [reflexivity|]. split; [discriminate|].
    intros (_ & len' & [= <-] & H8). congruence.
Qed.

Lemma pendingByData_true data :
  pendingByData data = true <->
  slice data 0 8 = requestDiscriminator
  /\ exists len,
       readUInt32LE data 104 = Ret len
       /\ readUInt8 data (8 + 32 + 32 + 32 + 4 + len + 8) = Ret 0.
Proof.
  destruct (statusIsPending_spec data) as (pending & Hrun & Hiff).
  unfold pendingByData. rewrite Hrun. exact Hiff.
Qed.

(** ** Scanning the program accounts *)

Lemma checkAccount_run env account pendingRequests w :
  checkAccount env account pendingRequests w
  = if (bufLen (data account) <? 32)
       || negb (String.eqb (toHex (slice (data account) 0 8)) requestDiscriminatorHex)
    then (Ret pendingRequests, w)
    else match isRequestPending env account w with
         | (Ret true, w') => (Ret (pendingRequests ++ [account]), w')
         | (_, w') => (Ret pendingRequests, w')
         end.
Proof.
  unfold checkAccount, tryCatch, bind, ret.
  destruct (bufLen (data account) <? 32); [reflexivity|]. cbn.
  destruct (String.eqb _ _); [|reflexivity]. cbn.
  destruct (isRequestPending env account w) as [[[|]|e] w']; reflexivity.
Qed.

Lemma checkAccount_returns env account pendingRequests w :
  exists result w', checkAccount env account pendingRequests w = (Ret result, w').
Proof.
  rewrite checkAccount_run. destruct (_ || _); [eauto|].
  destruct (isRequestPending env account w) as [[[|]|e] w']; eauto.
Qed.

(** The scan never throws, whatever the accounts hold. *)
Lemma scanAccounts_returns env accounts :
  forall pendingRequests w,
    exists result w', scanAccounts env accounts pendingRequests w = (Ret result, w').
Proof.
  induction accounts as [|account rest IH]; intros pendingRequests w; cbn.
  - unfold ret. eauto.
  - destruct (checkAccount_returns env account pendingRequests w) as (r & w1 & Hc).
    rewrite (bind_Ret _ _ _ _ _ Hc). apply IH.
Qed.

Lemma obind_Ret {A B} (o : outcome A) (k : A -> outcome B) b :
  obind o k = Ret b <-> exists a, o = Ret a /\ k a = Ret b.
Proof.
  destruct o as [a|e]; cbn; split.
  - eauto.
  - now intros (a' & [= <-] & H).
  - discriminate.
  - now intros (a' & [=] & _).
Qed.

(** The fields [parseRequest] returns, at their offsets from the start of
    the account data; [status] is the offset of the status octet. *)
Lemma parseRequest_spec data request :
  parseRequest data = Ret request <->
  exists len poolId requestIndex,
    readUInt32LE data 104 = Ret len
    /\ readUInt8 data (8 + 32 + 32 + 32 + 4 + len + 8 + 1 + 4 + 8) = Ret poolId
    /\ readUInt32LE data (8 + 32 + 32 + 32 + 4 + len + 8 + 1 + 4 + 8 + 1) = Ret requestIndex
    /\ request
       = {| Request.subscription := slice data 8 40;
            Request.seed := slice data 40 72;
            Request.requester := slice data 72 104;
            Request.callbackDataLength := len;
            Request.poolId := poolId;
            Request.requestIndex := requestIndex;
            Request.requestId :=
              slice data (8 + 32 + 32 + 32 + 4 + len + 8 + 1 + 4 + 8 + 1 + 4)
                (8 + 32 + 32 + 32 + 4 + len + 8 + 1 + 4 + 8 + 1 + 4 + 32) |}.
Proof.
  unfold parseRequest.
  change (8 + 32 + 32 + 32 + 4) with 108. change (8 + 32 + 32 + 32) with 104.
  change (8 + 32 + 32) with 72. change (8 + 32) with 40.
  rewrite obind_Ret. split.
  - intros (len & Hlen & H). exists len.
    apply obind_Ret in H as (poolId & Hpool & H). exists poolId.
    apply obind_Ret in H as (requestIndex & Hidx & H). exists requestIndex.
    injection H as <-.
    replace (108 + len + 8 + 1 + 4 + 8) with (104 + (4 + len) + 8 + 1 + 4 + 8) by lia.
    repeat split; assumption.
  - intros (len & poolId & requestIndex & Hlen & Hpool & Hidx & ->).
    exists len. split; [assumption|].
    replace (104 + (4 + len) + 8 + 1 + 4 + 8) with (108 + len + 8 + 1 + 4 + 8) by lia.
    rewrite Hpool. cbn. rewrite Hidx. cbn. reflexivity.
Qed.

(** C5. For account data that starts with the request discriminator, the
    scan keeps the account (when no recent entry hides it) exactly when
    the octet at offset 8+32+32+32 + 4 + callbackDataLen + 8 is 0, where
    callbackDataLen is the little-endian u32 at offset 104; and the
    pipeline reads poolId, requestIndex and requestId at the offsets that
    follow status (1), numWords (4) and callbackGasLimit (8). *)
Theorem request_layout_offsets raw :
  slice raw 0 8 = requestDiscriminator ->
  (forall env pubkeyStr pendingRequests w,
     processedRequests w !! pubkeyStr = None ->
     exists pending : bool,
       checkAccount env {| pubkey := pubkeyStr; data := raw |} pendingRequests w
       = (Ret (if pending
               then pendingRequests ++ [{| pubkey := pubkeyStr; data := raw |}]
               else pendingRequests), w)
       /\ (pending = true <->
           exists len,
             readUInt32LE raw 104 = Ret len
             /\ readUInt8 raw (8 + 32 + 32 + 32 + 4 + len + 8) = Ret 0))
  /\ (forall request,
        parseRequest raw = Ret request <->
        exists len poolId requestIndex,
          readUInt32LE raw 104 = Ret len
          /\ readUInt8 raw (8 + 32 + 32 + 32 + 4 + len + 8 + 1 + 4 + 8) = Ret poolId
          /\ readUInt32LE raw (8 + 32 + 32 + 32 + 4 + len + 8 + 1 + 4 + 8 + 1)
             = Ret requestIndex
          /\ request
             = {| Request.subscription := slice raw 8 40;
                  Request.seed := slice raw 40 72;
                  Request.requester := slice raw 72 104;
                  Request.callbackDataLength := len;
                  Request.poolId := poolId;
                  Request.requestIndex := requestIndex;
                  Request.requestId :=
                    slice raw (8 + 32 + 32 + 32 + 4 + len + 8 + 1 + 4 + 8 + 1 + 4)
                      (8 + 32 + 32 + 32 + 4 + len + 8 + 1 + 4 + 8 + 1 + 4 + 32) |}).
Proof.
  intros Htag. split; [|apply parseRequest_spec].
  intros env pubkeyStr pendingRequests w Hfresh.
  exists (pendingByData raw). split.
  - rewrite checkAccount_run, isRequestPending_run. cbn [pubkey data].
    rewrite Hfresh.
    apply discriminator_eqb in Htag as Heqb. rewrite Heqb. cbn [negb].
    rewrite orb_false_r.
    destruct (Z.ltb_spec (bufLen raw) 32) as [Hshort|Hlong].
    + assert (pendingByData raw = false) as ->; [|reflexivity].
      destruct (pendingByData raw) eqn:Hp; [|reflexivity].
      apply pendingByData_true in Hp as (_ & len & Hlen & _).
      apply readUInt32LE_Ret in Hlen. lia.
    + destruct (pendingByData raw); reflexivity.
  - rewrite pendingByData_true. split; [now intros (_ & H)|now split].
Qed.

(** A record that cannot hold a status octet, or that carries another
    discriminator, is not pending by its data. *)
Lemma malformed_not_pending data :
  bufLen data < 8 + 32 + 32 + 32 + 4 + 8 + 1
  \/ slice data 0 8 <> requestDiscriminator
  \/ (exists len,
        readUInt32LE data 104 = Ret len
        /\ bufLen data <= 8 + 32 + 32 + 32 + 4 + len + 8) ->
  pendingByData data = false.
Proof.
  intros Hbad. destruct (pendingByData data) eqn:Hp; [|reflexivity].
  apply pendingByData_true in Hp as (Htag & len & Hlen & Hst).
  apply readUInt8_Ret in Hst.
  pose proof (readUInt32LE_Ret _ _ _ Hlen) as (_ & _ & Hrange).
  destruct Hbad as [Hshort|[Hne|(len' & Hlen' & Hpast)]].
  - lia.
  - contradiction.
  - rewrite Hlen in Hlen'. injection Hlen' as <-. lia.
Qed.

Lemma isRequestPending_frame env account w :
  stats (snd (isRequestPending env account w)) = stats w
  /\ events (snd (isRequestPending env account w)) = events w
  /\ isRunning (snd (isRequestPending env account w)) = isRunning w.
Proof.
  rewrite isRequestPending_run.
  destruct (processedRequests w !! pubkey account) as [info|]; [|now repeat split].
  destruct (_ <? _); now repeat split.
Qed.

(** C6, as amended. A record shorter than the 117 octets a request needs
    up to its status, a record with another discriminator, and a record
    whose declared callback-data length puts the status octet at or past
    the end of the buffer are never added to the pending list; checking
    one neither throws nor touches the counters or emits an event, and
    the scan goes on with the remaining accounts and returns. *)
Theorem malformed_record_skipped env account rest pendingRequests w :
  bufLen (data account) < 8 + 32 + 32 + 32 + 4 + 8 + 1
  \/ slice (data account) 0 8 <> requestDiscriminator
  \/ (exists len,
        readUInt32LE (data account) 104 = Ret len
        /\ bufLen (data account) <= 8 + 32 + 32 + 32 + 4 + len + 8) ->
  exists w',
    checkAccount env account pendingRequests w = (Ret pendingRequests, w')
    /\ scanAccounts env (account :: rest) pendingRequests w
       = scanAccounts env rest pendingRequests w'
    /\ stats w' = stats w /\ events w' = events w /\ isRunning w' = isRunning w
    /\ exists result w'',
         scanAccounts env (account :: rest) pendingRequests w = (Ret result, w'').
Proof.
  intros Hbad. apply malformed_not_pending in Hbad.
  assert (exists w',
             checkAccount env account pendingRequests w = (Ret pendingRequests, w')
             /\ stats w' = stats w /\ events w' = events w
             /\ isRunning w' = isRunning w) as (w' & Hcheck & Hframe).
  { rewrite checkAccount_run. destruct (_ || _); [now exists w|].
    pose proof (isRequestPending_frame env account w) as Hf.
    rewrite isRequestPending_run in *. rewrite Hbad in *.
    destruct (processedRequests w !! pubkey account) as [info|].
    - destruct (_ <? _); eexists; (split; [reflexivity|exact Hf]).
    - eexists; (split; [reflexivity|exact Hf]). }
  exists w'. split; [exact Hcheck|].
  assert (scanAccounts env (account :: rest) pendingRequests w
          = scanAccounts env rest pendingRequests w') as Hscan.
  { cbn [scanAccounts]. now rewrite (bind_Ret _ _ _ _ _ Hcheck). }
  split; [exact Hscan|].
  destruct Hframe as (? & ? & ?). repeat (split; [assumption|]).
  rewrite Hscan. apply scanAccounts_returns.
Qed.

(** The amended C6 at a record of 20 octets followed by a complete
    request: the short record is dropped and the request is kept. *)
Lemma malformed_record_skipped_witness :
  bufLen (data shortAccount) < 8 + 32 + 32 + 32 + 4 + 8 + 1
  /\ exists w',
       checkAccount (sampleEnv accepted None None) shortAccount [] freshWorld
       = (Ret [], w')
       /\ scanAccounts (sampleEnv accepted None None)
            [shortAccount; sampleAccount] [] freshWorld
          = scanAccounts (sampleEnv accepted None None) [sampleAccount] [] w'
       /\ stats w' = stats freshWorld /\ events w' = events freshWorld
       /\ isRunning w' = isRunning freshWorld
       /\ exists result w'',
            scanAccounts (sampleEnv accepted None None)
              [shortAccount; sampleAccount] [] freshWorld
            = (Ret result, w'').
Proof.
  split; [reflexivity|].
  apply (malformed_record_skipped (sampleEnv accepted None None)
           shortAccount [sampleAccount] [] freshWorld).
  left. reflexivity.
Defined.

(** C6 as stated fails: [truncatedAccount] declares 16 octets of callback
    data, which puts its request id at octets 151 to 182 of a buffer of
    169, yet the scan puts the account in the pending list, and the
    pipeline reads a request id of 19 octets from it. *)
Lemma truncated_record_classified_pending :
  bufLen (data truncatedAccount) = 169
  /\ readUInt32LE (data truncatedAccount) 104 = Ret 16
  /\ bufLen (data truncatedAccount)
     < 8 + 32 + 32 + 32 + 4 + 16 + 8 + 1 + 4 + 8 + 1 + 4 + 32
  /\ scanAccounts (sampleEnv accepted None None) [truncatedAccount] [] freshWorld
     = (Ret [truncatedAccount], freshWorld)
  /\ (exists request,
        parseRequest (data truncatedAccount) = Ret request
        /\ bufLen (Request.requestId request) = 19).
Proof.
  repeat split; try reflexivity.
  eexists. split; [vm_compute; reflexivity|reflexivity].
Qed.

(** C4 at an entry written at time 0, read at 700 s (stale: removed and
    eligible again). *)
Lemma eligibility_window_witness :
  statusIsPending (data sampleAccount) = Ret true
  /\ isRequestPending (sampleEnv ExecTimeout None None) sampleAccount
       (setCalls 700 (worldWithEntry 0))
     = (Ret true,
        setProcessedRequests
          (delete (pubkey sampleAccount) (processedRequests (setCalls 700 (worldWithEntry 0))))
          (advance 1 (setCalls 700 (worldWithEntry 0)))).
Proof.
  split; [reflexivity|].
  refine (proj1 (proj2 (proj2
    (eligibility_window (sampleEnv ExecTimeout None None) sampleAccount
       (setCalls 700 (worldWithEntry 0)) eq_refl))) _ _ _).
  - reflexivity.
  - vm_compute. discriminate.
Defined.

(** C5 at the sample request: the status octet sits at offset 126. *)
Lemma request_layout_offsets_witness :
  slice (data sampleAccount) 0 8 = requestDiscriminator
  /\ exists request,
       parseRequest (data sampleAccount) = Ret request
       /\ Request.poolId request = 5
       /\ Request.requestIndex request = 7
       /\ Request.requestId request = replicate 32 Init.Byte.x99.
Proof.
  split; [reflexivity|].
  eexists. split.
  - apply (proj2 (request_layout_offsets (data sampleAccount) eq_refl)).
    exists 2, 5, 7. split; [reflexivity|]. split; [reflexivity|].
    split; reflexivity.
  - repeat split.
Defined.

(** ** Writing the fulfillment payload *)

(** Copying into the zero-filled tail of a buffer that is written front
    to back. *)
Lemma copy_into_tail (source written : Buffer) (k : nat) (offset : Z) :
  offset = bufLen written ->
  (length source <= k)%nat ->
  copy source (written ++ replicate k Init.Byte.x00) offset
  = (written ++ source) ++ replicate (k - length source) Init.Byte.x00.
Proof.
  intros -> Hfit. unfold copy, bufLen. rewrite Nat2Z.id.
  rewrite take_app_length.
  rewrite length_app, length_replicate.
  replace (length written + k - length written)%nat with k by lia.
  rewrite Nat.min_l by exact Hfit.
  rewrite firstn_all.
  rewrite drop_app_add', drop_replicate by reflexivity.
  now rewrite <- app_assoc.
Qed.

Lemma writeUInt32LE_into_tail (written : Buffer) (k : nat) (value offset : Z) :
  offset = bufLen written ->
  0 <= value <= 4294967295 ->
  (4 <= k)%nat ->
  writeUInt32LE (written ++ replicate k Init.Byte.x00) value offset
  = Ret ((written ++ le32 value) ++ replicate (k - 4) Init.Byte.x00).
Proof.
  intros Hoff Hv Hk. unfold writeUInt32LE.
  destruct (Z.leb_spec 0 value), (Z.leb_spec value 4294967295); try lia. cbn [andb].
  assert (bufLen (written ++ replicate k Init.Byte.x00) = bufLen written + Z.of_nat k) as Hlen.
  { unfold bufLen. rewrite length_app, length_replicate. lia. }
  rewrite Hlen.
  assert (0 <= bufLen written) by (unfold bufLen; lia).
  destruct (Z.leb_spec 0 offset), (Z.leb_spec (offset + 4) (bufLen written + Z.of_nat k));
    try lia.
  cbn [andb]. f_equal. now apply copy_into_tail.
Qed.

Lemma writeUInt8_into_tail (written : Buffer) (k : nat) (value offset : Z) :
  offset = bufLen written ->
  0 <= value <= 255 ->
  (1 <= k)%nat ->
  writeUInt8 (written ++ replicate k Init.Byte.x00) value offset
  = Ret ((written ++ [octet value]) ++ replicate (k - 1) Init.Byte.x00).
Proof.
  intros Hoff Hv Hk. unfold writeUInt8.
  destruct (Z.leb_spec 0 value), (Z.leb_spec value 255); try lia. cbn [andb].
  assert (bufLen (written ++ replicate k Init.Byte.x00) = bufLen written + Z.of_nat k) as Hlen.
  { unfold bufLen. rewrite length_app, length_replicate. lia. }
  rewrite Hlen.
  assert (0 <= bufLen written) by (unfold bufLen; lia).
  destruct (Z.leb_spec 0 offset), (Z.leb_spec (offset + 1) (bufLen written + Z.of_nat k));
    try lia.
  cbn [andb]. f_equal. now apply copy_into_tail.
Qed.

Lemma bufLen_app (a b : Buffer) : bufLen (a ++ b) = bufLen a + bufLen b.
Proof. unfold bufLen. rewrite length_app. lia. Qed.

Lemma bufLen_le32 v : bufLen (le32 v) = 4.
Proof. reflexivity. Qed.

Lemma bufLen_nonneg (a : Buffer) : 0 <= bufLen a.
Proof. unfold bufLen. lia. Qed.

(** The payload for a request id of at most 32 octets: a shorter id, read
    from an account that ends inside its request id, is followed by the
    zero octets of the freshly allocated buffer. *)
Lemma fulfillData_layout_padded (proofBuffer publicKeyBuffer requestId : Buffer)
    (poolId requestIndex : Z) :
  bufLen proofBuffer <= 4294967295 ->
  bufLen publicKeyBuffer <= 4294967295 ->
  bufLen requestId <= 32 ->
  0 <= poolId <= 255 ->
  0 <= requestIndex <= 4294967295 ->
  encodeFulfillData proofBuffer publicKeyBuffer requestId poolId requestIndex
  = Ret (fulfillDiscriminator
         ++ le32 (bufLen proofBuffer) ++ proofBuffer
         ++ le32 (bufLen publicKeyBuffer) ++ publicKeyBuffer
         ++ (requestId ++ replicate (32 - length requestId) Init.Byte.x00)
         ++ [octet poolId]
         ++ le32 requestIndex).
Proof.
  intros Hproof Hkey Hid Hpool Hindex.
  pose proof (bufLen_nonneg proofBuffer) as Hp0.
  pose proof (bufLen_nonneg publicKeyBuffer) as Hk0.
  unfold encodeFulfillData, alloc.
  set (lp := length proofBuffer). set (lk := length publicKeyBuffer).
  set (li := length requestId).
  assert (Z.to_nat (8 + 4 + bufLen proofBuffer + 4 + bufLen publicKeyBuffer + 32 + 1 + 4)
          = (8 + (4 + (lp + (4 + (lk + (32 + (1 + 4)))))))%nat) as ->.
  { unfold bufLen. subst lp lk. lia. }
  assert (li <= 32)%nat as Hid' by (unfold bufLen in Hid; subst li; lia).
  (* discriminator *)
  pose proof (copy_into_tail fulfillDiscriminator []
                (8 + (4 + (lp + (4 + (lk + (32 + (1 + 4))))))) 0 eq_refl) as Hd.
  cbn [app] in Hd. rewrite Hd by (cbn; lia). clear Hd.
  change (length fulfillDiscriminator) with 8%nat.
  replace (8 + (4 + (lp + (4 + (lk + (32 + (1 + 4)))))) - 8)%nat
    with (4 + (lp + (4 + (lk + (32 + (1 + 4))))))%nat by lia.
  (* proof *)
  rewrite writeUInt32LE_into_tail by (reflexivity || lia). cbn [obind].
  replace (4 + (lp + (4 + (lk + (32 + (1 + 4))))) - 4)%nat
    with (lp + (4 + (lk + (32 + (1 + 4)))))%nat by lia.
  rewrite copy_into_tail by (reflexivity || (subst lp; lia)).
  replace (lp + (4 + (lk + (32 + (1 + 4)))) - length proofBuffer)%nat
    with (4 + (lk + (32 + (1 + 4))))%nat by (subst lp; lia).
  (* public key *)
  rewrite writeUInt32LE_into_tail;
    [|rewrite !bufLen_app, bufLen_le32; reflexivity|lia|lia].
  cbn [obind].
  replace (4 + (lk + (32 + (1 + 4))) - 4)%nat with (lk + (32 + (1 + 4)))%nat by lia.
  rewrite copy_into_tail;
    [|rewrite !bufLen_app, !bufLen_le32; reflexivity|subst lk; lia].
  replace (lk + (32 + (1 + 4)) - length publicKeyBuffer)%nat with (32 + (1 + 4))%nat
    by (subst lk; lia).
  (* request id, then the zero octets up to the pool id *)
  rewrite copy_into_tail;
    [|rewrite !bufLen_app, !bufLen_le32; reflexivity|subst li; lia].
  replace (32 + (1 + 4) - length requestId)%nat with ((32 - li) + (1 + 4))%nat
    by (subst li; lia).
  rewrite replicate_add, (app_assoc _ (replicate (32 - li) _)).
  (* pool id *)
  rewrite writeUInt8_into_tail;
    [|rewrite !bufLen_app, !bufLen_le32; change (bufLen fulfillDiscriminator) with 8;
      unfold bufLen in *; rewrite length_replicate; subst lp lk li; lia|lia|lia].
  cbn [obind]. replace (1 + 4 - 1)%nat with 4%nat by lia.
  (* request index *)
  rewrite writeUInt32LE_into_tail;
    [|rewrite !bufLen_app, !bufLen_le32; change (bufLen fulfillDiscriminator) with 8;
      unfold bufLen in *; rewrite length_replicate; cbn [length]; subst lp lk li; lia
     |lia|lia].
  cbn [replicate Nat.sub]. rewrite app_nil_r.
  f_equal. now rewrite <- !app_assoc.
Qed.

(** C7. For a proof and a public key whose lengths fit a u32 (as every
    Buffer built from a JavaScript string does), a 32-octet request id, a
    pool id that is one octet and a request index that is a u32, the
    instruction data is exactly the discriminator, the little-endian u32
    length and the octets of the proof, the same for the public key, the
    request id, the pool id and the little-endian u32 request index, in
    this order and with nothing between them; its size is
    8 + 4+len(proof) + 4+len(publicKey) + 32 + 1 + 4. *)
Theorem fulfillData_layout (proofBuffer publicKeyBuffer requestId : Buffer)
    (poolId requestIndex : Z) :
  bufLen proofBuffer <= 4294967295 ->
  bufLen publicKeyBuffer <= 4294967295 ->
  bufLen requestId = 32 ->
  0 <= poolId <= 255 ->
  0 <= requestIndex <= 4294967295 ->
  encodeFulfillData proofBuffer publicKeyBuffer requestId poolId requestIndex
  = Ret (fulfillDiscriminator
         ++ le32 (bufLen proofBuffer) ++ proofBuffer
         ++ le32 (bufLen publicKeyBuffer) ++ publicKeyBuffer
         ++ requestId
         ++ [octet poolId]
         ++ le32 requestIndex)
  /\ bufLen (fulfillDiscriminator
             ++ le32 (bufLen proofBuffer) ++ proofBuffer
             ++ le32 (bufLen publicKeyBuffer) ++ publicKeyBuffer
             ++ requestId
             ++ [octet poolId]
             ++ le32 requestIndex)
     = 8 + (4 + bufLen proofBuffer) + (4 + bufLen publicKeyBuffer) + 32 + 1 + 4.
Proof.
  intros Hproof Hkey Hid Hpool Hindex. split.
  - rewrite fulfillData_layout_padded by (assumption || lia).
    assert (length requestId = 32%nat) as -> by (unfold bufLen in Hid; lia).
    cbn [Nat.sub replicate]. now rewrite app_nil_r.
  - rewrite !bufLen_app, !bufLen_le32, Hid. change (bufLen fulfillDiscriminator) with 8.
    change (bufLen [octet poolId]) with 1. lia.
Qed.

(** C7 at a three-octet proof and a two-octet key. *)
Lemma fulfillData_layout_witness :
  bufLen (fromHex "0a0b0c") <= 4294967295
  /\ bufLen (fromHex "0102") <= 4294967295
  /\ bufLen (replicate 32 Init.Byte.x99) = 32
  /\ 0 <= 5 <= 255
  /\ 0 <= 7 <= 4294967295
  /\ encodeFulfillData (fromHex "0a0b0c") (fromHex "0102") (replicate 32 Init.Byte.x99) 5 7
     = Ret (fulfillDiscriminator
            ++ le32 3 ++ fromHex "0a0b0c"
            ++ le32 2 ++ fromHex "0102"
            ++ replicate 32 Init.Byte.x99
            ++ [octet 5]
            ++ le32 7).
Proof.
  assert (bufLen (fromHex "0a0b0c") <= 4294967295) as H1 by (vm_compute; discriminate).
  assert (bufLen (fromHex "0102") <= 4294967295) as H2 by (vm_compute; discriminate).
  assert (0 <= 5 <= 255) as H3 by lia.
  assert (0 <= 7 <= 4294967295) as H4 by lia.
  repeat (split; [assumption || reflexivity|]).
  exact (proj1 (fulfillData_layout (fromHex "0a0b0c") (fromHex "0102")
                  (replicate 32 Init.Byte.x99) 5 7 H1 H2 eq_refl H3 H4)).
Defined.

(** The payload built for the account that ends inside its request id:
    the 19 octets read are followed by 13 zero octets. *)
Example truncated_request_id_is_zero_padded :
  exists request,
    parseRequest (data truncatedAccount) = Ret request
    /\ encodeFulfillData (fromHex "0a0b0c") (fromHex "0102") (Request.requestId request)
         (Request.poolId request) (Request.requestIndex request)
       = Ret (fulfillDiscriminator
              ++ le32 3 ++ fromHex "0a0b0c"
              ++ le32 2 ++ fromHex "0102"
              ++ (replicate 19 Init.Byte.x99 ++ replicate 13 Init.Byte.x00)
              ++ [octet 5]
              ++ le32 7).
Proof. eexists. split; [vm_compute; reflexivity|reflexivity]. Qed.

Lemma byteVal_octet v : byteVal (octet v) = v mod 256.
Proof.
  unfold octet, byteVal.
  pose proof (Z.mod_pos_bound v 256 ltac:(lia)) as Hb.
  destruct (Byte.of_N (Z.to_N (v mod 256))) as [b|] eqn:Hof.
  - apply Byte.to_of_N in Hof. rewrite Hof. lia.
  - apply Byte.of_N_None_iff in Hof. lia.
Qed.

(** [le32] and [readUInt32LE] agree: what is written as a u32 is read
    back, wherever it sits in a buffer. *)
Lemma readUInt32LE_le32 (before after : Buffer) v :
  0 <= v <= 4294967295 ->
  readUInt32LE (before ++ le32 v ++ after) (bufLen before) = Ret v.
Proof.
  intros Hv. unfold readUInt32LE.
  pose proof (bufLen_nonneg before). pose proof (bufLen_nonneg after).
  rewrite !bufLen_app, bufLen_le32.
  destruct (Z.leb_spec 0 (bufLen before)),
    (Z.leb_spec (bufLen before + 4) (bufLen before + (4 + bufLen after))); try lia.
  cbn [andb]. f_equal.
  assert (forall i b, (le32 v ++ after) !! i = Some b ->
            byteAt (before ++ le32 v ++ after) (bufLen before + Z.of_nat i) = byteVal b)
    as Hat.
  { intros i b Hi. unfold byteAt, bufLen.
    replace (Z.to_nat (Z.of_nat (length before) + Z.of_nat i))
      with (length before + i)%nat by lia.
    now rewrite lookup_app_r, Nat.add_sub', Hi by lia. }
  pose proof (Hat 0%nat _ eq_refl) as Hb0. rewrite Z.add_0_r in Hb0.
  pose proof (Hat 1%nat _ eq_refl) as Hb1.
  pose proof (Hat 2%nat _ eq_refl) as Hb2.
  pose proof (Hat 3%nat _ eq_refl) as Hb3.
  change (Z.of_nat 1) with 1 in Hb1. change (Z.of_nat 2) with 2 in Hb2.
  change (Z.of_nat 3) with 3 in Hb3.
  rewrite Hb0, Hb1, Hb2, Hb3, !byteVal_octet.
  change (2 ^ 8) with 256. change (2 ^ 16) with (256 * 256).
  change (2 ^ 24) with (256 * 256 * 256).
  rewrite (Z.mod_small (v / (256 * 256 * 256)) 256)
    by (split; [apply Z.div_pos; lia|apply Z.div_lt_upper_bound; lia]).
  rewrite <- !Z.div_div by lia.
  pose proof (Z.div_mod v 256 ltac:(lia)).
  pose proof (Z.div_mod (v / 256) 256 ltac:(lia)).
  pose proof (Z.div_mod (v / 256 / 256) 256 ltac:(lia)).
  lia.
Qed.

Lemma slice_segment (before mid after : Buffer) :
  slice (before ++ mid ++ after) (bufLen before) (bufLen before + bufLen mid) = mid.
Proof.
  unfold slice. rewrite !bufLen_app.
  pose proof (bufLen_nonneg before). pose proof (bufLen_nonneg mid).
  pose proof (bufLen_nonneg after).
  rewrite (Z.max_l (bufLen before)), (Z.max_l (bufLen before + bufLen mid)) by lia.
  rewrite !Z.min_l by lia.
  destruct (Z.ltb_spec (bufLen before) (bufLen before + bufLen mid)) as [Hlt|Hge].
  - unfold bufLen. rewrite Nat2Z.id, drop_app_length.
    replace (Z.to_nat (Z.of_nat (length before) + Z.of_nat (length mid)
                       - Z.of_nat (length before)))
      with (length mid) by lia.
    apply take_app_length.
  - destruct mid; [reflexivity|]. unfold bufLen in Hge. cbn [length] in Hge. exfalso. lia.
Qed.

Lemma readUInt8_segment (before after : Buffer) (b : byte) :
  readUInt8 (before ++ b :: after) (bufLen before) = Ret (byteVal b).
Proof.
  apply readUInt8_Ret. pose proof (bufLen_nonneg before). pose proof (bufLen_nonneg after).
  split; [lia|]. split.
  - rewrite bufLen_app. unfold bufLen. cbn [length]. lia.
  - unfold byteAt, bufLen. rewrite Nat2Z.id.
    now rewrite lookup_app_r, Nat.sub_diag by lia.
Qed.

(** Decoding a laid-out request gives its fields back: the scan reads the
    status octet and the pipeline reads subscription, seed, requester,
    pool id, request index and request id, whatever follows the request
    id in the account. *)
Lemma decode_requestLayout subscription seed requester callbackData requestSlot status
    numWords callbackGasLimit poolId requestIndex requestId rest :
  bufLen subscription = 32 -> bufLen seed = 32 -> bufLen requester = 32 ->
  bufLen callbackData <= 4294967295 ->
  bufLen requestSlot = 8 -> bufLen numWords = 4 -> bufLen callbackGasLimit = 8 ->
  0 <= requestIndex <= 4294967295 ->
  bufLen requestId = 32 ->
  statusIsPending
    (requestLayout subscription seed requester callbackData requestSlot status numWords
       callbackGasLimit poolId requestIndex requestId ++ rest)
  = Ret (byteVal status =? 0)
  /\ parseRequest
       (requestLayout subscription seed requester callbackData requestSlot status numWords
          callbackGasLimit poolId requestIndex requestId ++ rest)
     = Ret {| Request.subscription := subscription;
              Request.seed := seed;
              Request.requester := requester;
              Request.callbackDataLength := bufLen callbackData;
              Request.poolId := byteVal poolId;
              Request.requestIndex := requestIndex;
              Request.requestId := requestId |}.
Proof.
  intros Hsub Hseed Hreq Hcb Hslot Hwords Hgas Hidx Hid.
  set (record := requestLayout _ _ _ _ _ _ _ _ _ _ _ ++ rest).
  pose proof (bufLen_nonneg callbackData) as Hcb0.
  assert (slice record 0 8 = requestDiscriminator) as Htag.
  { exact (slice_segment [] requestDiscriminator _). }
  assert (slice record 8 40 = subscription) as Hs1.
  { subst record. unfold requestLayout. rewrite <- !app_assoc.
    pose proof (slice_segment requestDiscriminator subscription
                  (seed ++ requester ++ le32 (bufLen callbackData) ++ callbackData
                   ++ requestSlot ++ [status] ++ numWords ++ callbackGasLimit
                   ++ [poolId] ++ le32 requestIndex ++ requestId ++ rest)) as H.
    rewrite Hsub in H. exact H. }
  assert (slice record 40 72 = seed) as Hs2.
  { subst record. unfold requestLayout. rewrite <- !app_assoc.
    pose proof (slice_segment (requestDiscriminator ++ subscription) seed
                  (requester ++ le32 (bufLen callbackData) ++ callbackData
                   ++ requestSlot ++ [status] ++ numWords ++ callbackGasLimit
                   ++ [poolId] ++ le32 requestIndex ++ requestId ++ rest)) as H.
    rewrite bufLen_app, Hsub, Hseed, <- !app_assoc in H. exact H. }
  assert (slice record 72 104 = requester) as Hs3.
  { subst record. unfold requestLayout. rewrite <- !app_assoc.
    pose proof (slice_segment (requestDiscriminator ++ subscription ++ seed) requester
                  (le32 (bufLen callbackData) ++ callbackData
                   ++ requestSlot ++ [status] ++ numWords ++ callbackGasLimit
                   ++ [poolId] ++ le32 requestIndex ++ requestId ++ rest)) as H.
    rewrite !bufLen_app, Hsub, Hseed, Hreq, <- !app_assoc in H. exact H. }
  assert (readUInt32LE record 104 = Ret (bufLen callbackData)) as Hlen.
  { subst record. unfold requestLayout. rewrite <- !app_assoc.
    pose proof (readUInt32LE_le32
                  (requestDiscriminator ++ subscription ++ seed ++ requester)
                  (callbackData ++ requestSlot ++ [status] ++ numWords ++ callbackGasLimit
                   ++ [poolId] ++ le32 requestIndex ++ requestId ++ rest)
                  (bufLen callbackData) ltac:(lia)) as H.
    rewrite !bufLen_app, Hsub, Hseed, Hreq, <- !app_assoc in H. exact H. }
  assert (readUInt8 record (8 + 32 + 32 + 32 + 4 + bufLen callbackData + 8)
          = Ret (byteVal status)) as Hstatus.
  { subst record. unfold requestLayout. rewrite <- !app_assoc.
    pose proof (readUInt8_segment
                  (requestDiscriminator ++ subscription ++ seed ++ requester
                   ++ le32 (bufLen callbackData) ++ callbackData ++ requestSlot)
                  (numWords ++ callbackGasLimit
                   ++ [poolId] ++ le32 requestIndex ++ requestId ++ rest) status) as H.
    rewrite !bufLen_app, bufLen_le32, Hsub, Hseed, Hreq, Hslot, <- !app_assoc in H.
    cbn [app] in H |- *.
    replace (8 + 32 + 32 + 32 + 4 + bufLen callbackData + 8)
      with (bufLen requestDiscriminator + (32 + (32 + (32 + (4 + (bufLen callbackData + 8))))))
      by (change (bufLen requestDiscriminator) with 8; lia).
    exact H. }
  assert (readUInt8 record (8 + 32 + 32 + 32 + 4 + bufLen callbackData + 8 + 1 + 4 + 8)
          = Ret (byteVal poolId)) as Hpool.
  { subst record. unfold requestLayout. rewrite <- !app_assoc.
    pose proof (readUInt8_segment
                  (requestDiscriminator ++ subscription ++ seed ++ requester
                   ++ le32 (bufLen callbackData) ++ callbackData ++ requestSlot
                   ++ [status] ++ numWords ++ callbackGasLimit)
                  (le32 requestIndex ++ requestId ++ rest) poolId) as H.
    rewrite !bufLen_app, bufLen_le32, Hsub, Hseed, Hreq, Hslot, Hwords, Hgas,
      <- !app_assoc in H.
    change (bufLen [status]) with 1 in H. cbn [app] in H |- *.
    replace (8 + 32 + 32 + 32 + 4 + bufLen callbackData + 8 + 1 + 4 + 8)
      with (bufLen requestDiscriminator
            + (32 + (32 + (32 + (4 + (bufLen callbackData + (8 + (1 + (4 + 8)))))))))
      by (change (bufLen requestDiscriminator) with 8; lia).
    exact H. }
  assert (readUInt32LE record (8 + 32 + 32 + 32 + 4 + bufLen callbackData + 8 + 1 + 4 + 8 + 1)
          = Ret requestIndex) as Hindex.
  { subst record. unfold requestLayout. rewrite <- !app_assoc.
    pose proof (readUInt32LE_le32
                  (requestDiscriminator ++ subscription ++ seed ++ requester
                   ++ le32 (bufLen callbackData) ++ callbackData ++ requestSlot
                   ++ [status] ++ numWords ++ callbackGasLimit ++ [poolId])
                  (requestId ++ rest) requestIndex Hidx) as H.
    rewrite !bufLen_app, bufLen_le32, Hsub, Hseed, Hreq, Hslot, Hwords, Hgas,
      <- !app_assoc in H.
    change (bufLen [status]) with 1 in H. change (bufLen [poolId]) with 1 in H.
    replace (8 + 32 + 32 + 32 + 4 + bufLen callbackData + 8 + 1 + 4 + 8 + 1)
      with (bufLen requestDiscriminator
            + (32 + (32 + (32 + (4 + (bufLen callbackData + (8 + (1 + (4 + (8 + 1))))))))))
      by (change (bufLen requestDiscriminator) with 8; lia).
    exact H. }
  assert (slice record (8 + 32 + 32 + 32 + 4 + bufLen callbackData + 8 + 1 + 4 + 8 + 1 + 4)
            (8 + 32 + 32 + 32 + 4 + bufLen callbackData + 8 + 1 + 4 + 8 + 1 + 4 + 32)
          = requestId) as Hrid.
  { subst record. unfold requestLayout. rewrite <- !app_assoc.
    pose proof (slice_segment
                  (requestDiscriminator ++ subscription ++ seed ++ requester
                   ++ le32 (bufLen callbackData) ++ callbackData ++ requestSlot
                   ++ [status] ++ numWords ++ callbackGasLimit ++ [poolId]
                   ++ le32 requestIndex)
                  requestId rest) as H.
    rewrite !bufLen_app, !bufLen_le32, Hsub, Hseed, Hreq, Hslot, Hwords, Hgas, Hid,
      <- !app_assoc in H.
    change (bufLen [status]) with 1 in H. change (bufLen [poolId]) with 1 in H.
    change (bufLen requestDiscriminator) with 8 in H.
    replace (8 + 32 + 32 + 32 + 4 + bufLen callbackData + 8 + 1 + 4 + 8 + 1 + 4)
      with (8 + (32 + (32 + (32 + (4 + (bufLen callbackData
                                         + (8 + (1 + (4 + (8 + (1 + 4)))))))))))
      by lia.
    exact H. }
  split.
  - destruct (statusIsPending_spec record) as (pending & Hrun & Hiff).
    rewrite Hrun. f_equal.
    destruct (Z.eqb_spec (byteVal status) 0) as [Hzero|Hnonzero].
    + apply Hiff. split; [exact Htag|]. exists (bufLen callbackData).
      split; [exact Hlen|]. now rewrite Hstatus, Hzero.
    + destruct pending; [|reflexivity].
      destruct (proj1 Hiff eq_refl) as (_ & len & Hlen' & Hst').
      rewrite Hlen in Hlen'. injection Hlen' as <-.
      rewrite Hstatus in Hst'. injection Hst' as Hst'. contradiction.
  - apply parseRequest_spec.
    exists (bufLen callbackData), (byteVal poolId), requestIndex.
    split; [exact Hlen|]. split; [exact Hpool|]. split; [exact Hindex|].
    now rewrite Hs1, Hs2, Hs3, Hrid.
Qed.

(** ** Building and submitting the fulfillment *)

Lemma createFulfillmentInstruction_run cfg env requestAccountPubkey proofResult
    seed requestId poolId requestIndex subscriptionPDA w :
  createFulfillmentInstruction cfg env requestAccountPubkey proofResult seed requestId
    poolId requestIndex subscriptionPDA w
  = match findProgramAddress env
            [SeedBytes (fromText "request_pool"); SeedKey subscriptionPDA;
             SeedBytes [octet poolId]] vrfProgramId with
    | None => (Throw DeriveError, w)
    | Some requestPoolPDA =>
        match findProgramAddress env
                [SeedBytes (fromText "vrf_result");
                 SeedKey (KeyOfText requestAccountPubkey)] vrfProgramId with
        | None => (Throw DeriveError, w)
        | Some vrfResultPDA =>
            match encodeFulfillData (fromHex (ProofResult.proof proofResult))
                    (fromHex (vrfPublicKey cfg)) requestId poolId requestIndex with
            | Throw e => (Throw e, w)
            | Ret fulfillData =>
                (Ret {| keys :=
                          [ metaOf (oraclePublicKey cfg) true true;
                            metaOf (KeyOfText requestAccountPubkey) false true;
                            metaOf vrfResultPDA false true;
                            metaOf requestPoolPDA false true;
                            metaOf subscriptionPDA false true;
                            metaOf systemProgramId false false ];
                        programId := vrfProgramId;
                        instructionData := fulfillData |}, w)
            end
        end
    end.
Proof.
  unfold createFulfillmentInstruction, findProgramAddressM, bind, lift, ret, throw,
    getPublicKey.
  destruct (findProgramAddress env _ _); [|reflexivity].
  destruct (findProgramAddress env _ _); [|reflexivity].
  destruct (encodeFulfillData _ _ _ _ _); reflexivity.
Qed.

Lemma createFulfillmentInstruction_keys cfg env requestAccountPubkey proofResult
    seed requestId poolId requestIndex subscriptionPDA w instruction w' :
  createFulfillmentInstruction cfg env requestAccountPubkey proofResult seed requestId
    poolId requestIndex subscriptionPDA w = (Ret instruction, w') ->
  w' = w
  /\ exists requestPoolPDA vrfResultPDA,
       findProgramAddress env
         [SeedBytes (fromText "request_pool"); SeedKey subscriptionPDA;
          SeedBytes [octet poolId]] vrfProgramId = Some requestPoolPDA
       /\ findProgramAddress env
            [SeedBytes (fromText "vrf_result"); SeedKey (KeyOfText requestAccountPubkey)]
            vrfProgramId = Some vrfResultPDA
       /\ keys instruction
          = fulfillmentKeys cfg requestAccountPubkey vrfResultPDA requestPoolPDA
              subscriptionPDA
       /\ programId instruction = vrfProgramId
       /\ encodeFulfillData (fromHex (ProofResult.proof proofResult))
            (fromHex (vrfPublicKey cfg)) requestId poolId requestIndex
          = Ret (instructionData instruction).
Proof.
  rewrite createFulfillmentInstruction_run.
  destruct (findProgramAddress env _ _) as [requestPoolPDA|]; [|discriminate].
  destruct (findProgramAddress env _ _) as [vrfResultPDA|]; [|discriminate].
  destruct (encodeFulfillData _ _ _ _ _) as [fulfillData|]; [|discriminate].
  intros [= <- <-]. split; [reflexivity|].
  exists requestPoolPDA, vrfResultPDA. repeat split.
Qed.

(** [submitFulfillment] never throws and leaves the map and the counters
    alone; it sends at most one transaction, exactly one when it reports
    success, and a transaction it sends carries the instruction built by
    [createFulfillmentInstruction]. *)
Lemma submitFulfillment_effect cfg env requestAccountPubkey proofResult
    seed requestId poolId requestIndex subscriptionPDA w :
  exists result w',
    submitFulfillment cfg env requestAccountPubkey proofResult seed requestId poolId
      requestIndex subscriptionPDA w = (Ret result, w')
    /\ processedRequests w' = processedRequests w
    /\ stats w' = stats w
    /\ isRunning w' = isRunning w
    /\ ((result = Failure /\ events w' = events w)
        \/ exists transaction,
             events w' = events w ++ [EvSend transaction]
             /\ createFulfillmentInstruction cfg env requestAccountPubkey proofResult seed
                  requestId poolId requestIndex subscriptionPDA w
                = (Ret (instruction transaction), w)).
Proof.
  unfold submitFulfillment, tryCatch. unfold bind at 1.
  destruct (createFulfillmentInstruction cfg env requestAccountPubkey proofResult seed
              requestId poolId requestIndex subscriptionPDA w) as [[instr|e] w1] eqn:Hc.
  2:{ rewrite createFulfillmentInstruction_run in Hc.
      repeat (destruct (findProgramAddress env _ _) in Hc;
              [|injection Hc as <- <-; unfold ret; eauto 10]).
      destruct (encodeFulfillData _ _ _ _ _) in Hc; [discriminate|].
      injection Hc as <- <-. unfold ret. eauto 10. }
  apply createFulfillmentInstruction_keys in Hc as Hk. destruct Hk as [-> _].
  unfold bind, getLatestBlockhash, signAndSerialize, sendRawTransaction,
    confirmTransaction, nextCall, modify, ret, throw.
  cbn.
  destruct (rpcGetLatestBlockhash env (calls w)) as [blockhash|]; cbn; [|eauto 10].
  destruct (serializable env _); cbn; [|eauto 10].
  destruct (rpcSendRawTransaction env _ _) as [signature|]; cbn;
    [|eexists _, _; split; [reflexivity|]; repeat split; right;
      eexists; split; reflexivity].
  destruct (rpcGetLatestBlockhash env _) as [blockhash'|]; cbn;
    [|eexists _, _; split; [reflexivity|]; repeat split; right;
      eexists; split; reflexivity].
  destruct (rpcConfirmTransaction env _ _) as [[err|]|]; cbn;
    eexists _, _; (split; [reflexivity|]); repeat split; right;
    eexists; (split; reflexivity).
Qed.

(** With the instruction built, the first blockhash given and the
    transaction serialized, [submitFulfillment] sends that transaction,
    whatever the cluster answers afterwards. *)
Lemma submitFulfillment_sends cfg env requestAccountPubkey proofResult
    seed requestId poolId requestIndex subscriptionPDA w built blockhash :
  createFulfillmentInstruction cfg env requestAccountPubkey proofResult seed requestId
    poolId requestIndex subscriptionPDA w = (Ret built, w) ->
  rpcGetLatestBlockhash env (calls w) = Some blockhash ->
  serializable env {| instruction := built; recentBlockhash := blockhash;
                      feePayer := oraclePublicKey cfg |} = true ->
  exists result w',
    submitFulfillment cfg env requestAccountPubkey proofResult seed requestId poolId
      requestIndex subscriptionPDA w = (Ret result, w')
    /\ events w'
       = events w ++ [EvSend {| instruction := built; recentBlockhash := blockhash;
                                feePayer := oraclePublicKey cfg |}].
Proof.
  intros Hbuilt Hblockhash Hserial.
  unfold submitFulfillment, tryCatch. unfold bind at 1. rewrite Hbuilt.
  unfold bind, getLatestBlockhash, signAndSerialize, sendRawTransaction,
    confirmTransaction, nextCall, modify, ret, throw.
  cbn. rewrite Hblockhash. cbn. rewrite Hserial. cbn. clear Hblockhash Hserial.
  destruct (rpcSendRawTransaction env _ _) as [signature|]; cbn;
    [|eexists _, _; split; reflexivity].
  destruct (rpcGetLatestBlockhash env _) as [blockhash'|]; cbn;
    [|eexists _, _; split; reflexivity].
  destruct (rpcConfirmTransaction env _ _) as [[err|]|]; cbn;
    eexists _, _; split; reflexivity.
Qed.

Lemma submissions_emit_send w w' transaction :
  events w' = events w ++ [EvSend transaction] -> submissions w' = S (submissions w).
Proof.
  unfold submissions. intros ->. rewrite List.filter_app, length_app. cbn. lia.
Qed.

Lemma submissions_same_events w w' :
  events w' = events w -> submissions w' = submissions w.
Proof. unfold submissions. now intros ->. Qed.

(** ** Processing one request *)

Lemma processRequestAccount_known cfg env account w info :
  processedRequests w !! pubkey account = Some info ->
  processRequestAccount cfg env account w = (Ret false, w).
Proof.
  intros Hget. unfold processRequestAccount, bind, get. now rewrite Hget.
Qed.

(** The run of [processRequestAccount] on a request that is not in the
    map and whose fields can be read. *)
Lemma processRequestAccount_run cfg env account request w :
  processedRequests w !! pubkey account = None ->
  slice (data account) 0 8 = requestDiscriminator ->
  parseRequest (data account) = Ret request ->
  processRequestAccount cfg env account w
  = match cliProve env (calls w) (toHex (Request.seed request)) with
    | None => (Throw CliError, advance 1 w)
    | Some proofResult =>
        match cliExec env (S (calls w))
                (verifyCommand cfg (ProofResult.proof proofResult)
                   (ProofResult.output proofResult) (vrfPublicKey cfg)
                   (toHex (Request.seed request))) with
        | ExecOk _ _ =>
            match submitFulfillment cfg env (pubkey account) proofResult
                    (Request.seed request) (Request.requestId request)
                    (Request.poolId request) (Request.requestIndex request)
                    (KeyOfBytes (Request.subscription request))
                    (markedProcessed env account request proofResult w) with
            | (Ret (Success _), w') =>
                (Ret true, setStats (incRequestsFulfilled (stats w')) w')
            | (Ret Failure, w') => (Ret false, w')
            | (Throw e, w') => (Throw e, w')
            end
        | _ => (Ret false, advance 2 w)
        end
    end.
Proof.
  intros Hfresh Htag Hparse.
  unfold processRequestAccount. unfold bind at 1. unfold get. rewrite Hfresh.
  rewrite tryCatch_rethrow.
  assert ((bufLen (data account) <? 8) = false) as ->.
  { apply parseRequest_spec in Hparse as (len & _ & _ & Hlen & _).
    apply readUInt32LE_Ret in Hlen. lia. }
  apply discriminator_eqb in Htag. rewrite Htag. cbn [negb].
  unfold bind at 1. unfold lift. rewrite Hparse.
  unfold bind at 1. unfold generateProof. rewrite tryCatch_rethrow.
  unfold bind at 1. unfold nextCall.
  destruct (cliProve env (calls w) _) as [proofResult|]; [|reflexivity].
  unfold ret at 1. unfold bind at 1. rewrite verifyProof_run.
  cbn [bufferFrom calls advance setCalls getPublicKey].
  change (1 + calls w)%nat with (S (calls w)).
  unfold getPublicKey.
  destruct (cliExec env (S (calls w)) _) as [stdout stderr|code| |];
    try reflexivity.
  cbn [negb]. unfold bind at 1. unfold DateNow, bind at 1, nextCall, ret at 1.
  cbn [calls advance setCalls].
  unfold bind at 1, modify at 1. unfold bind at 1, modifyStats, modify at 1.
  unfold bind at 1.
  change (setStats _ (setProcessedRequests _ _))
    with (markedProcessed env account request proofResult w).
  destruct (submitFulfillment _ _ _ _ _ _ _ _ _ _) as [[[signature|]|e] w'];
    reflexivity.
Qed.

Lemma discriminator_length data :
  slice data 0 8 = requestDiscriminator -> 8 <= bufLen data.
Proof.
  intros Htag. apply (f_equal (@length byte)) in Htag.
  unfold slice in Htag. change (length requestDiscriminator) with 8%nat in Htag.
  pose proof (bufLen_nonneg data).
  destruct (Z.ltb_spec (Z.min (Z.max 0 0) (bufLen data)) (Z.min (Z.max 8 0) (bufLen data)));
    [|discriminate].
  rewrite length_take, length_drop in Htag. unfold bufLen in *. lia.
Qed.

Lemma processRequestAccount_other cfg env account w :
  processedRequests w !! pubkey account = None ->
  slice (data account) 0 8 <> requestDiscriminator ->
  processRequestAccount cfg env account w = (Ret false, w).
Proof.
  intros Hfresh Htag.
  unfold processRequestAccount. unfold bind at 1. unfold get. rewrite Hfresh.
  rewrite tryCatch_rethrow.
  destruct (bufLen (data account) <? 8); [reflexivity|].
  destruct (String.eqb _ _) eqn:Heq; [|reflexivity].
  apply discriminator_eqb in Heq. contradiction.
Qed.

Lemma processRequestAccount_unreadable cfg env account w e :
  processedRequests w !! pubkey account = None ->
  slice (data account) 0 8 = requestDiscriminator ->
  parseRequest (data account) = Throw e ->
  processRequestAccount cfg env account w = (Throw e, w).
Proof.
  intros Hfresh Htag Hparse.
  unfold processRequestAccount. unfold bind at 1. unfold get. rewrite Hfresh.
  rewrite tryCatch_rethrow.
  apply discriminator_length in Htag as Hlen.
  destruct (Z.ltb_spec (bufLen (data account)) 8); [lia|].
  apply discriminator_eqb in Htag. rewrite Htag. cbn [negb].
  unfold bind at 1. unfold lift. now rewrite Hparse.
Qed.

(** An entry younger than ten minutes keeps the request out of the scan
    and out of the pipeline. *)
Lemma recent_entry_excludes cfg env account info w :
  processedRequests w !! pubkey account = Some info ->
  dateNow env (calls w) - ProcessedInfo.timestamp info < 10 * 60 * 1000 ->
  isRequestPending env account w = (Ret false, advance 1 w)
  /\ (forall pendingRequests,
        exists w',
          checkAccount env account pendingRequests w = (Ret pendingRequests, w')
          /\ events w' = events w)
  /\ processRequestAccount cfg env account w = (Ret false, w).
Proof.
  intros Hget Hage.
  assert (isRequestPending env account w = (Ret false, advance 1 w)) as Hpending.
  { rewrite isRequestPending_run, Hget.
    destruct (Z.ltb_spec (dateNow env (calls w) - ProcessedInfo.timestamp info)
                (10 * 60 * 1000)); [reflexivity|lia]. }
  split; [exact Hpending|]. split.
  - intros pendingRequests. rewrite checkAccount_run, Hpending.
    destruct (_ || _); eexists; split; reflexivity.
  - exact (processRequestAccount_known _ _ _ _ _ Hget).
Qed.

Lemma processAccounts_step cfg env account rest count w :
  processAccounts cfg env (account :: rest) count w
  = match processRequestAccount cfg env account w with
    | (Ret true, w') => processAccounts cfg env rest (count + 1) (emit (EvSleep 1000) w')
    | (Ret false, w') => processAccounts cfg env rest count w'
    | (Throw _, w') => processAccounts cfg env rest count (setStats (incErrors (stats w')) w')
    end.
Proof.
  cbn [processAccounts]. unfold bind at 1, tryCatch, bind at 1.
  destruct (processRequestAccount cfg env account w) as [[[|]|e] w']; reflexivity.
Qed.

(** What the world looks like after [submitFulfillment] ran from the
    world in which the entry was stored. *)
Lemma submit_after_mark cfg env account request proofResult w :
  exists result w',
    submitFulfillment cfg env (pubkey account) proofResult (Request.seed request)
      (Request.requestId request) (Request.poolId request) (Request.requestIndex request)
      (KeyOfBytes (Request.subscription request))
      (markedProcessed env account request proofResult w) = (Ret result, w')
    /\ processedRequests w'
       = <[pubkey account := processedEntry request proofResult (dateNow env (2 + calls w))]>
           (processedRequests w)
    /\ stats w' = incRequestsProcessed (stats w)
    /\ isRunning w' = isRunning w
    /\ ((result = Failure /\ events w' = events w)
        \/ exists transaction, events w' = events w ++ [EvSend transaction]).
Proof.
  destruct (submitFulfillment_effect cfg env (pubkey account) proofResult
              (Request.seed request) (Request.requestId request) (Request.poolId request)
              (Request.requestIndex request) (KeyOfBytes (Request.subscription request))
              (markedProcessed env account request proofResult w))
    as (result & w' & Hrun & Hmap & Hstats & Hrunning & Hsend).
  exists result, w'. split; [exact Hrun|].
  split; [exact Hmap|]. split; [exact Hstats|]. split; [exact Hrunning|].
  destruct Hsend as [?|(transaction & Hev & _)]; [left; assumption|right; eauto].
Qed.

(** A run of the pipeline either sends nothing and does not answer
    [true], or sends one transaction for a request whose entry is then in
    the map. *)
Lemma processRequestAccount_cases cfg env account w :
  (events (snd (processRequestAccount cfg env account w)) = events w
   /\ fst (processRequestAccount cfg env account w) <> Ret true)
  \/ exists transaction request proofResult,
       events (snd (processRequestAccount cfg env account w))
       = events w ++ [EvSend transaction]
       /\ processedRequests (snd (processRequestAccount cfg env account w))
          = <[pubkey account := processedEntry request proofResult (dateNow env (2 + calls w))]>
              (processedRequests w).
Proof.
  destruct (processedRequests w !! pubkey account) as [info|] eqn:Hget.
  { left. now rewrite (processRequestAccount_known _ _ _ _ _ Hget). }
  destruct (String.eqb (toHex (slice (data account) 0 8)) requestDiscriminatorHex)
    eqn:Htag.
  2:{ left. rewrite processRequestAccount_other; [now split|assumption|].
      intros Heq. apply discriminator_eqb in Heq. congruence. }
  apply discriminator_eqb in Htag.
  destruct (parseRequest (data account)) as [request|e] eqn:Hparse.
  2:{ left. now rewrite (processRequestAccount_unreadable _ _ _ _ _ Hget Htag Hparse). }
  rewrite (processRequestAccount_run _ _ _ _ _ Hget Htag Hparse).
  destruct (cliProve env (calls w) _) as [proofResult|]; [|left; now split].
  destruct (cliExec env (S (calls w)) _); try (left; now split).
  destruct (submit_after_mark cfg env account request proofResult w)
    as (result & w' & Hrun & Hmap & _ & _ & Hsend).
  rewrite Hrun.
  destruct Hsend as [[-> Hev]|(transaction & Hev)].
  - left. now split.
  - right. exists transaction, request, proofResult.
    destruct result; split; assumption.
Qed.

(** C1, as amended. A run of the pipeline on a request sends no
    transaction or one, and one whenever it answers [true]; a transaction
    is only sent for an address that had no entry, and leaves one. It may
    leave an entry and have sent nothing. Whatever the run did, as long
    as the entry it left is younger than 10 minutes, scanning the account
    again excludes it, [processRequestAccount] refuses it because the
    address is in the map, and neither sends anything: at most one
    submission in total, and exactly one after a reported success. *)
Theorem single_submission_within_window cfg env account w outcome w1 :
  processRequestAccount cfg env account w = (outcome, w1) ->
  (submissions w1 = submissions w \/ submissions w1 = S (submissions w))
  /\ (outcome = Ret true -> submissions w1 = S (submissions w))
  /\ (submissions w1 <> submissions w ->
      processedRequests w !! pubkey account = None
      /\ exists info, processedRequests w1 !! pubkey account = Some info)
  /\ forall info w2,
       processedRequests w1 !! pubkey account = Some info ->
       processedRequests w2 !! pubkey account = Some info ->
       dateNow env (calls w2) - ProcessedInfo.timestamp info < 10 * 60 * 1000 ->
       isRequestPending env account w2 = (Ret false, advance 1 w2)
       /\ (forall pendingRequests,
             exists w3,
               checkAccount env account pendingRequests w2 = (Ret pendingRequests, w3)
               /\ submissions w3 = submissions w2)
       /\ processRequestAccount cfg env account w2 = (Ret false, w2).
Proof.
  intros Hrun.
  assert (Hlater : forall info w2,
            processedRequests w2 !! pubkey account = Some info ->
            dateNow env (calls w2) - ProcessedInfo.timestamp info < 10 * 60 * 1000 ->
            isRequestPending env account w2 = (Ret false, advance 1 w2)
            /\ (forall pendingRequests,
                  exists w3,
                    checkAccount env account pendingRequests w2 = (Ret pendingRequests, w3)
                    /\ submissions w3 = submissions w2)
            /\ processRequestAccount cfg env account w2 = (Ret false, w2)).
  { intros info w2 Hget Hage.
    destruct (recent_entry_excludes cfg env account _ w2 Hget Hage) as (Hp & Hc & Hr).
    split; [exact Hp|]. split; [|exact Hr].
    intros pendingRequests. destruct (Hc pendingRequests) as (w3 & Hc3 & Hev3).
    exists w3. split; [exact Hc3|]. now apply submissions_same_events. }
  destruct (processRequestAccount_cases cfg env account w)
    as [[Hev Hnot]|(transaction & request & proofResult & Hev & Hmap)];
    rewrite Hrun in *; cbn [fst snd] in *.
  - apply submissions_same_events in Hev.
    split; [left; exact Hev|]. split; [intros ->; contradiction|].
    split; [intros Hsent; contradiction|]. intros info w2 _. apply Hlater.
  - apply submissions_emit_send in Hev.
    split; [right; exact Hev|]. split; [intros _; exact Hev|]. split.
    + intros _. split.
      * destruct (processedRequests w !! pubkey account) as [info|] eqn:Hget; [|reflexivity].
        pose proof (processRequestAccount_known cfg env account w info Hget) as Hknown.
        rewrite Hrun in Hknown. injection Hknown as _ ->. lia.
      * eexists. rewrite Hmap. apply lookup_insert_eq.
    + intros info w2 _. apply Hlater.
Qed.

(** C1 as amended, at the sample request: the pipeline answers [true] and
    one transaction is sent. *)
Lemma single_submission_within_window_witness :
  processRequestAccount (sampleConfig None)
    (sampleEnv accepted (Some "signature"%string) (Some [sampleAccount]))
    sampleAccount freshWorld
  = (Ret true,
     snd (processRequestAccount (sampleConfig None)
            (sampleEnv accepted (Some "signature"%string) (Some [sampleAccount]))
            sampleAccount freshWorld))
  /\ submissions
       (snd (processRequestAccount (sampleConfig None)
               (sampleEnv accepted (Some "signature"%string) (Some [sampleAccount]))
               sampleAccount freshWorld))
     = 1%nat.
Proof.
  assert (processRequestAccount (sampleConfig None)
            (sampleEnv accepted (Some "signature"%string) (Some [sampleAccount]))
            sampleAccount freshWorld
          = (Ret true,
             snd (processRequestAccount (sampleConfig None)
                    (sampleEnv accepted (Some "signature"%string)
                       (Some [sampleAccount]))
                    sampleAccount freshWorld))) as Hrun
    by (vm_compute; reflexivity).
  split; [exact Hrun|].
  exact (proj1 (proj2 (single_submission_within_window _ _ _ _ _ _ Hrun)) eq_refl).
Defined.

(** C1 as stated fails: on a cluster that rejects [getLatestBlockhash] the
    sample request is processed (its entry written at time 2000,
    [requestsProcessed] counted) and the pipeline answers [false] with
    nothing sent; one minute later the scan excludes the request and the
    pipeline refuses it: no submission in total, not one. *)
Lemma processed_without_submission :
  fst (processRequestAccount (sampleConfig None)
         (blockhashRejectedEnv (Some [sampleAccount])) sampleAccount freshWorld)
  = Ret false
  /\ requestsProcessed
       (stats (snd (processRequestAccount (sampleConfig None)
                      (blockhashRejectedEnv (Some [sampleAccount]))
                      sampleAccount freshWorld)))
     = 1
  /\ ProcessedInfo.timestamp
       <$> processedRequests
             (snd (processRequestAccount (sampleConfig None)
                     (blockhashRejectedEnv (Some [sampleAccount]))
                     sampleAccount freshWorld))
           !! pubkey sampleAccount
     = Some 2000
  /\ fst (scanAccounts (blockhashRejectedEnv (Some [sampleAccount])) [sampleAccount] []
            (setCalls 62
               (snd (processRequestAccount (sampleConfig None)
                       (blockhashRejectedEnv (Some [sampleAccount]))
                       sampleAccount freshWorld))))
     = Ret []
  /\ fst (processRequestAccount (sampleConfig None)
            (blockhashRejectedEnv (Some [sampleAccount])) sampleAccount
            (snd (scanAccounts (blockhashRejectedEnv (Some [sampleAccount]))
                    [sampleAccount] []
                    (setCalls 62
                       (snd (processRequestAccount (sampleConfig None)
                               (blockhashRejectedEnv (Some [sampleAccount]))
                               sampleAccount freshWorld))))))
     = Ret false
  /\ submissions
       (snd (processRequestAccount (sampleConfig None)
               (blockhashRejectedEnv (Some [sampleAccount])) sampleAccount
               (snd (scanAccounts (blockhashRejectedEnv (Some [sampleAccount]))
                       [sampleAccount] []
                       (setCalls 62
                          (snd (processRequestAccount (sampleConfig None)
                                  (blockhashRejectedEnv (Some [sampleAccount]))
                                  sampleAccount freshWorld)))))))
     = 0%nat.
Proof. repeat split; vm_compute; reflexivity. Qed.

(** Scenario B: the sample request is fulfilled, then scanned and offered
    to the pipeline again one minute later; one transaction in total. *)
Example scanned_twice_within_a_minute :
  exists w1 w2 w3,
    processRequestAccount (sampleConfig None)
      (sampleEnv accepted (Some "signature"%string) (Some [sampleAccount]))
      sampleAccount freshWorld = (Ret true, w1)
    /\ scanAccounts (sampleEnv accepted (Some "signature"%string) (Some [sampleAccount]))
         [sampleAccount] [] (setCalls 62 w1) = (Ret [], w2)
    /\ processRequestAccount (sampleConfig None)
         (sampleEnv accepted (Some "signature"%string) (Some [sampleAccount]))
         sampleAccount w2 = (Ret false, w3)
    /\ submissions w3 = 1%nat.
Proof.
  eexists _, _, _. split; [vm_compute; reflexivity|].
  split; [vm_compute; reflexivity|]. split; vm_compute; reflexivity.
Qed.

(** C2, as amended. For a request that is not in the map and whose fields
    can be read: when proof generation throws, no entry is written, the
    loop of [monitorAndProcess] counts one error and goes on; when the
    verifier rejects the proof, no entry is written and no counter moves;
    once the proof is generated and verified the entry is written before
    the submission and stays whatever the submission does, with
    [requestsProcessed] counted, [errors] unchanged, at most one
    transaction sent, and the request excluded while the entry is younger
    than 10 minutes. *)
Theorem record_written_before_submission cfg env account request w :
  processedRequests w !! pubkey account = None ->
  slice (data account) 0 8 = requestDiscriminator ->
  parseRequest (data account) = Ret request ->
  (cliProve env (calls w) (toHex (Request.seed request)) = None ->
   processRequestAccount cfg env account w = (Throw CliError, advance 1 w)
   /\ forall rest count,
        processAccounts cfg env (account :: rest) count w
        = processAccounts cfg env rest count (setStats (incErrors (stats w)) (advance 1 w)))
  /\ (forall proofResult,
        cliProve env (calls w) (toHex (Request.seed request)) = Some proofResult ->
        fst (verifyProof cfg env (ProofResult.proof proofResult)
               (ProofResult.output proofResult) (vrfPublicKey cfg)
               (InBuffer (Request.seed request)) (advance 1 w)) = Ret false ->
        processRequestAccount cfg env account w = (Ret false, advance 2 w)
        /\ forall rest count,
             processAccounts cfg env (account :: rest) count w
             = processAccounts cfg env rest count (advance 2 w))
  /\ (forall proofResult,
        cliProve env (calls w) (toHex (Request.seed request)) = Some proofResult ->
        fst (verifyProof cfg env (ProofResult.proof proofResult)
               (ProofResult.output proofResult) (vrfPublicKey cfg)
               (InBuffer (Request.seed request)) (advance 1 w)) = Ret true ->
        exists (fulfilled : bool) w',
          processRequestAccount cfg env account w = (Ret fulfilled, w')
          /\ processedRequests w'
             = <[pubkey account :=
                   processedEntry request proofResult (dateNow env (2 + calls w))]>
                 (processedRequests w)
          /\ requestsProcessed (stats w') = requestsProcessed (stats w) + 1
          /\ requestsFulfilled (stats w')
             = requestsFulfilled (stats w) + (if fulfilled then 1 else 0)
          /\ errors (stats w') = errors (stats w)
          /\ (submissions w' <= S (submissions w))%nat
          /\ (fulfilled = true -> submissions w' = S (submissions w))
          /\ forall w2,
               processedRequests w2 !! pubkey account = processedRequests w' !! pubkey account ->
               dateNow env (calls w2) - dateNow env (2 + calls w) < 10 * 60 * 1000 ->
               isRequestPending env account w2 = (Ret false, advance 1 w2)).
Proof.
  intros Hfresh Htag Hparse.
  pose proof (processRequestAccount_run cfg env _ _ _ Hfresh Htag Hparse) as Hrun.
  split; [|split].
  - intros Hprove. rewrite Hprove in Hrun. split; [exact Hrun|].
    intros rest count. now rewrite processAccounts_step, Hrun.
  - intros proofResult Hprove Hverify. rewrite Hprove in Hrun.
    rewrite verifyProof_run in Hverify. cbn in Hverify.
    destruct (cliExec env (S (calls w)) _); try discriminate;
      (split; [exact Hrun|]); intros rest count;
      now rewrite processAccounts_step, Hrun.
  - intros proofResult Hprove Hverify. rewrite Hprove in Hrun.
    rewrite verifyProof_run in Hverify. cbn in Hverify.
    destruct (cliExec env (S (calls w)) _); try discriminate.
    destruct (submit_after_mark cfg env account request proofResult w)
      as (result & w' & Hsub & Hmap & Hstats & _ & Hsend).
    rewrite Hsub in Hrun.
    assert (forall w'' : World,
              processedRequests w'' = processedRequests w' ->
              forall w2,
                processedRequests w2 !! pubkey account
                = processedRequests w'' !! pubkey account ->
                dateNow env (calls w2) - dateNow env (2 + calls w) < 10 * 60 * 1000 ->
                isRequestPending env account w2 = (Ret false, advance 1 w2)) as Hlater.
    { intros w'' Hsame w2 Hget Hage. rewrite Hsame, Hmap, lookup_insert_eq in Hget.
      exact (proj1 (recent_entry_excludes cfg env account _ w2 Hget Hage)). }
    destruct result as [signature|].
    + destruct Hsend as [[? _]|(transaction & Hev)]; [discriminate|].
      exists true. eexists. split; [exact Hrun|].
      cbn [processedRequests stats setStats events]. rewrite Hstats.
      split; [exact Hmap|]. repeat split; try reflexivity.
      * change (submissions (setStats (incRequestsFulfilled (incRequestsProcessed (stats w))) w'))
          with (submissions w').
        rewrite (submissions_emit_send w w' transaction Hev). lia.
      * intros _. exact (submissions_emit_send w _ transaction Hev).
      * apply Hlater. reflexivity.
    + exists false, w'. split; [exact Hrun|]. rewrite Hstats.
      split; [exact Hmap|]. cbn [requestsProcessed requestsFulfilled errors
                                   incRequestsProcessed].
      repeat split; try lia; try discriminate.
      * destruct Hsend as [[_ Hev]|(transaction & Hev)].
        -- rewrite (submissions_same_events _ _ Hev). lia.
        -- rewrite (submissions_emit_send _ _ _ Hev). lia.
      * apply Hlater. reflexivity.
Qed.

(** C2 as stated fails: when [sendRawTransaction] rejects, the pipeline
    answers [false], yet the entry is in the map, [errors] is still 0
    after the loop of [monitorAndProcess], and a scan one second later
    excludes the request. *)
Lemma entry_written_though_submission_failed :
  fst (processRequestAccount (sampleConfig None)
         (sampleEnv accepted None (Some [sampleAccount])) sampleAccount freshWorld)
  = Ret false
  /\ processedRequests
       (snd (processRequestAccount (sampleConfig None)
               (sampleEnv accepted None (Some [sampleAccount]))
               sampleAccount freshWorld))
     !! pubkey sampleAccount
     = Some (processedEntry
               {| Request.subscription := replicate 32 Init.Byte.x11;
                  Request.seed := replicate 32 Init.Byte.x22;
                  Request.requester := replicate 32 Init.Byte.x33;
                  Request.callbackDataLength := 2;
                  Request.poolId := 5;
                  Request.requestIndex := 7;
                  Request.requestId := replicate 32 Init.Byte.x99 |}
               {| ProofResult.proof := "0a0b0c"; ProofResult.output := "0d0e" |}
               2000)
  /\ errors
       (stats (snd (processAccounts (sampleConfig None)
                      (sampleEnv accepted None (Some [sampleAccount]))
                      [sampleAccount] 0 freshWorld)))
     = 0
  /\ fst (isRequestPending (sampleEnv accepted None (Some [sampleAccount]))
            sampleAccount
            (snd (processRequestAccount (sampleConfig None)
                    (sampleEnv accepted None (Some [sampleAccount]))
                    sampleAccount freshWorld)))
     = Ret false.
Proof. repeat split; vm_compute; reflexivity. Qed.

(** C2 as amended, at the sample request with a verifier that accepts. *)
Lemma record_written_before_submission_witness :
  processedRequests freshWorld !! pubkey sampleAccount = None
  /\ slice (data sampleAccount) 0 8 = requestDiscriminator
  /\ (exists request, parseRequest (data sampleAccount) = Ret request)
  /\ exists (fulfilled : bool) w',
       processRequestAccount (sampleConfig None)
         (sampleEnv accepted None (Some [sampleAccount])) sampleAccount freshWorld
       = (Ret fulfilled, w')
       /\ requestsProcessed (stats w') = 1
       /\ errors (stats w') = 0.
Proof.
  split; [reflexivity|]. split; [reflexivity|]. split; [eexists; reflexivity|].
  destruct (proj2 (proj2
              (record_written_before_submission (sampleConfig None)
                 (sampleEnv accepted None (Some [sampleAccount])) sampleAccount
                 _ freshWorld eq_refl eq_refl eq_refl)) _ eq_refl eq_refl)
    as (fulfilled & w' & Hrun & _ & Hprocessed & _ & Herrors & _).
  exists fulfilled, w'. split; [exact Hrun|]. split; assumption.
Defined.

(** C3, as amended. When the verifier rejects the generated proof, the
    pipeline answers [false] two external calls later with nothing sent,
    no entry written and every counter, [errors] included, as it was;
    the loop of [monitorAndProcess] goes on to the next account. *)
Theorem verification_failure_aborts cfg env account request proofResult w :
  processedRequests w !! pubkey account = None ->
  slice (data account) 0 8 = requestDiscriminator ->
  parseRequest (data account) = Ret request ->
  cliProve env (calls w) (toHex (Request.seed request)) = Some proofResult ->
  fst (verifyProof cfg env (ProofResult.proof proofResult)
         (ProofResult.output proofResult) (vrfPublicKey cfg)
         (InBuffer (Request.seed request)) (advance 1 w)) = Ret false ->
  exists w',
    processRequestAccount cfg env account w = (Ret false, w')
    /\ events w' = events w
    /\ processedRequests w' = processedRequests w
    /\ stats w' = stats w
    /\ forall rest count,
         processAccounts cfg env (account :: rest) count w
         = processAccounts cfg env rest count w'.
Proof.
  intros Hfresh Htag Hparse Hprove Hverify.
  pose proof (processRequestAccount_run cfg env _ _ _ Hfresh Htag Hparse) as Hrun.
  rewrite Hprove in Hrun. rewrite verifyProof_run in Hverify. cbn in Hverify.
  exists (advance 2 w).
  destruct (cliExec env (S (calls w)) _); try discriminate;
    (split; [exact Hrun|]); repeat (split; [reflexivity|]);
    intros rest count; now rewrite processAccounts_step, Hrun.
Qed.

Lemma verification_failure_aborts_witness :
  exists w',
    processRequestAccount (sampleConfig None)
      (sampleEnv (ExecExit 1) (Some "signature"%string) (Some [sampleAccount]))
      sampleAccount freshWorld = (Ret false, w')
    /\ events w' = events freshWorld
    /\ processedRequests w' = processedRequests freshWorld
    /\ stats w' = stats freshWorld.
Proof.
  destruct (verification_failure_aborts (sampleConfig None)
              (sampleEnv (ExecExit 1) (Some "signature"%string) (Some [sampleAccount]))
              sampleAccount _ _ freshWorld eq_refl eq_refl eq_refl eq_refl eq_refl)
    as (w' & Hrun & Hev & Hmap & Hstats & _).
  exists w'. repeat split; assumption.
Defined.

(** C3 as stated fails: with a verifier that exits with code 1 the proof
    is rejected, and after the loop of [monitorAndProcess], and after the
    whole cycle, [errors] is still 0. *)
Lemma errors_not_counted_on_invalid_proof :
  fst (verifyProof (sampleConfig None)
         (sampleEnv (ExecExit 1) (Some "signature"%string) (Some [sampleAccount]))
         "0a0b0c" "0d0e" "0102" (InBuffer (replicate 32 Init.Byte.x22)) (advance 1 freshWorld))
  = Ret false
  /\ errors
       (stats (snd (processAccounts (sampleConfig None)
                      (sampleEnv (ExecExit 1) (Some "signature"%string) (Some [sampleAccount]))
                      [sampleAccount] 0 freshWorld)))
     = errors (stats freshWorld)
  /\ errors
       (stats (snd (monitorAndProcess (sampleConfig None)
                      (sampleEnv (ExecExit 1) (Some "signature"%string) (Some [sampleAccount]))
                      freshWorld)))
     = errors (stats freshWorld)
  /\ submissions
       (snd (monitorAndProcess (sampleConfig None)
               (sampleEnv (ExecExit 1) (Some "signature"%string) (Some [sampleAccount]))
               freshWorld))
     = 0%nat.
Proof. repeat split; vm_compute; reflexivity. Qed.

(** C8. Whatever the pipeline does with an account, it either sends
    nothing or sends one transaction whose instruction names exactly six
    accounts in this order: the oracle (signer, writable), the request
    account, the result address derived from the request account, the
    request-pool address derived from the request's subscription and pool
    id, the subscription (all four writable, not signers), and the system
    program (read-only). And it does send that transaction: for a request
    that is not in the map, once its fields are read, its proof generated
    and verified, the two addresses derived, the data encoded, the
    blockhash given and the transaction serialized, the pipeline adds
    exactly one send, of the transaction with these six accounts. *)
Theorem fulfillment_account_order cfg env account w :
  (events (snd (processRequestAccount cfg env account w)) = events w
  \/ exists transaction request requestPoolPDA vrfResultPDA,
       events (snd (processRequestAccount cfg env account w))
       = events w ++ [EvSend transaction]
       /\ parseRequest (data account) = Ret request
       /\ findProgramAddress env
            [SeedBytes (fromText "request_pool");
             SeedKey (KeyOfBytes (Request.subscription request));
             SeedBytes [octet (Request.poolId request)]] vrfProgramId
          = Some requestPoolPDA
       /\ findProgramAddress env
            [SeedBytes (fromText "vrf_result"); SeedKey (KeyOfText (pubkey account))]
            vrfProgramId
          = Some vrfResultPDA
       /\ keys (instruction transaction)
          = [ {| AccountMeta.pubkey := oraclePublicKey cfg;
                 AccountMeta.isSigner := true; AccountMeta.isWritable := true |};
              {| AccountMeta.pubkey := KeyOfText (pubkey account);
                 AccountMeta.isSigner := false; AccountMeta.isWritable := true |};
              {| AccountMeta.pubkey := vrfResultPDA;
                 AccountMeta.isSigner := false; AccountMeta.isWritable := true |};
              {| AccountMeta.pubkey := requestPoolPDA;
                 AccountMeta.isSigner := false; AccountMeta.isWritable := true |};
              {| AccountMeta.pubkey := KeyOfBytes (Request.subscription request);
                 AccountMeta.isSigner := false; AccountMeta.isWritable := true |};
              {| AccountMeta.pubkey := systemProgramId;
                 AccountMeta.isSigner := false; AccountMeta.isWritable := false |} ])
  /\ forall request proofResult requestPoolPDA vrfResultPDA fulfillData blockhash,
       processedRequests w !! pubkey account = None ->
       slice (data account) 0 8 = requestDiscriminator ->
       parseRequest (data account) = Ret request ->
       cliProve env (calls w) (toHex (Request.seed request)) = Some proofResult ->
       fst (verifyProof cfg env (ProofResult.proof proofResult)
              (ProofResult.output proofResult) (vrfPublicKey cfg)
              (InBuffer (Request.seed request)) (advance 1 w)) = Ret true ->
       findProgramAddress env
         [SeedBytes (fromText "request_pool");
          SeedKey (KeyOfBytes (Request.subscription request));
          SeedBytes [octet (Request.poolId request)]] vrfProgramId
       = Some requestPoolPDA ->
       findProgramAddress env
         [SeedBytes (fromText "vrf_result"); SeedKey (KeyOfText (pubkey account))]
         vrfProgramId
       = Some vrfResultPDA ->
       encodeFulfillData (fromHex (ProofResult.proof proofResult))
         (fromHex (vrfPublicKey cfg)) (Request.requestId request)
         (Request.poolId request) (Request.requestIndex request)
       = Ret fulfillData ->
       rpcGetLatestBlockhash env (3 + calls w) = Some blockhash ->
       let transaction :=
         {| instruction :=
              {| keys :=
                   [ {| AccountMeta.pubkey := oraclePublicKey cfg;
                      AccountMeta.isSigner := true; AccountMeta.isWritable := true |};
                   {| AccountMeta.pubkey := KeyOfText (pubkey account);
                      AccountMeta.isSigner := false; AccountMeta.isWritable := true |};
                   {| AccountMeta.pubkey := vrfResultPDA;
                      AccountMeta.isSigner := false; AccountMeta.isWritable := true |};
                   {| AccountMeta.pubkey := requestPoolPDA;
                      AccountMeta.isSigner := false; AccountMeta.isWritable := true |};
                   {| AccountMeta.pubkey := KeyOfBytes (Request.subscription request);
                      AccountMeta.isSigner := false; AccountMeta.isWritable := true |};
                   {| AccountMeta.pubkey := systemProgramId;
                      AccountMeta.isSigner := false; AccountMeta.isWritable := false |} ];
                 programId := vrfProgramId;
                 instructionData := fulfillData |};
            recentBlockhash := blockhash;
            feePayer := oraclePublicKey cfg |} in
       serializable env transaction = true ->
       events (snd (processRequestAccount cfg env account w))
       = events w ++ [EvSend transaction].
Proof.
  split.
  { destruct (processedRequests w !! pubkey account) as [info|] eqn:Hget.
    { left. now rewrite (processRequestAccount_known _ _ _ _ _ Hget). }
    destruct (String.eqb (toHex (slice (data account) 0 8)) requestDiscriminatorHex)
      eqn:Htag.
    2:{ left. rewrite processRequestAccount_other; [reflexivity|assumption|].
        intros Heq. apply discriminator_eqb in Heq. congruence. }
    apply discriminator_eqb in Htag.
    destruct (parseRequest (data account)) as [request|e] eqn:Hparse.
    2:{ left. now rewrite (processRequestAccount_unreadable _ _ _ _ _ Hget Htag Hparse). }
    rewrite (processRequestAccount_run _ _ _ _ _ Hget Htag Hparse).
    destruct (cliProve env (calls w) _) as [proofResult|]; [|left; reflexivity].
    destruct (cliExec env (S (calls w)) _); try (left; reflexivity).
    destruct (submitFulfillment_effect cfg env (pubkey account) proofResult
                (Request.seed request) (Request.requestId request) (Request.poolId request)
                (Request.requestIndex request) (KeyOfBytes (Request.subscription request))
                (markedProcessed env account request proofResult w))
      as (result & w' & Hrun & _ & _ & _ & Hsend).
    rewrite Hrun.
    assert (events (snd (match result with
                         | Success _ =>
                             (Ret true, setStats (incRequestsFulfilled (stats w')) w')
                         | Failure => (Ret false, w')
                         end)) = events w') as -> by (destruct result; reflexivity).
    destruct Hsend as [[_ Hev]|(transaction & Hev & Hbuilt)]; [left; exact Hev|].
    right. apply createFulfillmentInstruction_keys in Hbuilt
      as (_ & requestPoolPDA & vrfResultPDA & Hpool & Hresult & Hkeys & _).
    exists transaction, request, requestPoolPDA, vrfResultPDA.
    split; [exact Hev|]. split; [reflexivity|]. split; [exact Hpool|].
    split; [exact Hresult|exact Hkeys].
  }
  intros request proofResult requestPoolPDA vrfResultPDA fulfillData blockhash
    Hfresh Htag Hparse Hprove Hverify Hpool Hresult Hencode Hblockhash transaction Hserial.
  rewrite (processRequestAccount_run _ _ _ _ _ Hfresh Htag Hparse), Hprove.
  rewrite verifyProof_run in Hverify. cbn in Hverify.
  destruct (cliExec env (S (calls w)) _); try discriminate.
  destruct (submitFulfillment_sends cfg env (pubkey account) proofResult
              (Request.seed request) (Request.requestId request) (Request.poolId request)
              (Request.requestIndex request) (KeyOfBytes (Request.subscription request))
              (markedProcessed env account request proofResult w)
              (instruction transaction) blockhash)
    as (result & w' & Hrun & Hev).
  - rewrite createFulfillmentInstruction_run, Hpool, Hresult, Hencode. reflexivity.
  - exact Hblockhash.
  - exact Hserial.
  - rewrite Hrun. destruct result; exact Hev.
Qed.

(** C8 at the sample request: the transaction sent names the oracle, the
    request account, the two derived addresses, the subscription and the
    system program, with these flags. *)
Lemma fulfillment_account_order_witness :
  exists transaction,
    events (snd (processRequestAccount (sampleConfig None)
                   (sampleEnv accepted (Some "signature"%string) None)
                   sampleAccount freshWorld))
    = [EvSend transaction]
    /\ keys (instruction transaction)
       = [ metaOf (KeyOfText "46SiBDPQWUK8noz5zoeU4ucNzct2BMKu59m7J44SzH3C") true true;
           metaOf (KeyOfText "BqVRUSX8MH8bG2FpVso16rTnXeGj5EP8be9VzC229Eys") false true;
           metaOf (KeyOfBytes (fromText "vrf_result"
                               ++ fromText "BqVRUSX8MH8bG2FpVso16rTnXeGj5EP8be9VzC229Eys"))
             false true;
           metaOf (KeyOfBytes (fromText "request_pool" ++ replicate 32 Init.Byte.x11
                               ++ [Init.Byte.x05])) false true;
           metaOf (KeyOfBytes (replicate 32 Init.Byte.x11)) false true;
           metaOf systemProgramId false false ].
Proof.
  eexists. split.
  - exact (proj2 (fulfillment_account_order (sampleConfig None)
                    (sampleEnv accepted (Some "signature"%string) None)
                    sampleAccount freshWorld)
             _ _ _ _ _ _ eq_refl eq_refl eq_refl eq_refl eq_refl eq_refl eq_refl eq_refl
             eq_refl eq_refl).
  - vm_compute. reflexivity.
Defined.

(** The six accounts of the transaction sent for the sample request. *)
Example sample_transaction_accounts :
  exists transaction,
    events (snd (processRequestAccount (sampleConfig None)
                   (sampleEnv accepted (Some "signature"%string) None)
                   sampleAccount freshWorld))
    = [EvSend transaction]
    /\ map AccountMeta.pubkey (keys (instruction transaction))
       = [ KeyOfText "46SiBDPQWUK8noz5zoeU4ucNzct2BMKu59m7J44SzH3C";
           KeyOfText "BqVRUSX8MH8bG2FpVso16rTnXeGj5EP8be9VzC229Eys";
           KeyOfBytes (fromText "vrf_result"
                       ++ fromText "BqVRUSX8MH8bG2FpVso16rTnXeGj5EP8be9VzC229Eys");
           KeyOfBytes (fromText "request_pool" ++ replicate 32 Init.Byte.x11
                       ++ [Init.Byte.x05]);
           KeyOfBytes (replicate 32 Init.Byte.x11);
           systemProgramId ].
Proof. eexists. split; [vm_compute; reflexivity|reflexivity]. Qed.

(** ** The polling loop *)

Lemma evolves_refl w : evolves w w.
Proof.
  repeat split; try lia. exists []. now rewrite app_nil_r.
Qed.

Lemma evolves_trans w1 w2 w3 : evolves w1 w2 -> evolves w2 w3 -> evolves w1 w3.
Proof.
  intros (Hr1 & (m1 & He1) & ? & ? & ?) (Hr2 & (m2 & He2) & ? & ? & ?).
  repeat split; try lia; try congruence.
  exists (m1 ++ m2). now rewrite He2, He1, app_assoc.
Qed.

Lemma evolves_advance n w : evolves w (advance n w).
Proof. exact (evolves_refl w). Qed.

Lemma evolves_same w w' :
  isRunning w' = isRunning w -> events w' = events w -> stats w' = stats w ->
  evolves w w'.
Proof.
  intros Hr He Hs. unfold evolves. rewrite Hr, He, Hs.
  repeat split; try lia. exists []. now rewrite app_nil_r.
Qed.

Lemma evolves_emit e w : evolves w (emit e w).
Proof. repeat split; cbn; try lia. now exists [e]. Qed.

Lemma evolves_incErrors w : evolves w (setStats (incErrors (stats w)) w).
Proof. repeat split; cbn; try lia. exists []. now rewrite app_nil_r. Qed.

Lemma isRequestPending_evolves env account w :
  evolves w (snd (isRequestPending env account w)).
Proof.
  destruct (isRequestPending_frame env account w) as (Hs & He & Hr).
  now apply evolves_same.
Qed.

Lemma checkAccount_evolves env account pendingRequests w :
  evolves w (snd (checkAccount env account pendingRequests w)).
Proof.
  rewrite checkAccount_run. destruct (_ || _); [apply evolves_refl|].
  pose proof (isRequestPending_evolves env account w) as H.
  destruct (isRequestPending env account w) as [[[|]|e] w']; exact H.
Qed.

Lemma scanAccounts_evolves env accounts :
  forall pendingRequests w,
    evolves w (snd (scanAccounts env accounts pendingRequests w)).
Proof.
  induction accounts as [|account rest IH]; intros pendingRequests w.
  - apply evolves_refl.
  - cbn [scanAccounts].
    pose proof (checkAccount_evolves env account pendingRequests w) as Hc.
    destruct (checkAccount_returns env account pendingRequests w) as (r & w1 & Hrun).
    rewrite Hrun in Hc. rewrite (bind_Ret _ _ _ _ _ Hrun).
    eapply evolves_trans; [exact Hc|apply IH].
Qed.

Lemma processRequestAccount_evolves cfg env account w :
  evolves w (snd (processRequestAccount cfg env account w)).
Proof.
  destruct (processedRequests w !! pubkey account) as [info|] eqn:Hget.
  { rewrite (processRequestAccount_known _ _ _ _ _ Hget). exact (evolves_refl w). }
  destruct (String.eqb (toHex (slice (data account) 0 8)) requestDiscriminatorHex)
    eqn:Htag.
  2:{ rewrite processRequestAccount_other; [exact (evolves_refl w)|assumption|].
      intros Heq. apply discriminator_eqb in Heq. congruence. }
  apply discriminator_eqb in Htag.
  destruct (parseRequest (data account)) as [request|e] eqn:Hparse.
  2:{ rewrite (processRequestAccount_unreadable _ _ _ _ _ Hget Htag Hparse).
      exact (evolves_refl w). }
  rewrite (processRequestAccount_run _ _ _ _ _ Hget Htag Hparse).
  destruct (cliProve env (calls w) _) as [proofResult|]; [|exact (evolves_refl w)].
  destruct (cliExec env (S (calls w)) _); try exact (evolves_refl w).
  destruct (submitFulfillment_effect cfg env (pubkey account) proofResult
              (Request.seed request) (Request.requestId request) (Request.poolId request)
              (Request.requestIndex request) (KeyOfBytes (Request.subscription request))
              (markedProcessed env account request proofResult w))
    as (result & w' & Hrun & _ & Hstats & Hrunning & Hsend).
  rewrite Hrun.
  assert (exists more, events w' = events w ++ more) as Hmore.
  { destruct Hsend as [[_ Hev]|(transaction & Hev & _)].
    - exists []. now rewrite app_nil_r.
    - eauto. }
  destruct result; cbn [snd]; unfold evolves; cbn [isRunning events stats setStats];
    rewrite Hstats; cbn; repeat split; try lia; assumption.
Qed.

(** The loop over the pending accounts never throws: an error of one
    request is caught, counted and the loop goes on. *)
Lemma processAccounts_returns cfg env accounts :
  forall count w,
    exists count' w',
      processAccounts cfg env accounts count w = (Ret count', w') /\ evolves w w'.
Proof.
  induction accounts as [|account rest IH]; intros count w.
  - exists count, w. split; [reflexivity|apply evolves_refl].
  - rewrite processAccounts_step.
    pose proof (processRequestAccount_evolves cfg env account w) as Hev.
    destruct (processRequestAccount cfg env account w) as [[[|]|e] w1]; cbn [snd] in Hev.
    + destruct (IH (count + 1) (emit (EvSleep 1000) w1)) as (c & w' & Hrun & Hev').
      exists c, w'. split; [exact Hrun|].
      eapply evolves_trans; [exact Hev|].
      eapply evolves_trans; [apply evolves_emit|exact Hev'].
    + destruct (IH count w1) as (c & w' & Hrun & Hev').
      exists c, w'. split; [exact Hrun|]. eapply evolves_trans; eassumption.
    + destruct (IH count (setStats (incErrors (stats w1)) w1)) as (c & w' & Hrun & Hev').
      exists c, w'. split; [exact Hrun|].
      eapply evolves_trans; [exact Hev|].
      eapply evolves_trans; [apply evolves_incErrors|exact Hev'].
Qed.

(** An error raised while one request is processed adds one to [errors]
    and the loop continues with the next account. *)
Lemma processAccounts_counts_error cfg env account rest count w e w1 :
  processRequestAccount cfg env account w = (Throw e, w1) ->
  processAccounts cfg env (account :: rest) count w
  = processAccounts cfg env rest count (setStats (incErrors (stats w1)) w1).
Proof. intros Hrun. now rewrite processAccounts_step, Hrun. Qed.

Lemma getPendingRequestAccounts_run env w :
  getPendingRequestAccounts env w
  = match rpcGetProgramAccounts env (calls w) with
    | Some accounts => scanAccounts env accounts [] (advance 1 w)
    | None => (Throw RpcError, advance 1 w)
    end.
Proof.
  unfold getPendingRequestAccounts, getProgramAccounts, bind, nextCall, ret, throw.
  destruct (rpcGetProgramAccounts env (calls w)); reflexivity.
Qed.

Lemma monitorAndProcess_run cfg env w :
  monitorAndProcess cfg env w
  = match getPendingRequestAccounts env (advance 1 w) with
    | (Throw e, w1) => (Throw e, w1)
    | (Ret [], w1) => (Ret tt, w1)
    | (Ret (account :: rest), w1) =>
        match processAccounts cfg env (account :: rest) 0 w1 with
        | (Throw e, w2) => (Throw e, w2)
        | (Ret count, w2) =>
            if 0 <? count then (Ret tt, advance 2 w2) else (Ret tt, advance 1 w2)
        end
    end.
Proof.
  unfold monitorAndProcess. unfold bind at 1.
  change (DateNow env w) with (Ret (dateNow env (calls w)), advance 1 w).
  cbv beta iota. rewrite tryCatch_rethrow. unfold bind at 1.
  destruct (getPendingRequestAccounts env (advance 1 w)) as [[[|account rest]|e] w1];
    try reflexivity.
  unfold bind at 1.
  destruct (processAccounts cfg env (account :: rest) 0 w1) as [[count|e] w2];
    [|reflexivity].
  unfold bind at 1.
  change (DateNow env w2) with (Ret (dateNow env (calls w2)), advance 1 w2).
  cbv beta iota. destruct (0 <? count); reflexivity.
Qed.

(** A cycle either completes or fails because the account listing was
    rejected. *)
Lemma monitorAndProcess_outcome cfg env w :
  (exists w', monitorAndProcess cfg env w = (Ret tt, w') /\ evolves w w')
  \/ (rpcGetProgramAccounts env (S (calls w)) = None
      /\ monitorAndProcess cfg env w = (Throw RpcError, advance 2 w)).
Proof.
  rewrite monitorAndProcess_run, getPendingRequestAccounts_run.
  change (calls (advance 1 w)) with (S (calls w)).
  destruct (rpcGetProgramAccounts env (S (calls w))) as [accounts|] eqn:Hrpc;
    [left|right; split; reflexivity].
  pose proof (scanAccounts_evolves env accounts [] (advance 1 (advance 1 w))) as Hscan.
  destruct (scanAccounts_returns env accounts [] (advance 1 (advance 1 w)))
    as (pending & w1 & Hrun).
  rewrite Hrun in *. cbn [snd] in Hscan.
  assert (evolves w w1) as Hw1.
  { eapply evolves_trans; [apply (evolves_advance 2 w)|exact Hscan]. }
  destruct pending as [|account rest]; [exists w1; split; [reflexivity|exact Hw1]|].
  destruct (processAccounts_returns cfg env (account :: rest) 0 w1)
    as (count & w2 & Hloop & Hw2).
  rewrite Hloop.
  destruct (0 <? count); eexists; (split; [reflexivity|]);
    (eapply evolves_trans; [exact Hw1|]); (eapply evolves_trans; [exact Hw2|]).
  - apply (evolves_advance 2 w2).
  - apply (evolves_advance 1 w2).
Qed.

(** One turn of the loop of [start] never throws. After a cycle that
    completed it sleeps [POLLING_INTERVAL]; after a cycle that threw it
    adds one to [errors] and sleeps 5000 ms. *)
Lemma loopBody_returns cfg env w :
  exists w',
    loopBody cfg env w = (Ret tt, w')
    /\ evolves w w'
    /\ ((exists w1,
           monitorAndProcess cfg env w = (Ret tt, w1)
           /\ w' = emit (EvSleep (POLLING_INTERVAL cfg)) w1)
        \/ (exists e w1,
              monitorAndProcess cfg env w = (Throw e, w1)
              /\ w' = emit (EvSleep 5000) (setStats (incErrors (stats w1)) w1))).
Proof.
  unfold loopBody, tryCatch. unfold bind at 1.
  destruct (monitorAndProcess_outcome cfg env w) as [(w1 & Hrun & Hev)|(Hrpc & Hrun)];
    rewrite Hrun.
  - eexists. split; [reflexivity|]. split; [|left; eauto].
    eapply evolves_trans; [exact Hev|apply evolves_emit].
  - eexists. split; [reflexivity|]. split; [|right; eauto].
    eapply evolves_trans; [apply (evolves_advance 2 w)|].
    eapply evolves_trans; [apply evolves_incErrors|apply evolves_emit].
Qed.

Lemma loopBody_sleeps cfg env w :
  exists w',
    loopBody cfg env w = (Ret tt, w')
    /\ isRunning w' = isRunning w
    /\ (length (events w) < length (events w'))%nat.
Proof.
  destruct (loopBody_returns cfg env w) as (w' & Hrun & Hev & Hcase).
  exists w'. split; [exact Hrun|]. split; [apply Hev|].
  destruct Hcase as [(w1 & Hm & ->)|(e & w1 & Hm & ->)].
  - destruct (monitorAndProcess_outcome cfg env w) as [(w2 & Hrun2 & Hev2)|(_ & Hrun2)];
      rewrite Hrun2 in Hm; [|discriminate].
    injection Hm as <-. destruct Hev2 as (_ & (more & Hmore) & _).
    cbn [events emit]. rewrite Hmore, !length_app. cbn. lia.
  - destruct (monitorAndProcess_outcome cfg env w) as [(w2 & Hrun2 & Hev2)|(_ & Hrun2)];
      rewrite Hrun2 in Hm; [discriminate|].
    injection Hm as <- <-. cbn. rewrite length_app. cbn. lia.
Qed.

(** While the running flag is set the loop makes every turn it is given,
    whatever the errors of the cycles: it never throws, the flag stays
    set, and each turn ends with a sleep. *)
Lemma mainLoop_keeps_running cfg env turns :
  forall w,
    isRunning w = true ->
    exists w',
      mainLoop cfg env turns w = (Ret tt, w')
      /\ isRunning w' = true
      /\ (length (events w) + turns <= length (events w'))%nat.
Proof.
  induction turns as [|turns IH]; intros w Hrunning.
  - exists w. repeat split; [assumption|lia].
  - cbn [mainLoop]. unfold bind at 1, get. rewrite Hrunning.
    destruct (loopBody_sleeps cfg env w) as (w1 & Hbody & Hr1 & Hlen).
    rewrite (bind_Ret _ _ _ _ _ Hbody).
    destruct (IH w1) as (w' & Hloop & Hr' & Hlen'); [congruence|].
    exists w'. split; [exact Hloop|]. split; [exact Hr'|lia].
Qed.

(** [start] sets the flag and then makes every turn: no error of a
    request or of a cycle reaches its caller, so only a failure of
    [initialize], before [start], ends the process. *)
Lemma start_keeps_running cfg env turns w :
  exists w',
    start cfg env turns w = (Ret tt, w')
    /\ isRunning w' = true
    /\ (length (events w) + turns <= length (events w'))%nat.
Proof.
  unfold start, bind, modify, DateNow, bind, nextCall, ret, modifyStats, modify.
  cbn [calls setIsRunning setCalls stats].
  match goal with
  | |- exists w', mainLoop cfg env turns ?w0 = _ /\ _ =>
      destruct (mainLoop_keeps_running cfg env turns w0 eq_refl) as (w' & Hrun & Hr & Hlen)
  end.
  exists w'. split; [exact Hrun|]. split; [exact Hr|exact Hlen].
Qed.

(** C9. With [POLLING_INTERVAL=10000] in the environment and a cycle in
    which the account listing is rejected, the turn of the loop returns,
    counts the error and sleeps 5000 ms: the wait after the error is
    shorter than the normal interval of 10000 ms, not longer. *)
Theorem backoff_shorter_than_configured_interval :
  POLLING_INTERVAL (sampleConfig (Some 10000)) = 10000
  /\ loopBody (sampleConfig (Some 10000)) (sampleEnv accepted None None) freshWorld
     = (Ret tt,
        emit (EvSleep 5000) (setStats (incErrors emptyStats) (advance 2 freshWorld)))
  /\ loopBody (sampleConfig (Some 10000)) (sampleEnv accepted None (Some []))
       freshWorld
     = (Ret tt, emit (EvSleep 10000) (advance 2 freshWorld))
  /\ 5000 < POLLING_INTERVAL (sampleConfig (Some 10000)).
Proof. repeat split. Qed.

(** With the default interval of 3000 ms the same wait of 5000 ms is the
    longer one. *)
Example backoff_longer_than_default_interval :
  POLLING_INTERVAL (sampleConfig None) = 3000
  /\ loopBody (sampleConfig None) (sampleEnv accepted None None) freshWorld
     = (Ret tt,
        emit (EvSleep 5000) (setStats (incErrors emptyStats) (advance 2 freshWorld))).
Proof. repeat split. Qed.

(** * Further properties *)

(** ** The scan *)

(** What checking one account can do: the list grows by the account or
    stays, the map stays or loses the account's own entry, which was then
    at least ten minutes old, and nothing else changes. *)
Lemma checkAccount_cases env account pendingRequests w :
  exists result w',
    checkAccount env account pendingRequests w = (Ret result, w')
    /\ stats w' = stats w /\ events w' = events w /\ isRunning w' = isRunning w
    /\ (processedRequests w' = processedRequests w
        \/ exists info,
             processedRequests w !! pubkey account = Some info
             /\ 10 * 60 * 1000 <= dateNow env (calls w) - ProcessedInfo.timestamp info
             /\ processedRequests w' = delete (pubkey account) (processedRequests w))
    /\ (result = pendingRequests
        \/ (result = pendingRequests ++ [account]
            /\ pendingByData (data account) = true
            /\ processedRequests w' !! pubkey account = None)).
Proof.
  rewrite checkAccount_run. destruct (_ || _).
  { exists pendingRequests, w. repeat split; auto. }
  rewrite isRequestPending_run.
  destruct (processedRequests w !! pubkey account) as [info|] eqn:Hget.
  - destruct (Z.ltb_spec (dateNow env (calls w) - ProcessedInfo.timestamp info)
                (10 * 60 * 1000)) as [Hlt|Hge].
    + eexists _, _. split; [reflexivity|]. repeat split; auto.
    + assert (exists info0,
                Some info = Some info0
                /\ 10 * 60 * 1000 <= dateNow env (calls w) - ProcessedInfo.timestamp info0
                /\ delete (pubkey account) (processedRequests w)
                   = delete (pubkey account) (processedRequests w)) as Hevict
        by (exists info; repeat split; assumption).
      destruct (pendingByData (data account)) eqn:Hp;
        eexists _, _; (split; [reflexivity|]);
        (split; [reflexivity|]); (split; [reflexivity|]); (split; [reflexivity|]);
        (split; [right; exact Hevict|]).
      * right. split; [reflexivity|]. split; [reflexivity|]. apply lookup_delete_eq.
      * now left.
  - destruct (pendingByData (data account)) eqn:Hp;
      eexists _, _; (split; [reflexivity|]); repeat split; auto.
Qed.

Lemma scanAccounts_spec env accounts :
  forall pendingRequests w,
    exists added w',
      scanAccounts env accounts pendingRequests w = (Ret (pendingRequests ++ added), w')
      /\ stats w' = stats w /\ events w' = events w /\ isRunning w' = isRunning w
      /\ added `sublist_of` accounts
      /\ Forall (fun account =>
                   pendingByData (data account) = true
                   /\ processedRequests w' !! pubkey account = None) added
      /\ forall key,
           processedRequests w' !! key = processedRequests w !! key
           \/ (processedRequests w' !! key = None
               /\ exists account info n,
                    account ∈ accounts /\ pubkey account = key
                    /\ processedRequests w !! key = Some info
                    /\ 10 * 60 * 1000 <= dateNow env n - ProcessedInfo.timestamp info).
Proof.
  induction accounts as [|account rest IH]; intros pendingRequests w.
  - exists [], w. cbn. unfold ret. rewrite app_nil_r.
    repeat split; auto; constructor.
  - cbn [scanAccounts].
    destruct (checkAccount_cases env account pendingRequests w)
      as (result & w1 & Hcheck & Hs1 & He1 & Hr1 & Hmap1 & Hres1).
    rewrite (bind_Ret _ _ _ _ _ Hcheck).
    destruct (IH result w1) as (added & w' & Hscan & Hs & He & Hr & Hsub & Hall & Hkeys).
    assert (forall key,
              processedRequests w' !! key = processedRequests w !! key
              \/ (processedRequests w' !! key = None
                  /\ exists acc info n,
                       acc ∈ account :: rest /\ pubkey acc = key
                       /\ processedRequests w !! key = Some info
                       /\ 10 * 60 * 1000 <= dateNow env n - ProcessedInfo.timestamp info))
      as Hkeys'.
    { intros key. destruct (Hkeys key) as [Hsame|(Hnone & acc & info & n & Hin & Hk & Hget & Hold)].
      - destruct Hmap1 as [Hm|(info & Hget & Hold & Hm)].
        + left. now rewrite Hsame, Hm.
        + rewrite Hsame, Hm.
          destruct (decide (pubkey account = key)) as [<-|Hne].
          * rewrite lookup_delete_eq. right. split; [reflexivity|].
            exists account, info, (calls w). repeat split; auto. left.
          * left. now apply lookup_delete_ne.
      - destruct Hmap1 as [Hm|(info1 & Hget1 & Hold1 & Hm)].
        + right. split; [assumption|]. exists acc, info, n.
          rewrite <- Hm. repeat split; auto. now right.
        + rewrite Hm in Hget.
          destruct (decide (pubkey account = key)) as [Heq|Hne].
          * rewrite <- Heq, lookup_delete_eq in Hget. discriminate.
          * rewrite lookup_delete_ne in Hget by assumption.
            right. split; [assumption|]. exists acc, info, n.
            repeat split; auto. now right. }
    destruct Hres1 as [->|(-> & Hp & Hnone)].
    + exists added, w'. split; [exact Hscan|].
      repeat (split; [congruence|]).
      split; [now apply sublist_cons|]. split; [exact Hall|exact Hkeys'].
    + exists (account :: added), w'. split.
      { rewrite Hscan. now rewrite <- app_assoc. }
      repeat (split; [congruence|]).
      split; [now apply sublist_skip|]. split; [|exact Hkeys'].
      constructor; [|exact Hall]. split; [exact Hp|].
      destruct (Hkeys (pubkey account)) as [Hsame|[Hn _]]; [|exact Hn].
      now rewrite Hsame.
Qed.

(** X1. The scan returns the accounts it was given that passed the check,
    in the order of the listing: each one starts with the request
    discriminator, holds a zero status octet behind its callback data and
    has no entry in the map once the scan is over, so the duplicate check
    of the pipeline will not refuse it. The scan never throws. *)
Theorem pending_list_sound env accounts w :
  exists pending w',
    scanAccounts env accounts [] w = (Ret pending, w')
    /\ pending `sublist_of` accounts
    /\ Forall (fun account =>
                 slice (data account) 0 8 = requestDiscriminator
                 /\ (exists len,
                       readUInt32LE (data account) 104 = Ret len
                       /\ readUInt8 (data account) (8 + 32 + 32 + 32 + 4 + len + 8) = Ret 0)
                 /\ processedRequests w' !! pubkey account = None) pending.
Proof.
  destruct (scanAccounts_spec env accounts [] w)
    as (added & w' & Hscan & _ & _ & _ & Hsub & Hall & _).
  exists added, w'. split; [exact Hscan|]. split; [exact Hsub|].
  eapply Forall_impl; [exact Hall|].
  intros account (Hp & Hnone). apply pendingByData_true in Hp as (Htag & Hst).
  repeat split; assumption.
Qed.

(** X2. The scan never adds or changes an entry of the map and touches
    neither the counters nor the events: an entry it does not keep
    belonged to a listed address and was at least ten minutes old at
    some clock read. *)
Theorem scan_only_evicts env accounts w :
  stats (snd (scanAccounts env accounts [] w)) = stats w
  /\ events (snd (scanAccounts env accounts [] w)) = events w
  /\ forall key,
       processedRequests (snd (scanAccounts env accounts [] w)) !! key
       = processedRequests w !! key
       \/ (processedRequests (snd (scanAccounts env accounts [] w)) !! key = None
           /\ exists account info n,
                account ∈ accounts /\ pubkey account = key
                /\ processedRequests w !! key = Some info
                /\ 10 * 60 * 1000 <= dateNow env n - ProcessedInfo.timestamp info).
Proof.
  destruct (scanAccounts_spec env accounts [] w)
    as (added & w' & Hscan & Hs & He & _ & _ & _ & Hkeys).
  rewrite Hscan. cbn [snd]. repeat split; assumption.
Qed.

(** ** Lifting a relation between worlds from the steps to the loop *)

Section Lifting.

Context (cfg : Config) (env : Env) (R : World -> World -> Prop).

Hypothesis R_refl : forall w, R w w.
Hypothesis R_trans : forall w1 w2 w3, R w1 w2 -> R w2 w3 -> R w1 w3.
Hypothesis R_calls : forall n w, R w (setCalls n w).
Hypothesis R_sleep : forall ms w, R w (emit (EvSleep ms) w).
Hypothesis R_error : forall w, R w (setStats (incErrors (stats w)) w).
Hypothesis R_scan :
  forall accounts pendingRequests w,
    R w (snd (scanAccounts env accounts pendingRequests w)).
Hypothesis R_process :
  forall account w, R w (snd (processRequestAccount cfg env account w)).

Lemma lift_processAccounts accounts :
  forall count w, R w (snd (processAccounts cfg env accounts count w)).
Proof.
  induction accounts as [|account rest IH]; intros count w; [apply R_refl|].
  rewrite processAccounts_step.
  pose proof (R_process account w) as Hp.
  destruct (processRequestAccount cfg env account w) as [[[|]|e] w1]; cbn [snd] in Hp.
  - eapply R_trans; [exact Hp|]. eapply R_trans; [apply R_sleep|apply IH].
  - eapply R_trans; [exact Hp|apply IH].
  - eapply R_trans; [exact Hp|]. eapply R_trans; [apply R_error|apply IH].
Qed.

Lemma lift_monitorAndProcess w : R w (snd (monitorAndProcess cfg env w)).
Proof.
  rewrite monitorAndProcess_run, getPendingRequestAccounts_run.
  assert (R w (advance 1 (advance 1 w))) as H2.
  { eapply R_trans; apply R_calls. }
  destruct (rpcGetProgramAccounts env (calls (advance 1 w))) as [accounts|]; [|exact H2].
  pose proof (R_scan accounts [] (advance 1 (advance 1 w))) as Hscan.
  destruct (scanAccounts env accounts [] (advance 1 (advance 1 w)))
    as [[[|account rest]|e] w1]; cbn [snd] in Hscan |- *;
    try (eapply R_trans; [exact H2|exact Hscan]).
  pose proof (lift_processAccounts (account :: rest) 0 w1) as Hloop.
  destruct (processAccounts cfg env (account :: rest) 0 w1) as [[count|e] w2];
    cbn [snd] in Hloop |- *.
  - destruct (0 <? count); cbn [snd];
      (eapply R_trans; [exact H2|]); (eapply R_trans; [exact Hscan|]);
      (eapply R_trans; [exact Hloop|apply R_calls]).
  - eapply R_trans; [exact H2|]. eapply R_trans; [exact Hscan|exact Hloop].
Qed.

Lemma lift_loopBody w : R w (snd (loopBody cfg env w)).
Proof.
  unfold loopBody, tryCatch. unfold bind at 1.
  pose proof (lift_monitorAndProcess w) as Hm.
  destruct (monitorAndProcess cfg env w) as [[[]|e] w1]; cbn [snd] in Hm |- *.
  - eapply R_trans; [exact Hm|apply R_sleep].
  - eapply R_trans; [exact Hm|]. eapply R_trans; [apply R_error|apply R_sleep].
Qed.

Lemma lift_mainLoop turns : forall w, R w (snd (mainLoop cfg env turns w)).
Proof.
  induction turns as [|turns IH]; intros w; [apply R_refl|].
  cbn [mainLoop]. unfold bind at 1, get.
  destruct (isRunning w); [|apply R_refl].
  destruct (loopBody_returns cfg env w) as (w1 & Hbody & _).
  pose proof (lift_loopBody w) as Hb. rewrite Hbody in Hb. cbn [snd] in Hb.
  rewrite (bind_Ret _ _ _ _ _ Hbody). eapply R_trans; [exact Hb|apply IH].
Qed.

End Lifting.

(** ** Counters and transactions *)

Lemma accounted_refl w : accounted w w.
Proof. unfold accounted. rewrite Nat.sub_diag. cbn. lia. Qed.

Lemma accounted_trans w1 w2 w3 : accounted w1 w2 -> accounted w2 w3 -> accounted w1 w3.
Proof. unfold accounted. lia. Qed.

Lemma accounted_same w w' :
  events w' = events w ->
  requestsFulfilled (stats w') = requestsFulfilled (stats w) ->
  requestsProcessed (stats w') = requestsProcessed (stats w) ->
  accounted w w'.
Proof.
  intros He Hf Hp. unfold accounted, submissions. rewrite He, Hf, Hp, Nat.sub_diag.
  cbn. lia.
Qed.

Lemma accounted_sleep ms w : accounted w (emit (EvSleep ms) w).
Proof.
  unfold accounted, submissions. cbn [events emit stats].
  rewrite List.filter_app, length_app. cbn. rewrite Nat.add_0_r, Nat.sub_diag. cbn. lia.
Qed.

Lemma accounted_scan env accounts pendingRequests w :
  accounted w (snd (scanAccounts env accounts pendingRequests w)).
Proof.
  destruct (scanAccounts_spec env accounts pendingRequests w)
    as (added & w' & Hscan & Hs & He & _).
  rewrite Hscan. cbn [snd]. apply accounted_same; congruence.
Qed.

Lemma accounted_process cfg env account w :
  accounted w (snd (processRequestAccount cfg env account w)).
Proof.
  destruct (processedRequests w !! pubkey account) as [info|] eqn:Hget.
  { rewrite (processRequestAccount_known _ _ _ _ _ Hget). apply accounted_refl. }
  destruct (String.eqb (toHex (slice (data account) 0 8)) requestDiscriminatorHex)
    eqn:Htag.
  2:{ rewrite processRequestAccount_other; [apply accounted_refl|assumption|].
      intros Heq. apply discriminator_eqb in Heq. congruence. }
  apply discriminator_eqb in Htag.
  destruct (parseRequest (data account)) as [request|e] eqn:Hparse.
  2:{ rewrite (processRequestAccount_unreadable _ _ _ _ _ Hget Htag Hparse).
      apply accounted_refl. }
  rewrite (processRequestAccount_run _ _ _ _ _ Hget Htag Hparse).
  destruct (cliProve env (calls w) _) as [proofResult|];
    [|now apply accounted_same].
  destruct (cliExec env (S (calls w)) _); try (now apply accounted_same).
  destruct (submit_after_mark cfg env account request proofResult w)
    as (result & w' & Hrun & _ & Hstats & _ & Hsend).
  rewrite Hrun.
  destruct Hsend as [[-> Hev]|(transaction & Hev)].
  - cbn [snd]. unfold accounted. rewrite (submissions_same_events _ _ Hev), Hstats.
    rewrite Nat.sub_diag. cbn. lia.
  - pose proof (submissions_emit_send _ _ _ Hev) as Hsub.
    destruct result; cbn [snd]; unfold accounted;
      change (submissions (setStats _ w')) with (submissions w');
      rewrite ?Hsub; cbn [stats setStats]; rewrite Hstats;
      replace (S (submissions w) - submissions w)%nat with 1%nat by lia; cbn; lia.
Qed.

(** X3. Over a whole run of [start], and over every cycle in it, the
    number of transactions sent never decreases, [requestsFulfilled]
    grows by at most the number of transactions sent and
    [requestsProcessed] by at least that number: a request is never
    counted as fulfilled without a transaction, nor a transaction sent
    without being counted as processed. *)
Theorem counters_account_for_sends cfg env turns w :
  accounted w (snd (start cfg env turns w))
  /\ accounted w (snd (monitorAndProcess cfg env w)).
Proof.
  assert (forall n w0, accounted w0 (setCalls n w0)) as Hcalls
    by (intros; now apply accounted_same).
  assert (forall w0, accounted w0 (setStats (incErrors (stats w0)) w0)) as Herr
    by (intros; now apply accounted_same).
  split.
  - unfold start, bind, modify, DateNow, bind, nextCall, ret, modifyStats, modify.
    cbn [calls setIsRunning setCalls stats].
    eapply accounted_trans;
      [|apply (lift_mainLoop cfg env accounted accounted_refl accounted_trans Hcalls
                 accounted_sleep Herr (accounted_scan env) (accounted_process cfg env))].
    now apply accounted_same.
  - apply (lift_monitorAndProcess cfg env accounted accounted_refl accounted_trans Hcalls
             accounted_sleep Herr (accounted_scan env) (accounted_process cfg env)).
Qed.

(** ** The pipeline and the map *)

(** X4. [processRequestAccount] never deletes or overwrites an entry of
    the map: it leaves the map as it is, or adds an entry for its own
    address, which had none. Entries of other addresses are never
    touched. *)
Theorem pipeline_only_adds_own_entry cfg env account w :
  processedRequests (snd (processRequestAccount cfg env account w)) = processedRequests w
  \/ (processedRequests w !! pubkey account = None
      /\ exists request proofResult,
           parseRequest (data account) = Ret request
           /\ cliProve env (calls w) (toHex (Request.seed request)) = Some proofResult
           /\ processedRequests (snd (processRequestAccount cfg env account w))
              = <[pubkey account :=
                    processedEntry request proofResult (dateNow env (2 + calls w))]>
                  (processedRequests w)).
Proof.
  destruct (processedRequests w !! pubkey account) as [info|] eqn:Hget.
  { left. now rewrite (processRequestAccount_known _ _ _ _ _ Hget). }
  destruct (String.eqb (toHex (slice (data account) 0 8)) requestDiscriminatorHex)
    eqn:Htag.
  2:{ left. rewrite processRequestAccount_other; [reflexivity|assumption|].
      intros Heq. apply discriminator_eqb in Heq. congruence. }
  apply discriminator_eqb in Htag.
  destruct (parseRequest (data account)) as [request|e] eqn:Hparse.
  2:{ left. now rewrite (processRequestAccount_unreadable _ _ _ _ _ Hget Htag Hparse). }
  rewrite (processRequestAccount_run _ _ _ _ _ Hget Htag Hparse).
  destruct (cliProve env (calls w) _) as [proofResult|] eqn:Hprove; [|now left].
  destruct (cliExec env (S (calls w)) _); try (now left).
  destruct (submit_after_mark cfg env account request proofResult w)
    as (result & w' & Hrun & Hmap & _).
  rewrite Hrun. right. split; [reflexivity|]. exists request, proofResult.
  split; [reflexivity|]. split; [exact Hprove|].
  destruct result; exact Hmap.
Qed.

(** X5. A pending request whose data ends before its request index (the
    scan accepts it, the field reads of the pipeline throw) costs one
    count of [errors] per cycle and nothing else: no CLI call, no entry,
    no transaction. With no entry written it is picked up again by the
    next cycle. *)
Theorem unreadable_request_counts_an_error cfg env account w e :
  processedRequests w !! pubkey account = None ->
  pendingByData (data account) = true ->
  parseRequest (data account) = Throw e ->
  rpcGetProgramAccounts env (S (calls w)) = Some [account] ->
  monitorAndProcess cfg env w
  = (Ret tt, setStats (incErrors (stats w)) (advance 3 w)).
Proof.
  intros Hfresh Hpending Hparse Hlist.
  apply pendingByData_true in Hpending as Hp. destruct Hp as (Htag & len & Hlen & Hst).
  rewrite monitorAndProcess_run, getPendingRequestAccounts_run.
  change (calls (advance 1 w)) with (S (calls w)). rewrite Hlist.
  cbn [scanAccounts]. unfold bind at 1.
  rewrite checkAccount_run, isRequestPending_run.
  change (processedRequests (advance 1 (advance 1 w))) with (processedRequests w).
  rewrite Hfresh, Hpending.
  apply discriminator_eqb in Htag as Heqb. rewrite Heqb. cbn [negb].
  apply readUInt32LE_Ret in Hlen.
  destruct (Z.ltb_spec (bufLen (data account)) 32); [lia|]. cbn [orb]. unfold ret at 1.
  cbn [app]. rewrite processAccounts_step.
  rewrite (processRequestAccount_unreadable cfg env account _ e); [|exact Hfresh|exact Htag|exact Hparse].
  reflexivity.
Qed.

Lemma unreadable_request_counts_an_error_witness :
  monitorAndProcess (sampleConfig None) (sampleEnv accepted None (Some [cutAccount])) freshWorld
  = (Ret tt, setStats (incErrors (stats freshWorld)) (advance 3 freshWorld)).
Proof.
  apply (unreadable_request_counts_an_error (sampleConfig None)
           (sampleEnv accepted None (Some [cutAccount])) cutAccount freshWorld RangeError);
    reflexivity.
Defined.


(** ** Cycles and the loop *)

(** X7. A cycle throws exactly when the listing of the program accounts is
    rejected, and then it has changed nothing but made two external
    calls; in every other case it returns, with the running flag as it
    was, the events only extended and no counter decreased. *)
Theorem cycle_fails_only_on_listing cfg env w :
  (rpcGetProgramAccounts env (S (calls w)) = None ->
   monitorAndProcess cfg env w = (Throw RpcError, advance 2 w))
  /\ (rpcGetProgramAccounts env (S (calls w)) <> None ->
      exists w', monitorAndProcess cfg env w = (Ret tt, w') /\ evolves w w').
Proof.
  destruct (monitorAndProcess_outcome cfg env w) as [(w' & Hrun & Hev)|(Hnone & Hrun)].
  - split.
    + intros Hnone. rewrite monitorAndProcess_run, getPendingRequestAccounts_run in *.
      change (calls (advance 1 w)) with (S (calls w)) in *. rewrite Hnone in *.
      discriminate.
    + intros _. eauto.
  - split; [intros _; exact Hrun|]. intros Hsome. contradiction.
Qed.

(** X8. [start] never throws and, the flag being set, makes every turn of
    the loop whatever the errors of the requests and of the cycles; each
    turn adds at least one event, its sleep. Once the flag is cleared the
    loop makes no further turn and changes nothing. *)
Theorem loop_runs_until_flag_cleared cfg env turns w :
  (exists w',
     start cfg env turns w = (Ret tt, w')
     /\ isRunning w' = true
     /\ (length (events w) + turns <= length (events w'))%nat)
  /\ (isRunning w = false -> mainLoop cfg env turns w = (Ret tt, w)).
Proof.
  split; [apply start_keeps_running|].
  intros Hstopped. destruct turns as [|turns]; [reflexivity|].
  cbn [mainLoop]. unfold bind, get. now rewrite Hstopped.
Qed.

(** ** Decoding and encoding *)

(** X9. Decoding gives the fields of a request account back. For data
    laid out as discriminator, subscription, seed, requester,
    length-prefixed callback data, slot, status, number of words, gas
    limit, pool id, request index and request id, followed by anything,
    [isRequestPending] finds the request pending exactly when the status
    octet is 0 and the pipeline reads the subscription, the seed, the
    requester, the pool id, the request index and the request id that
    were laid out. *)
Theorem request_record_decodes subscription seed requester callbackData requestSlot status
    numWords callbackGasLimit poolId requestIndex requestId rest :
  bufLen subscription = 32 -> bufLen seed = 32 -> bufLen requester = 32 ->
  bufLen callbackData <= 4294967295 ->
  bufLen requestSlot = 8 -> bufLen numWords = 4 -> bufLen callbackGasLimit = 8 ->
  0 <= requestIndex <= 4294967295 ->
  bufLen requestId = 32 ->
  pendingByData
    (requestLayout subscription seed requester callbackData requestSlot status numWords
       callbackGasLimit poolId requestIndex requestId ++ rest)
  = Byte.eqb status Init.Byte.x00
  /\ parseRequest
       (requestLayout subscription seed requester callbackData requestSlot status numWords
          callbackGasLimit poolId requestIndex requestId ++ rest)
     = Ret {| Request.subscription := subscription;
              Request.seed := seed;
              Request.requester := requester;
              Request.callbackDataLength := bufLen callbackData;
              Request.poolId := byteVal poolId;
              Request.requestIndex := requestIndex;
              Request.requestId := requestId |}.
Proof.
  intros Hsub Hseed Hreq Hcb Hslot Hwords Hgas Hidx Hid.
  destruct (decode_requestLayout subscription seed requester callbackData requestSlot
              status numWords callbackGasLimit poolId requestIndex requestId rest
              Hsub Hseed Hreq Hcb Hslot Hwords Hgas Hidx Hid) as (Hstatus & Hparse).
  split; [|exact Hparse].
  unfold pendingByData. rewrite Hstatus. destruct status; reflexivity.
Qed.

Lemma request_record_decodes_witness :
  pendingByData sampleRequestData = true
  /\ parseRequest sampleRequestData
     = Ret {| Request.subscription := replicate 32 Init.Byte.x11;
              Request.seed := replicate 32 Init.Byte.x22;
              Request.requester := replicate 32 Init.Byte.x33;
              Request.callbackDataLength := 2;
              Request.poolId := 5;
              Request.requestIndex := 7;
              Request.requestId := replicate 32 Init.Byte.x99 |}.
Proof.
  assert (bufLen [Init.Byte.xaa; Init.Byte.xbb] <= 4294967295) as Hcb
    by (vm_compute; discriminate).
  assert (0 <= 7 <= 4294967295) as Hidx by lia.
  pose proof (request_record_decodes (replicate 32 Init.Byte.x11)
                (replicate 32 Init.Byte.x22) (replicate 32 Init.Byte.x33)
                [Init.Byte.xaa; Init.Byte.xbb] (replicate 8 Init.Byte.x00) Init.Byte.x00
                (le32 1) (replicate 8 Init.Byte.x00) Init.Byte.x05 7
                (replicate 32 Init.Byte.x99) []
                eq_refl eq_refl eq_refl Hcb eq_refl eq_refl eq_refl Hidx eq_refl) as H.
  rewrite app_nil_r in H. exact H.
Defined.

(** X10. The instruction data always has the size
    8 + 4+len(proof) + 4+len(publicKey) + 32 + 1 + 4, also for a request
    id of fewer than 32 octets (read from an account that ends inside its
    request id): the octets of the id are then followed by zero octets up
    to 32, and the pool id and the request index stay at their places. *)
Theorem short_request_id_is_zero_padded (proofBuffer publicKeyBuffer requestId : Buffer)
    (poolId requestIndex : Z) :
  bufLen proofBuffer <= 4294967295 ->
  bufLen publicKeyBuffer <= 4294967295 ->
  bufLen requestId <= 32 ->
  0 <= poolId <= 255 ->
  0 <= requestIndex <= 4294967295 ->
  exists fulfillData,
    encodeFulfillData proofBuffer publicKeyBuffer requestId poolId requestIndex
    = Ret fulfillData
    /\ fulfillData
       = fulfillDiscriminator
         ++ le32 (bufLen proofBuffer) ++ proofBuffer
         ++ le32 (bufLen publicKeyBuffer) ++ publicKeyBuffer
         ++ (requestId ++ replicate (32 - length requestId) Init.Byte.x00)
         ++ [octet poolId]
         ++ le32 requestIndex
    /\ bufLen fulfillData
       = 8 + (4 + bufLen proofBuffer) + (4 + bufLen publicKeyBuffer) + 32 + 1 + 4.
Proof.
  intros Hproof Hkey Hid Hpool Hindex. eexists. split.
  { apply fulfillData_layout_padded; assumption. }
  split; [reflexivity|].
  rewrite !bufLen_app, !bufLen_le32. change (bufLen fulfillDiscriminator) with 8.
  change (bufLen [octet poolId]) with 1.
  unfold bufLen in *. rewrite length_replicate. lia.
Qed.

Lemma short_request_id_is_zero_padded_witness :
  exists fulfillData,
    encodeFulfillData (fromHex "0a0b0c") (fromHex "0102") (replicate 19 Init.Byte.x99) 5 7
    = Ret fulfillData
    /\ fulfillData
       = fulfillDiscriminator
         ++ le32 3 ++ fromHex "0a0b0c"
         ++ le32 2 ++ fromHex "0102"
         ++ (replicate 19 Init.Byte.x99 ++ replicate 13 Init.Byte.x00)
         ++ [octet 5]
         ++ le32 7
    /\ bufLen fulfillData = 58.
Proof.
  assert (bufLen (fromHex "0a0b0c") <= 4294967295) as H1 by (vm_compute; discriminate).
  assert (bufLen (fromHex "0102") <= 4294967295) as H2 by (vm_compute; discriminate).
  assert (bufLen (replicate 19 Init.Byte.x99) <= 32) as H3 by (vm_compute; discriminate).
  assert (0 <= 5 <= 255) as H4 by lia.
  assert (0 <= 7 <= 4294967295) as H5 by lia.
  destruct (short_request_id_is_zero_padded (fromHex "0a0b0c") (fromHex "0102")
              (replicate 19 Init.Byte.x99) 5 7 H1 H2 H3 H4 H5)
    as (fulfillData & Hrun & Hdata & Hlen).
  exists fulfillData. split; [exact Hrun|]. split; [exact Hdata|].
  rewrite Hlen. reflexivity.
Defined.

Lemma octet_byteVal (b : byte) : octet (byteVal b) = b.
Proof. destruct b; reflexivity. Qed.

(** X11. The payload answers the request it was built for. For an
    account laid out as a request, a transaction sent by the pipeline
    carries, after the discriminator, the proof printed by the CLI for
    the seed of this account and the VRF public key, each with its
    little-endian u32 length, and then the request id, the pool id and
    the request index read from this very account; its fifth account is
    the subscription of the account. *)
Theorem payload_carries_request_fields cfg env pubkeyStr subscription seed requester
    callbackData requestSlot status numWords callbackGasLimit poolId requestIndex
    requestId rest proofResult w transaction :
  bufLen subscription = 32 -> bufLen seed = 32 -> bufLen requester = 32 ->
  bufLen callbackData <= 4294967295 ->
  bufLen requestSlot = 8 -> bufLen numWords = 4 -> bufLen callbackGasLimit = 8 ->
  0 <= requestIndex <= 4294967295 ->
  bufLen requestId = 32 ->
  cliProve env (calls w) (toHex seed) = Some proofResult ->
  bufLen (fromHex (ProofResult.proof proofResult)) <= 4294967295 ->
  bufLen (fromHex (vrfPublicKey cfg)) <= 4294967295 ->
  events (snd (processRequestAccount cfg env
                 {| pubkey := pubkeyStr;
                    data := requestLayout subscription seed requester callbackData
                              requestSlot status numWords callbackGasLimit poolId
                              requestIndex requestId ++ rest |} w))
  = events w ++ [EvSend transaction] ->
  instructionData (instruction transaction)
  = fulfillDiscriminator
    ++ le32 (bufLen (fromHex (ProofResult.proof proofResult)))
    ++ fromHex (ProofResult.proof proofResult)
    ++ le32 (bufLen (fromHex (vrfPublicKey cfg))) ++ fromHex (vrfPublicKey cfg)
    ++ requestId
    ++ [poolId]
    ++ le32 requestIndex
  /\ AccountMeta.pubkey <$> keys (instruction transaction) !! 4%nat
     = Some (KeyOfBytes subscription).
Proof.
  intros Hsub Hseed Hreq Hcb Hslot Hwords Hgas Hidx Hid Hprove Hplen Hklen.
  set (account := {| pubkey := pubkeyStr; data := _ |}).
  destruct (decode_requestLayout subscription seed requester callbackData requestSlot
              status numWords callbackGasLimit poolId requestIndex requestId rest
              Hsub Hseed Hreq Hcb Hslot Hwords Hgas Hidx Hid) as (_ & Hparse).
  assert (forall l (x : Event), l = l ++ [x] -> False) as Hgrow.
  { intros l x H. apply (f_equal (@length Event)) in H. rewrite length_app in H.
    cbn in H. lia. }
  destruct (processedRequests w !! pubkey account) as [info|] eqn:Hget.
  { rewrite (processRequestAccount_known _ _ _ _ _ Hget). intros H. now apply Hgrow in H. }
  assert (slice (data account) 0 8 = requestDiscriminator) as Htag.
  { exact (slice_segment [] requestDiscriminator _). }
  rewrite (processRequestAccount_run cfg env account _ w Hget Htag Hparse).
  cbn [Request.seed Request.requestId Request.poolId Request.requestIndex
         Request.subscription].
  rewrite Hprove.
  destruct (cliExec env (S (calls w)) _);
    try (intros H; now apply Hgrow in H).
  destruct (submitFulfillment_effect cfg env (pubkey account) proofResult seed requestId
              (byteVal poolId) requestIndex (KeyOfBytes subscription)
              (markedProcessed env account
                 {| Request.subscription := subscription; Request.seed := seed;
                    Request.requester := requester;
                    Request.callbackDataLength := bufLen callbackData;
                    Request.poolId := byteVal poolId;
                    Request.requestIndex := requestIndex;
                    Request.requestId := requestId |} proofResult w))
    as (result & w' & Hrun & _ & _ & _ & Hsend).
  rewrite Hrun.
  assert (events (snd (match result with
                       | Success _ =>
                           (Ret true, setStats (incRequestsFulfilled (stats w')) w')
                       | Failure => (Ret false, w')
                       end)) = events w') as -> by (destruct result; reflexivity).
  destruct Hsend as [[_ Hev]|(sent & Hev & Hbuilt)].
  { rewrite Hev. intros H. now apply Hgrow in H. }
  rewrite Hev. intros Hsame. apply app_inj_tail in Hsame as [_ [= ->]].
  apply createFulfillmentInstruction_keys in Hbuilt
    as (_ & requestPoolPDA & vrfResultPDA & _ & _ & Hkeys & _ & Hdata).
  split.
  - pose proof (byteVal_bounds poolId) as Hpool.
    rewrite fulfillData_layout_padded in Hdata by (assumption || lia).
    injection Hdata as <-.
    assert (length requestId = 32%nat) as -> by (unfold bufLen in Hid; lia).
    cbn [Nat.sub replicate]. rewrite app_nil_r. now rewrite octet_byteVal.
  - now rewrite Hkeys.
Qed.

Lemma payload_carries_request_fields_witness :
  exists transaction,
    events (snd (processRequestAccount (sampleConfig None)
                   (sampleEnv accepted (Some "signature"%string) None)
                   sampleAccount freshWorld))
    = [EvSend transaction]
    /\ instructionData (instruction transaction)
       = fulfillDiscriminator
         ++ le32 3 ++ fromHex "0a0b0c"
         ++ le32 2 ++ fromHex "0102"
         ++ replicate 32 Init.Byte.x99
         ++ [Init.Byte.x05]
         ++ le32 7.
Proof.
  eexists. split; [vm_compute; reflexivity|].
  assert (bufLen [Init.Byte.xaa; Init.Byte.xbb] <= 4294967295) as Hcb
    by (vm_compute; discriminate).
  assert (0 <= 7 <= 4294967295) as Hidx by lia.
  assert (bufLen (fromHex "0a0b0c") <= 4294967295) as Hp by (vm_compute; discriminate).
  assert (bufLen (fromHex "0102") <= 4294967295) as Hk by (vm_compute; discriminate).
  refine (proj1 (payload_carries_request_fields (sampleConfig None)
                   (sampleEnv accepted (Some "signature"%string) None)
                   (pubkey sampleAccount)
                   (replicate 32 Init.Byte.x11) (replicate 32 Init.Byte.x22)
                   (replicate 32 Init.Byte.x33) [Init.Byte.xaa; Init.Byte.xbb]
                   (replicate 8 Init.Byte.x00) Init.Byte.x00 (le32 1)
                   (replicate 8 Init.Byte.x00) Init.Byte.x05 7
                   (replicate 32 Init.Byte.x99) []
                   {| ProofResult.proof := "0a0b0c"; ProofResult.output := "0d0e" |}
                   freshWorld _
                   eq_refl eq_refl eq_refl Hcb eq_refl eq_refl eq_refl Hidx eq_refl
                   eq_refl Hp Hk _)).
  vm_compute. reflexivity.
Defined.

(** ** Reading what the CLI prints *)

Example split_sample :
  split "," "a,b,,c" = ["a"; "b"; EmptyString; "c"]%string
  /\ split "ab" "xabyabab" = ["x"; "y"; EmptyString; EmptyString]%string
  /\ split "," EmptyString = [EmptyString]
  /\ trim (String (ascii_of_nat 9) " a b  ") = "a b"%string.
Proof. repeat split. Qed.

Example parseProveOutput_sample :
  parseProveOutput (proveOutput "0a0b" "0c")
  = Parsed {| ProofResult.proof := "0a0b"; ProofResult.output := "0c" |}
  /\ parseProveOutput "Proof 0a0b" = NotParsed LineMissing
  /\ parseKeygenOutput ("Secret key:aa" +:+ LF +:+ "Public key: bb")
     = NotParsed TrimOfUndefined.
Proof. repeat split. Qed.

Lemma append_cons (c : ascii) (a b : string) : String c a +:+ b = String c (a +:+ b).
Proof. reflexivity. Qed.

Lemma append_empty (b : string) : EmptyString +:+ b = b.
Proof. reflexivity. Qed.

Lemma startsWith_empty (m : string) : m <> EmptyString -> startsWith m EmptyString = false.
Proof. destruct m; [congruence | reflexivity]. Qed.

Lemma includes_empty (m : string) : m <> EmptyString -> includes m EmptyString = false.
Proof. intros Hm. cbn [includes]. rewrite startsWith_empty by exact Hm. reflexivity. Qed.

Lemma startsWith_length (sub s : string) :
  startsWith sub s = true -> (String.length sub <= String.length s)%nat.
Proof.
  revert s. induction sub as [|a sub IH]; intros s H; cbn [String.length]; [lia|].
  destruct s as [|b s]; cbn [startsWith] in H; [discriminate|].
  apply andb_prop in H. destruct H as [_ H]. apply IH in H. cbn [String.length]. lia.
Qed.

Lemma startsWith_true (sub s : string) :
  startsWith sub s = true -> s = sub +:+ dropChars (String.length sub) s.
Proof.
  revert s. induction sub as [|a sub IH]; intros s H; [reflexivity|].
  destruct s as [|b s]; cbn [startsWith] in H; [discriminate|].
  apply andb_prop in H. destruct H as [Hab H]. apply Ascii.eqb_eq in Hab. subst b.
  cbn [String.length dropChars]. rewrite append_cons. f_equal. apply IH, H.
Qed.

Lemma dropChars_length (n : nat) (s : string) :
  String.length (dropChars n s) = (String.length s - n)%nat.
Proof.
  revert s. induction n as [|n IH]; intros s; cbn [dropChars]; [lia|].
  destruct s as [|c s]; cbn [String.length]; [reflexivity | apply IH].
Qed.

Lemma breakOn_None (sep s : string) :
  breakOn sep s = None <-> includes sep s = false.
Proof.
  induction s as [|c s IH]; cbn [breakOn includes].
  - destruct (startsWith sep EmptyString); cbn; split; congruence.
  - destruct (startsWith sep (String c s)); cbn [orb]; [split; congruence|].
    rewrite <- IH. destruct (breakOn sep s) as [[before after]|]; split; congruence.
Qed.

Lemma breakOn_Some (sep s before after : string) :
  breakOn sep s = Some (before, after) -> s = before +:+ sep +:+ after.
Proof.
  revert before. induction s as [|c s IH]; intros before; cbn [breakOn].
  - destruct (startsWith sep EmptyString) eqn:Hs; [|discriminate].
    intros H. injection H as <- <-. apply startsWith_true, Hs.
  - destruct (startsWith sep (String c s)) eqn:Hs.
    + intros H. injection H as <- <-. apply startsWith_true, Hs.
    + destruct (breakOn sep s) as [[b a]|]; [|discriminate].
      intros H. injection H as <- <-. rewrite append_cons. f_equal. apply IH. reflexivity.
Qed.

Lemma breakOn_shorter (sep s before after : string) :
  sep <> EmptyString -> breakOn sep s = Some (before, after) ->
  (String.length after < String.length s)%nat.
Proof.
  intros Hsep. revert before.
  assert (Hhead : forall t, startsWith sep t = true ->
            (String.length (dropChars (String.length sep) t) < String.length t)%nat).
  { intros t Ht. rewrite dropChars_length. apply startsWith_length in Ht.
    destruct sep; [congruence|]. cbn [String.length] in *. lia. }
  induction s as [|c s IH]; intros before; cbn [breakOn].
  - destruct (startsWith sep EmptyString) eqn:Hs; [|discriminate].
    intros H. injection H as <- <-. apply Hhead, Hs.
  - destruct (startsWith sep (String c s)) eqn:Hs.
    + intros H. injection H as <- <-. apply Hhead, Hs.
    + destruct (breakOn sep s) as [[b a]|]; [|discriminate].
      intros H. injection H as <- <-. specialize (IH b eq_refl). cbn [String.length]. lia.
Qed.

Lemma splitFuel_enough (sep : string) (fuel1 fuel2 : nat) (s : string) :
  sep <> EmptyString ->
  (String.length s <= fuel1)%nat -> (String.length s <= fuel2)%nat ->
  splitFuel fuel1 sep s = splitFuel fuel2 sep s.
Proof.
  intros Hsep. revert fuel2 s.
  induction fuel1 as [|fuel1 IH]; intros fuel2 s H1 H2;
    destruct fuel2 as [|fuel2]; cbn [splitFuel];
    destruct (breakOn sep s) as [[before after]|] eqn:Hb; try reflexivity;
    pose proof (breakOn_shorter _ _ _ _ Hsep Hb) as Hlt; try lia.
  f_equal. apply IH; lia.
Qed.

Lemma split_unfold (sep s : string) :
  sep <> EmptyString ->
  split sep s = match breakOn sep s with
                | None => [s]
                | Some (before, after) => before :: split sep after
                end.
Proof.
  intros Hsep. unfold split.
  destruct (String.length s) as [|n] eqn:Hn; cbn [splitFuel];
    destruct (breakOn sep s) as [[before after]|] eqn:Hb; try reflexivity;
    pose proof (breakOn_shorter _ _ _ _ Hsep Hb) as Hlt; try lia.
  f_equal. apply splitFuel_enough; [exact Hsep | lia | lia].
Qed.

Lemma split_ind (sep : string) (P : string -> list string -> Prop) :
  sep <> EmptyString ->
  (forall s, breakOn sep s = None -> P s [s]) ->
  (forall s before after, breakOn sep s = Some (before, after) ->
     P after (split sep after) -> P s (before :: split sep after)) ->
  forall s, P s (split sep s).
Proof.
  intros Hsep Hnone Hsome s.
  remember (String.length s) as n eqn:Hn. revert s Hn.
  induction n as [n IH] using lt_wf_ind. intros s Hn.
  rewrite split_unfold by exact Hsep.
  destruct (breakOn sep s) as [[before after]|] eqn:Hb.
  - apply Hsome; [exact Hb|].
    apply (IH (String.length after)); [|reflexivity].
    subst n. eapply breakOn_shorter; eauto.
  - apply Hnone, Hb.
Qed.

Lemma split_not_nil (sep s : string) : sep <> EmptyString -> split sep s <> [].
Proof.
  intros Hsep. rewrite split_unfold by exact Hsep.
  destruct (breakOn sep s) as [[before after]|]; discriminate.
Qed.

Lemma partAfter_None (marker line : string) :
  marker <> EmptyString ->
  partAfter marker line = None <-> includes marker line = false.
Proof.
  intros Hm. unfold partAfter. rewrite split_unfold by exact Hm.
  rewrite <- breakOn_None.
  destruct (breakOn marker line) as [[before after]|] eqn:Hb.
  - pose proof (split_not_nil marker after Hm) as Hne.
    destruct (split marker after); [congruence|]. cbn. split; discriminate.
  - cbn. split; reflexivity.
Qed.

Lemma startsWith_before (c : ascii) (m a b : string) :
  avoids c m = true -> startsWith m (a +:+ String c b) = startsWith m a.
Proof.
  revert a. induction m as [|x m IH]; intros a Hm; [reflexivity|].
  cbn [avoids] in Hm. apply andb_prop in Hm. destruct Hm as [Hx Hm].
  destruct a as [|y a]; rewrite ?append_cons, ?append_empty; cbn [startsWith].
  - apply negb_true_iff in Hx. rewrite Hx. reflexivity.
  - rewrite IH by exact Hm. reflexivity.
Qed.

Lemma includes_around (c : ascii) (m a b : string) :
  m <> EmptyString -> avoids c m = true ->
  includes m (a +:+ String c b) = includes m a || includes m b.
Proof.
  intros Hne Hm. induction a as [|y a IH].
  - rewrite includes_empty by exact Hne. rewrite append_empty. cbn [includes orb].
    rewrite <- (append_empty (String c b)) at 1.
    rewrite startsWith_before by exact Hm.
    rewrite startsWith_empty by exact Hne. reflexivity.
  - rewrite append_cons. cbn [includes]. rewrite IH.
    rewrite <- append_cons.
    rewrite startsWith_before by exact Hm. rewrite orb_assoc. reflexivity.
Qed.

Lemma lines_include (m s : string) :
  m <> EmptyString -> avoids (ascii_of_nat 10) m = true ->
  existsb (includes m) (split LF s) = includes m s.
Proof.
  intros Hne Hm. apply (split_ind LF (fun s parts => existsb (includes m) parts = includes m s)).
  - discriminate.
  - intros t _. cbn [existsb]. apply orb_false_r.
  - intros t before after Hb IH. cbn [existsb]. rewrite IH.
    apply breakOn_Some in Hb. subst t. symmetry. apply includes_around; assumption.
Qed.

Lemma find_existsb {A : Type} (p : A -> bool) (l : list A) :
  existsb p l = match List.find p l with Some _ => true | None => false end.
Proof.
  induction l as [|x l IH]; [reflexivity|]. cbn [existsb List.find].
  destruct (p x); [reflexivity | exact IH].
Qed.

Lemma eqb_whiteSpace (x c : ascii) :
  isWhiteSpace x = false -> isWhiteSpace c = true -> Ascii.eqb x c = false.
Proof.
  intros Hx Hc. destruct (Ascii.eqb x c) eqn:E; [|reflexivity].
  apply Ascii.eqb_eq in E. congruence.
Qed.

Lemma includes_trimStart (m s : string) :
  startsTight m = true -> includes m (trimStart s) = includes m s.
Proof.
  intros Hm. destruct m as [|x m]; [discriminate|]. cbn [startsTight] in Hm.
  apply negb_true_iff in Hm.
  induction s as [|c s IH]; [reflexivity|]. cbn [trimStart].
  destruct (isWhiteSpace c) eqn:Hc; [|reflexivity].
  rewrite IH. cbn [includes startsWith]. rewrite (eqb_whiteSpace _ _ Hm Hc). reflexivity.
Qed.

Lemma startsWith_trimEnd (m s : string) :
  endsTight m = true -> startsWith m (trimEnd s) = startsWith m s.
Proof.
  revert s. induction m as [|x m IH]; intros s Hm; [discriminate|].
  destruct s as [|c s]; [reflexivity|]. cbn [trimEnd].
  destruct m as [|x' m].
  - cbn [endsTight] in Hm. apply negb_true_iff in Hm.
    destruct (trimEnd s); [|reflexivity].
    destruct (isWhiteSpace c) eqn:Hc; cbn [startsWith]; [|reflexivity].
    rewrite (eqb_whiteSpace _ _ Hm Hc). reflexivity.
  - assert (Hm' : endsTight (String x' m) = true) by exact Hm.
    specialize (IH s Hm').
    destruct (trimEnd s) as [|k kept] eqn:Hk.
    + cbn [startsWith] in IH. cbn [startsWith]. rewrite <- IH.
      destruct (isWhiteSpace c); cbn [startsWith]; rewrite ?andb_false_r; reflexivity.
    + cbn [startsWith]. cbn [startsWith] in IH. rewrite IH. reflexivity.
Qed.

Lemma includes_trimEnd (m s : string) :
  endsTight m = true -> includes m (trimEnd s) = includes m s.
Proof.
  intros Hm. assert (Hne : m <> EmptyString) by (destruct m; [discriminate | congruence]).
  induction s as [|c s IH]; [reflexivity|].
  cbn [includes]. rewrite <- IH, <- (startsWith_trimEnd m (String c s)) by exact Hm.
  cbn [trimEnd]. destruct (trimEnd s) as [|k kept].
  - destruct (isWhiteSpace c); [|reflexivity].
    rewrite includes_empty, startsWith_empty by exact Hne. reflexivity.
  - reflexivity.
Qed.

Lemma includes_trim (m s : string) :
  startsTight m = true -> endsTight m = true -> includes m (trim s) = includes m s.
Proof.
  intros H1 H2. unfold trim. rewrite includes_trimEnd, includes_trimStart; auto.
Qed.

(** The line that [find] returns for a marker, when the text has one. *)
Lemma find_marker (m stdout : string) :
  m <> EmptyString -> avoids (ascii_of_nat 10) m = true ->
  startsTight m = true -> endsTight m = true ->
  match List.find (includes m) (split LF (trim stdout)) with
  | Some line => includes m stdout = true /\ includes m line = true
  | None => includes m stdout = false
  end.
Proof.
  intros Hne Hlf H1 H2.
  pose proof (lines_include m (trim stdout) Hne Hlf) as H.
  rewrite find_existsb, includes_trim in H by assumption.
  destruct (List.find (includes m) (split LF (trim stdout))) as [line|] eqn:Hf.
  - split; [auto|]. apply find_some in Hf. apply Hf.
  - auto.
Qed.

(** X12. The output of [prove] is read exactly when it includes both
    ['Proof:'] and ['Output:']; otherwise [generateProof] throws its own
    parse error, and never calls [trim] on [undefined]. *)
Theorem prove_output_read_iff_marked (stdout : string) :
  if includes "Proof:" stdout && includes "Output:" stdout
  then exists result, parseProveOutput stdout = Parsed result
  else parseProveOutput stdout = NotParsed LineMissing.
Proof.
  unfold parseProveOutput.
  pose proof (find_marker "Proof:" stdout ltac:(discriminate) eq_refl eq_refl eq_refl) as Hp.
  pose proof (find_marker "Output:" stdout ltac:(discriminate) eq_refl eq_refl eq_refl) as Ho.
  destruct (List.find (includes "Proof:") (split LF (trim stdout))) as [proofLine|].
  - destruct Hp as [-> Hp]. cbn [andb].
    destruct (List.find (includes "Output:") (split LF (trim stdout))) as [outputLine|].
    + destruct Ho as [-> Ho].
      destruct (partAfter "Proof:" proofLine) as [proof|] eqn:E1.
      * destruct (partAfter "Output:" outputLine) as [output|] eqn:E2; [eauto|].
        apply partAfter_None in E2; [congruence | discriminate].
      * apply partAfter_None in E1; [congruence | discriminate].
    + rewrite Ho. reflexivity.
  - rewrite Hp. reflexivity.
Qed.

Lemma parseProveOutput_shape (stdout : string) :
  parseProveOutput stdout
  = readTwoLines "Proof:" "Output:" "Proof:" "Output:"
      (fun proof output => {| ProofResult.proof := proof; ProofResult.output := output |})
      stdout.
Proof. reflexivity. Qed.

Lemma parseKeygenOutput_shape (stdout : string) :
  parseKeygenOutput stdout
  = readTwoLines "Secret key:" "Public key:" "Secret key: " "Public key: "
      (fun secret public => {| secretKey := secret; publicKey := public |})
      stdout.
Proof. reflexivity. Qed.

Lemma avoids_app (c : ascii) (a b : string) :
  avoids c (a +:+ b) = avoids c a && avoids c b.
Proof.
  induction a as [|x a IH]; [reflexivity|].
  rewrite append_cons. cbn [avoids]. rewrite IH, andb_assoc. reflexivity.
Qed.

Lemma startsWith_avoids (c : ascii) (m s : string) :
  avoids c s = true -> startsWith m s = true -> avoids c m = true.
Proof.
  revert s. induction m as [|x m IH]; intros s Hs H; [reflexivity|].
  destruct s as [|y s]; cbn [startsWith] in H; [discriminate|].
  apply andb_prop in H. destruct H as [Hxy H]. apply Ascii.eqb_eq in Hxy. subst y.
  cbn [avoids] in *. apply andb_prop in Hs. destruct Hs as [-> Hs]. eauto.
Qed.

Lemma includes_avoids (c : ascii) (m s : string) :
  avoids c m = false -> avoids c s = true -> includes m s = false.
Proof.
  intros Hm. induction s as [|y s IH]; intros Hs; cbn [includes].
  - destruct (startsWith m EmptyString) eqn:E; [|reflexivity].
    apply (startsWith_avoids c) in E; [congruence | reflexivity].
  - destruct (startsWith m (String y s)) eqn:E.
    + apply (startsWith_avoids c) in E; [congruence | exact Hs].
    + cbn [avoids] in Hs. apply andb_prop in Hs. destruct Hs as [_ Hs]. auto.
Qed.

Lemma breakOn_first (c : ascii) (a b : string) :
  avoids c a = true ->
  breakOn (String c EmptyString) (a +:+ String c b) = Some (a, b).
Proof.
  induction a as [|x a IH]; intros Ha.
  - rewrite append_empty. cbn [breakOn startsWith]. rewrite Ascii.eqb_refl. reflexivity.
  - cbn [avoids] in Ha. apply andb_prop in Ha. destruct Ha as [Hx Ha].
    rewrite append_cons. cbn [breakOn startsWith].
    rewrite Ascii.eqb_sym. apply negb_true_iff in Hx. rewrite Hx. cbn [andb].
    rewrite IH by exact Ha. reflexivity.
Qed.

Lemma split_LF_two (line1 line2 : string) :
  avoids (ascii_of_nat 10) line1 = true -> avoids (ascii_of_nat 10) line2 = true ->
  split LF (line1 +:+ LF +:+ line2) = [line1; line2].
Proof.
  intros H1 H2. assert (Hne : LF <> EmptyString) by discriminate.
  rewrite split_unfold by exact Hne.
  unfold LF at 1 2. rewrite append_cons, append_empty, breakOn_first by exact H1.
  rewrite split_unfold by exact Hne.
  assert (Hnone : breakOn LF line2 = None).
  { apply breakOn_None. apply (includes_avoids (ascii_of_nat 10)); [reflexivity | exact H2]. }
  rewrite Hnone. reflexivity.
Qed.

Lemma trimEnd_app (a b : string) :
  trimEnd b <> EmptyString -> trimEnd (a +:+ b) = a +:+ trimEnd b.
Proof.
  intros Hb. induction a as [|x a IH]; [reflexivity|].
  rewrite !append_cons. cbn [trimEnd]. rewrite IH.
  destruct (a +:+ trimEnd b) eqn:E; [|reflexivity].
  destruct a; [|discriminate]. rewrite append_empty in E. congruence.
Qed.

Lemma trimEnd_tight_LF (line : string) :
  endsTight line = true -> trimEnd (line +:+ LF) = line.
Proof.
  induction line as [|x line IH]; intros H; [discriminate|].
  rewrite append_cons. cbn [trimEnd]. destruct line as [|y line].
  - cbn [endsTight] in H. apply negb_true_iff in H.
    rewrite append_empty. cbn. rewrite H. reflexivity.
  - rewrite IH by exact H. reflexivity.
Qed.

Lemma trim_two_lines (line1 line2 : string) :
  startsTight line1 = true -> endsTight line2 = true ->
  trim (line1 +:+ LF +:+ line2 +:+ LF) = line1 +:+ LF +:+ line2.
Proof.
  intros H1 H2. unfold trim.
  assert (Hstart : trimStart (line1 +:+ LF +:+ line2 +:+ LF) = line1 +:+ LF +:+ line2 +:+ LF).
  { destruct line1 as [|x line1]; [discriminate|]. cbn [startsTight] in H1.
    apply negb_true_iff in H1. rewrite append_cons. cbn [trimStart]. rewrite H1. reflexivity. }
  rewrite Hstart.
  assert (Hlast : trimEnd (line2 +:+ LF) = line2) by (apply trimEnd_tight_LF, H2).
  assert (Hne : line2 <> EmptyString) by (destruct line2; [discriminate | congruence]).
  assert (H3 : trimEnd (LF +:+ line2 +:+ LF) = LF +:+ line2).
  { rewrite trimEnd_app; rewrite Hlast; [reflexivity | exact Hne]. }
  rewrite trimEnd_app; rewrite H3; [reflexivity | discriminate].
Qed.

Lemma partAfter_label (marker value : string) :
  marker <> EmptyString -> includes marker value = false ->
  partAfter marker (marker +:+ value) = Some value.
Proof.
  intros Hne Hv. unfold partAfter. rewrite split_unfold by exact Hne.
  assert (Hhead : breakOn marker (marker +:+ value) = Some (EmptyString, value)).
  { assert (Hs : startsWith marker (marker +:+ value) = true).
    { clear. induction marker as [|x m IH]; [reflexivity|].
      rewrite append_cons. cbn [startsWith]. rewrite Ascii.eqb_refl. exact IH. }
    assert (Hd : dropChars (String.length marker) (marker +:+ value) = value).
    { clear. induction marker as [|x m IH]; [reflexivity|].
      rewrite append_cons. exact IH. }
    destruct marker as [|x m]; [congruence|].
    rewrite append_cons in *. cbn [breakOn]. rewrite Hs, Hd. reflexivity. }
  rewrite Hhead, split_unfold by exact Hne.
  apply breakOn_None in Hv. rewrite Hv. reflexivity.
Qed.

(** A text made of two lines is read as the two values after the
    markers. *)
Lemma readTwoLines_two {A : Type} (label1 label2 cut1 cut2 : string)
    (make : string -> string -> A) (line1 line2 value1 value2 : string) :
  startsTight line1 = true -> endsTight line2 = true ->
  avoids (ascii_of_nat 10) line1 = true -> avoids (ascii_of_nat 10) line2 = true ->
  includes label1 line1 = true ->
  includes label2 line1 = false -> includes label2 line2 = true ->
  partAfter cut1 line1 = Some value1 -> partAfter cut2 line2 = Some value2 ->
  readTwoLines label1 label2 cut1 cut2 make (line1 +:+ LF +:+ line2 +:+ LF)
  = Parsed (make (trim value1) (trim value2)).
Proof.
  intros Hs He Ha1 Ha2 H11 H21 H22 Hp1 Hp2. unfold readTwoLines.
  rewrite trim_two_lines, split_LF_two by assumption.
  cbn [List.find]. rewrite H11, H21, H22, Hp1, Hp2. reflexivity.
Qed.

Lemma plain_avoids (c : ascii) (s : string) :
  plainChar c = false -> plain s = true -> avoids c s = true.
Proof.
  intros Hc. induction s as [|x s IH]; intros Hs; [reflexivity|].
  cbn [plain avoids] in *. apply andb_prop in Hs. destruct Hs as [Hx Hs].
  rewrite IH by exact Hs. rewrite andb_true_r. apply negb_true_iff.
  destruct (Ascii.eqb x c) eqn:E; [|reflexivity].
  apply Ascii.eqb_eq in E. congruence.
Qed.

Lemma plain_trim (s : string) : plain s = true -> trim s = s.
Proof.
  intros Hs. unfold trim.
  assert (Hstart : trimStart s = s).
  { destruct s as [|x s]; [reflexivity|]. cbn [plain] in Hs.
    apply andb_prop in Hs. destruct Hs as [Hx _]. unfold plainChar in Hx.
    apply andb_prop in Hx. destruct Hx as [Hx _]. apply negb_true_iff in Hx.
    cbn [trimStart]. rewrite Hx. reflexivity. }
  rewrite Hstart. induction s as [|x s IH]; [reflexivity|].
  cbn [plain] in Hs. apply andb_prop in Hs. destruct Hs as [Hx Hs].
  unfold plainChar in Hx. apply andb_prop in Hx. destruct Hx as [Hx _].
  apply negb_true_iff in Hx. cbn [trimEnd].
  rewrite IH; [ | exact Hs | destruct s as [|y s]; [reflexivity|];
    cbn [plain] in Hs; apply andb_prop in Hs; destruct Hs as [Hy _];
    unfold plainChar in Hy; apply andb_prop in Hy; destruct Hy as [Hy _];
    apply negb_true_iff in Hy; cbn [trimStart]; rewrite Hy; reflexivity ].
  destruct s; [rewrite Hx|]; reflexivity.
Qed.

Lemma plain_endsTight (a s : string) :
  plain s = true -> s <> EmptyString -> endsTight (a +:+ s) = true.
Proof.
  intros Hs Hne.
  assert (H : endsTight s = true).
  { clear a. induction s as [|x s IH]; [congruence|].
    cbn [plain] in Hs. apply andb_prop in Hs. destruct Hs as [Hx Hs].
    unfold plainChar in Hx. apply andb_prop in Hx. destruct Hx as [Hx _].
    destruct s as [|y s]; [exact Hx|]. apply IH; [exact Hs | discriminate]. }
  induction a as [|x a IH]; [exact H|].
  rewrite append_cons. cbn [endsTight].
  destruct (a +:+ s) eqn:E; [|exact IH].
  destruct a; [|discriminate]. rewrite append_empty in E. congruence.
Qed.

(** X13. What [prove] prints for a proof and an output, each a text
    without white space or colon and not empty, is read back as that
    proof and that output. *)
Theorem prove_output_round_trip (proof output : string) :
  plain proof = true -> plain output = true ->
  proof <> EmptyString -> output <> EmptyString ->
  parseProveOutput (proveOutput proof output)
  = Parsed {| ProofResult.proof := proof; ProofResult.output := output |}.
Proof.
  intros Hp Ho Hpne Hone.
  pose proof (plain_avoids (ascii_of_nat 10) proof eq_refl Hp) as Hplf.
  pose proof (plain_avoids (ascii_of_nat 10) output eq_refl Ho) as Holf.
  pose proof (plain_avoids ":" proof eq_refl Hp) as Hpc.
  pose proof (plain_avoids ":" output eq_refl Ho) as Hoc.
  rewrite parseProveOutput_shape. unfold proveOutput.
  change ("Proof: " +:+ proof +:+ LF +:+ "Output: " +:+ output +:+ LF)
    with (("Proof: " +:+ proof) +:+ LF +:+ ("Output: " +:+ output) +:+ LF).
  rewrite (readTwoLines_two _ _ _ _ _ _ _ (" " +:+ proof) (" " +:+ output)).
  - change (trim (" " +:+ proof)) with (trim proof).
    change (trim (" " +:+ output)) with (trim output).
    rewrite !plain_trim by assumption. reflexivity.
  - reflexivity.
  - apply plain_endsTight; assumption.
  - rewrite avoids_app, Hplf. reflexivity.
  - rewrite avoids_app, Holf. reflexivity.
  - reflexivity.
  - change (includes "Output:" proof = false).
    apply (includes_avoids ":"); [reflexivity | exact Hpc].
  - reflexivity.
  - change ("Proof: " +:+ proof) with ("Proof:" +:+ " " +:+ proof).
    apply partAfter_label; [discriminate|].
    change (includes "Proof:" proof = false).
    apply (includes_avoids ":"); [reflexivity | exact Hpc].
  - change ("Output: " +:+ output) with ("Output:" +:+ " " +:+ output).
    apply partAfter_label; [discriminate|].
    change (includes "Output:" output = false).
    apply (includes_avoids ":"); [reflexivity | exact Hoc].
Qed.

Lemma prove_output_round_trip_witness :
  parseProveOutput (proveOutput "0a0b" "0c")
  = Parsed {| ProofResult.proof := "0a0b"; ProofResult.output := "0c" |}.
Proof.
  apply (prove_output_round_trip "0a0b" "0c");
    [reflexivity | reflexivity | discriminate | discriminate].
Defined.

(** X14. What [keygen] prints for a secret and a public key, each a text
    without white space or colon and not empty, is read back as that
    key pair. *)
Theorem keygen_output_round_trip (secret public : string) :
  plain secret = true -> plain public = true ->
  secret <> EmptyString -> public <> EmptyString ->
  parseKeygenOutput (keygenOutput secret public)
  = Parsed {| secretKey := secret; publicKey := public |}.
Proof.
  intros Hs Hp Hsne Hpne.
  pose proof (plain_avoids (ascii_of_nat 10) secret eq_refl Hs) as Hslf.
  pose proof (plain_avoids (ascii_of_nat 10) public eq_refl Hp) as Hplf.
  pose proof (plain_avoids ":" secret eq_refl Hs) as Hsc.
  pose proof (plain_avoids ":" public eq_refl Hp) as Hpc.
  rewrite parseKeygenOutput_shape. unfold keygenOutput.
  change ("Secret key: " +:+ secret +:+ LF +:+ "Public key: " +:+ public +:+ LF)
    with (("Secret key: " +:+ secret) +:+ LF +:+ ("Public key: " +:+ public) +:+ LF).
  rewrite (readTwoLines_two _ _ _ _ _ _ _ secret public).
  - rewrite !plain_trim by assumption. reflexivity.
  - reflexivity.
  - apply plain_endsTight; assumption.
  - rewrite avoids_app, Hslf. reflexivity.
  - rewrite avoids_app, Hplf. reflexivity.
  - reflexivity.
  - change (includes "Public key:" secret = false).
    apply (includes_avoids ":"); [reflexivity | exact Hsc].
  - reflexivity.
  - apply partAfter_label; [discriminate|].
    apply (includes_avoids ":"); [reflexivity | exact Hsc].
  - apply partAfter_label; [discriminate|].
    apply (includes_avoids ":"); [reflexivity | exact Hpc].
Qed.

Lemma keygen_output_round_trip_witness :
  parseKeygenOutput (keygenOutput "5f3a" "c7")
  = Parsed {| secretKey := "5f3a"; publicKey := "c7" |}.
Proof.
  apply (keygen_output_round_trip "5f3a" "c7");
    [reflexivity | reflexivity | discriminate | discriminate].
Defined.

Lemma includes_later (m : string) (c : ascii) (s : string) :
  includes m s = true -> includes m (String c s) = true.
Proof. intros H. cbn [includes]. rewrite H. apply orb_true_r. Qed.

Lemma includes_of_trimStart (m s : string) :
  includes m (trimStart s) = true -> includes m s = true.
Proof.
  induction s as [|c s IH]; [auto|]. cbn [trimStart].
  destruct (isWhiteSpace c); [|auto]. intros H. apply includes_later, IH, H.
Qed.

Lemma startsWith_of_trimEnd (m s : string) :
  startsWith m (trimEnd s) = true -> startsWith m s = true.
Proof.
  revert s. induction m as [|x m IH]; intros s H; [reflexivity|].
  destruct s as [|c s]; [exact H|]. cbn [trimEnd] in H.
  destruct (trimEnd s) as [|k kept] eqn:Hk.
  - destruct (isWhiteSpace c); [discriminate|]. cbn [startsWith] in *.
    apply andb_prop in H. destruct H as [-> H]. destruct m; [reflexivity | discriminate].
  - cbn [startsWith] in *. apply andb_prop in H. destruct H as [-> H].
    apply IH. rewrite Hk. exact H.
Qed.

Lemma includes_of_trimEnd (m s : string) :
  includes m (trimEnd s) = true -> includes m s = true.
Proof.
  induction s as [|c s IH]; [auto|]. intros H.
  assert (Hcases : startsWith m (trimEnd (String c s)) = true
                   \/ includes m (trimEnd s) = true).
  { cbn [trimEnd] in *. destruct (trimEnd s) as [|k kept].
    - destruct (isWhiteSpace c); cbn [includes] in H |- *;
        apply orb_prop in H; destruct H as [H|H]; auto; discriminate.
    - cbn [includes] in H. apply orb_prop in H. destruct H as [H|H]; auto. }
  destruct Hcases as [H1|H1].
  - apply startsWith_of_trimEnd in H1. cbn [includes]. rewrite H1. reflexivity.
  - apply includes_later, IH, H1.
Qed.

(** A marker that a line of the trimmed text includes is included in the
    text. *)
Lemma line_includes (m stdout line : string) :
  m <> EmptyString -> avoids (ascii_of_nat 10) m = true ->
  In line (split LF (trim stdout)) -> includes m line = true ->
  includes m stdout = true.
Proof.
  intros Hne Hlf Hin Hline.
  apply includes_of_trimStart, includes_of_trimEnd. fold (trim stdout).
  rewrite <- lines_include by assumption.
  apply existsb_exists. eauto.
Qed.

(** X15. When [keygen] prints both labels but one of them is not
    followed by a space, [generateVRFKeypair] finds the line and then
    calls [trim] on [undefined]: the failure is a [TypeError], not the
    parse error of the function. *)
Theorem keygen_label_without_space (stdout : string) :
  includes "Secret key:" stdout = true ->
  includes "Public key:" stdout = true ->
  includes "Secret key: " stdout = false \/ includes "Public key: " stdout = false ->
  parseKeygenOutput stdout = NotParsed TrimOfUndefined.
Proof.
  intros Hs Hp Hspace. unfold parseKeygenOutput.
  pose proof (find_marker "Secret key:" stdout ltac:(discriminate) eq_refl eq_refl eq_refl) as Fs.
  pose proof (find_marker "Public key:" stdout ltac:(discriminate) eq_refl eq_refl eq_refl) as Fp.
  destruct (List.find (includes "Secret key:") (split LF (trim stdout)))
    as [secretKeyLine|] eqn:Es; [|congruence].
  destruct (List.find (includes "Public key:") (split LF (trim stdout)))
    as [publicKeyLine|] eqn:Ep; [|congruence].
  apply find_some in Es, Ep. destruct Es as [Es _], Ep as [Ep _].
  destruct (partAfter "Secret key: " secretKeyLine) as [secret|] eqn:E1; [|reflexivity].
  destruct (partAfter "Public key: " publicKeyLine) as [public|] eqn:E2; [|reflexivity].
  exfalso.
  assert (H1 : includes "Secret key: " secretKeyLine = true).
  { destruct (includes "Secret key: " secretKeyLine) eqn:E; [reflexivity|].
    apply partAfter_None in E; [congruence | discriminate]. }
  assert (H2 : includes "Public key: " publicKeyLine = true).
  { destruct (includes "Public key: " publicKeyLine) eqn:E; [reflexivity|].
    apply partAfter_None in E; [congruence | discriminate]. }
  apply (line_includes _ stdout) in H1; [| discriminate | reflexivity | exact Es].
  apply (line_includes _ stdout) in H2; [| discriminate | reflexivity | exact Ep].
  destruct Hspace; congruence.
Qed.

Lemma keygen_label_without_space_witness :
  parseKeygenOutput ("Secret key:5f3a" +:+ LF +:+ "Public key: c7" +:+ LF)
  = NotParsed TrimOfUndefined.
Proof.
  apply (keygen_label_without_space ("Secret key:5f3a" +:+ LF +:+ "Public key: c7" +:+ LF));
    [reflexivity | reflexivity | left; reflexivity].
Defined.
